(** * Notes-WebApp: sharing, version archive and reminder sweep

    A shallow embedding of the backend controllers

      - controllers/noteController.js      (createNote, getNotes,
                                            getNoteById, updateNote,
                                            deleteNote, uploadAttachment,
                                            deleteAttachment)
      - controllers/versionController.js   (createVersion, getVersionHistory,
                                            getVersion, restoreVersion)
      - controllers/shareController.js     (shareNote, generateShareLink,
                                            getSharedNote, removeShare,
                                            revokeShareLink,
                                            getSharedWithMe,
                                            getPendingShares,
                                            respondToShareRequest)
      - services/reminderScheduler.js      (checkReminders, start and stop)

    over the two Mongoose models models/Note.js and models/NoteVersion.js.

    A MongoDB collection is a list of documents in insertion order.  A
    handler is a function from the database to a response and a database:
    [res.status(c); throw new Error(m)] is the error [mkError c m], and an
    exception thrown while the status is still 200 (a Mongoose validation
    error, a TypeError) is answered with 500 by errorHandler.  Error
    messages are shortened where the source interpolates or quotes.
    A handler is run as one step: the transition system [reachable]
    serves the requests one after another.  What two requests that overlap
    at an [await] can do is looked at for the pre-save hook of
    NoteVersion alone, whose steps are run interleaved.

    The title and the content of a note, which the schema trims and
    measures, are sequences of UTF-16 code units ([text]), whose length is
    [.length].  The other strings (addresses, names, tokens, tags, query
    parameters, messages) are only compared, tested for emptiness and
    passed on, and are strings of Rocq.

    What the embedding takes from Mongoose, for the options the schemas
    declare:
      - [trim: true] on a String path is a setter: an assignment to the
        path stores the trimmed string;
      - [required: true] on a String path rejects the empty string;
      - [save] and [create] run the validators first and reject with a
        ValidationError; the pre('save') hooks of a schema run after the
        validation;
      - [save] on a loaded document sends the modified paths: when no
        path was given a new value nothing is written;
      - [timestamps: true] stamps createdAt at creation and updatedAt at
        each write;
      - a Date path holds a valid Date: an Invalid Date fails the cast
        and [save] rejects. *)

From Stdlib Require Import List ZArith String Ascii Bool Arith Lia.
From Stdlib Require Import Permutation Sorted.
Import ListNotations.

Local Open Scope string_scope.
Local Open Scope list_scope.
Local Open Scope nat_scope.

(** ** Identifiers and instants *)

(** A Mongo ObjectId; [a.toString() === b.toString()] is equality. *)
Definition ObjectId := nat.

(** A Date, as milliseconds since the epoch. *)
Definition Date := Z.

(** ** Schema enumerations *)

(** sharedWith.permission: enum ['view', 'edit'] *)
Inductive Permission := view | edit.

(** sharedWith.status: enum ['pending', 'accepted'] *)
Inductive ShareStatus := pending | accepted.

(** reminderStatus: enum ['pending', 'sent', 'none'] *)
Inductive ReminderStatus := reminder_pending | reminder_sent | reminder_none.

(** attachments.type: enum ['image', 'document'] *)
Inductive AttachmentType := image | document.

Definition Permission_eqb (p q : Permission) : bool :=
  match p, q with
  | view, view | edit, edit => true
  | _, _ => false
  end.

Definition ShareStatus_eqb (p q : ShareStatus) : bool :=
  match p, q with
  | pending, pending | accepted, accepted => true
  | _, _ => false
  end.

Definition ReminderStatus_eqb (p q : ReminderStatus) : bool :=
  match p, q with
  | reminder_pending, reminder_pending
  | reminder_sent, reminder_sent
  | reminder_none, reminder_none => true
  | _, _ => false
  end.

(** ** Equality of stored values *)

Definition option_eq_dec {A} (dec : forall x y : A, {x = y} + {x <> y})
    (a b : option A) : {a = b} + {a <> b}.
Proof. decide equality. Defined.

Definition Permission_eq_dec (p q : Permission) : {p = q} + {p <> q}.
Proof. decide equality. Defined.

Definition ShareStatus_eq_dec (p q : ShareStatus) : {p = q} + {p <> q}.
Proof. decide equality. Defined.

Definition ReminderStatus_eq_dec (p q : ReminderStatus) : {p = q} + {p <> q}.
Proof. decide equality. Defined.

Definition AttachmentType_eq_dec (p q : AttachmentType) : {p = q} + {p <> q}.
Proof. decide equality. Defined.

(** ** Strings *)

(** A UTF-16 code unit, 0 to 65535. *)
Definition CodeUnit := N.

(** The value of a String path that the schema trims or measures. *)
Definition text := list CodeUnit.

(** The text of a literal; the literals of this development are ASCII. *)
Fixpoint js (s : string) : text :=
  match s with
  | EmptyString => []
  | String c s' => N_of_ascii c :: js s'
  end.

Coercion js : string >-> text.

(** A literal under [Some] is read at the type that is expected. *)
#[local] Arguments Some {A} & a.
#[local] Arguments cons {A} & a l.
#[local] Arguments pair {A B} & a b.

Definition text_dec (a b : text) : {a = b} + {a <> b} :=
  list_eq_dec N.eq_dec a b.

(** [!s] for a string [s]: the empty string alone is falsy. *)
Class JsString (A : Type) := isEmptyString : A -> bool.

#[global] Instance string_JsString : JsString string :=
  fun s => match s with EmptyString => true | String _ _ => false end.

#[global] Instance text_JsString : JsString text :=
  fun s => match s with [] => true | _ :: _ => false end.

(** ** String setters of the schemas *)

(** The code units that String.prototype.trim removes, the WhiteSpace and
    LineTerminator of ECMAScript: TAB, LF, VT, FF, CR, SP, NBSP (U+00A0),
    U+1680, U+2000 to U+200A, LS and PS (U+2028, U+2029), U+202F, U+205F,
    U+3000 and the byte order mark U+FEFF. *)
Definition isWhiteSpace (c : CodeUnit) : bool :=
  ((9 <=? c) && (c <=? 13) || (c =? 32) || (c =? 160) || (c =? 5760)
   || (8192 <=? c) && (c <=? 8202) || (c =? 8232) || (c =? 8233)
   || (c =? 8239) || (c =? 8287) || (c =? 12288) || (c =? 65279))%N.

Fixpoint trimStart (s : text) : text :=
  match s with
  | [] => []
  | c :: s' => if isWhiteSpace c then trimStart s' else s
  end.

(** Drops the trailing white space: a white-space code unit is kept only
    when something is kept after it. *)
Fixpoint trimEnd (s : text) : text :=
  match s with
  | [] => []
  | c :: s' =>
      match trimEnd s' with
      | [] => if isWhiteSpace c then [] else [c]
      | t => c :: t
      end
  end.

(** [trim: true] on a String path: the setter calls [.trim()]. *)
Definition trim (s : text) : text := trimEnd (trimStart s).

(** The text does not start with white space. *)
Definition noLeadingSpace (s : text) : Prop :=
  match s with
  | [] => True
  | c :: _ => isWhiteSpace c = false
  end.

(** ** Documents *)

Module User.
Record t := mk {
  _id : ObjectId;
  name : string;
  email : string
}.
End User.

Module Share.
(** One element of Note.sharedWith. *)
Record t := mk {
  userId : ObjectId;
  permission : Permission;
  sharedAt : Date;
  status : ShareStatus
}.

Definition set_permission (p : Permission) (s : t) : t :=
  mk (userId s) p (sharedAt s) (status s).

Definition set_status (st : ShareStatus) (s : t) : t :=
  mk (userId s) (permission s) (sharedAt s) st.

Definition eq_dec (a b : t) : {a = b} + {a <> b}.
Proof.
  decide equality;
    first [apply Nat.eq_dec | apply Z.eq_dec | apply Permission_eq_dec
          | apply ShareStatus_eq_dec].
Defined.
End Share.

Module Attachment.
(** One element of Note.attachments, a subdocument with its own _id. *)
Record t := mk {
  _id : ObjectId;
  url : string;
  publicId : string;
  type : AttachmentType;
  name : string;
  size : nat
}.

Definition eq_dec (a b : t) : {a = b} + {a <> b}.
Proof.
  decide equality;
    first [apply Nat.eq_dec | apply string_dec | apply AttachmentType_eq_dec].
Defined.
End Attachment.

Module Note.
(** noteSchema, with the two timestamps of [timestamps: true]. *)
Record t := mk {
  _id : ObjectId;
  title : text;
  content : text;
  userId : ObjectId;
  isPinned : bool;
  isArchived : bool;
  tags : list string;
  attachments : list Attachment.t;
  reminderAt : option Date;
  reminderStatus : ReminderStatus;
  sharedWith : list Share.t;
  shareToken : option string;
  shareTokenExpiry : option Date;
  createdAt : Date;
  updatedAt : Date
}.

(** [note.title = v]: the path is declared with [trim: true]. *)
Definition set_title (v : text) (n : t) : t :=
  mk (_id n) (trim v) (content n) (userId n) (isPinned n) (isArchived n)
     (tags n) (attachments n) (reminderAt n) (reminderStatus n)
     (sharedWith n) (shareToken n) (shareTokenExpiry n)
     (createdAt n) (updatedAt n).

(** [note.content = v]: the path is declared with [trim: true]. *)
Definition set_content (v : text) (n : t) : t :=
  mk (_id n) (title n) (trim v) (userId n) (isPinned n) (isArchived n)
     (tags n) (attachments n) (reminderAt n) (reminderStatus n)
     (sharedWith n) (shareToken n) (shareTokenExpiry n)
     (createdAt n) (updatedAt n).

Definition set_tags (v : list string) (n : t) : t :=
  mk (_id n) (title n) (content n) (userId n) (isPinned n) (isArchived n)
     v (attachments n) (reminderAt n) (reminderStatus n)
     (sharedWith n) (shareToken n) (shareTokenExpiry n)
     (createdAt n) (updatedAt n).

Definition set_isPinned (v : bool) (n : t) : t :=
  mk (_id n) (title n) (content n) (userId n) v (isArchived n)
     (tags n) (attachments n) (reminderAt n) (reminderStatus n)
     (sharedWith n) (shareToken n) (shareTokenExpiry n)
     (createdAt n) (updatedAt n).

Definition set_isArchived (v : bool) (n : t) : t :=
  mk (_id n) (title n) (content n) (userId n) (isPinned n) v
     (tags n) (attachments n) (reminderAt n) (reminderStatus n)
     (sharedWith n) (shareToken n) (shareTokenExpiry n)
     (createdAt n) (updatedAt n).

Definition set_reminderAt (v : option Date) (n : t) : t :=
  mk (_id n) (title n) (content n) (userId n) (isPinned n) (isArchived n)
     (tags n) (attachments n) v (reminderStatus n)
     (sharedWith n) (shareToken n) (shareTokenExpiry n)
     (createdAt n) (updatedAt n).

Definition set_reminderStatus (v : ReminderStatus) (n : t) : t :=
  mk (_id n) (title n) (content n) (userId n) (isPinned n) (isArchived n)
     (tags n) (attachments n) (reminderAt n) v
     (sharedWith n) (shareToken n) (shareTokenExpiry n)
     (createdAt n) (updatedAt n).

Definition set_attachments (v : list Attachment.t) (n : t) : t :=
  mk (_id n) (title n) (content n) (userId n) (isPinned n) (isArchived n)
     (tags n) v (reminderAt n) (reminderStatus n)
     (sharedWith n) (shareToken n) (shareTokenExpiry n)
     (createdAt n) (updatedAt n).

Definition set_sharedWith (v : list Share.t) (n : t) : t :=
  mk (_id n) (title n) (content n) (userId n) (isPinned n) (isArchived n)
     (tags n) (attachments n) (reminderAt n) (reminderStatus n)
     v (shareToken n) (shareTokenExpiry n)
     (createdAt n) (updatedAt n).

Definition set_shareToken (v : option string) (n : t) : t :=
  mk (_id n) (title n) (content n) (userId n) (isPinned n) (isArchived n)
     (tags n) (attachments n) (reminderAt n) (reminderStatus n)
     (sharedWith n) v (shareTokenExpiry n)
     (createdAt n) (updatedAt n).

Definition set_shareTokenExpiry (v : option Date) (n : t) : t :=
  mk (_id n) (title n) (content n) (userId n) (isPinned n) (isArchived n)
     (tags n) (attachments n) (reminderAt n) (reminderStatus n)
     (sharedWith n) (shareToken n) v
     (createdAt n) (updatedAt n).

Definition set_updatedAt (v : Date) (n : t) : t :=
  mk (_id n) (title n) (content n) (userId n) (isPinned n) (isArchived n)
     (tags n) (attachments n) (reminderAt n) (reminderStatus n)
     (sharedWith n) (shareToken n) (shareTokenExpiry n)
     (createdAt n) v.

(** The validators of noteSchema: title is required (for a String path
    the empty string does not satisfy [required]) and at most 200 code
    units long ([maxlength] compares [.length]);
    tags holds at most 10 entries.  The enum paths are enumerations
    here and always pass. *)
Definition validate (n : t) : bool :=
  negb (List.length (title n) =? 0)
  && (List.length (title n) <=? 200)
  && (List.length (tags n) <=? 10).

(** Two documents hold the same value at every path. *)
Definition eq_dec (a b : t) : {a = b} + {a <> b}.
Proof.
  decide equality;
    first [ apply Nat.eq_dec | apply Z.eq_dec | apply text_dec
          | apply string_dec
          | apply Bool.bool_dec | apply ReminderStatus_eq_dec
          | apply (list_eq_dec string_dec)
          | apply (list_eq_dec Attachment.eq_dec)
          | apply (list_eq_dec Share.eq_dec)
          | apply (option_eq_dec Z.eq_dec)
          | apply (option_eq_dec string_dec) ].
Defined.
End Note.

Module NoteVersion.
(** noteVersionSchema, with createdAt of [timestamps: true]. *)
Record t := mk {
  _id : ObjectId;
  noteId : ObjectId;
  title : text;
  content : text;
  tags : list string;
  versionNumber : nat;
  createdBy : ObjectId;
  createdAt : Date
}.

(** title and content are [required: true] String paths (the empty
    string does not satisfy [required]); noteId, versionNumber and
    createdBy are always supplied by the callers. *)
Definition validate (v : t) : bool :=
  negb (List.length (title v) =? 0)
  && negb (List.length (content v) =? 0).
End NoteVersion.

(** ** The database *)

Record DB := mkDB {
  notes : list Note.t;
  versions : list NoteVersion.t;
  users : list User.t;
  nextId : ObjectId          (* the next fresh ObjectId *)
}.

Definition with_notes (ns : list Note.t) (db : DB) : DB :=
  mkDB ns (versions db) (users db) (nextId db).

Definition with_versions (vs : list NoteVersion.t) (db : DB) : DB :=
  mkDB (notes db) vs (users db) (nextId db).

Definition with_users (us : list User.t) (db : DB) : DB :=
  mkDB (notes db) (versions db) us (nextId db).

Definition fresh (db : DB) : ObjectId * DB :=
  (nextId db, mkDB (notes db) (versions db) (users db) (S (nextId db))).

(** ** Responses and the handler monad *)

Record HttpError := mkError {
  statusCode : nat;
  message : string
}.

(** A handler threads the database and either answers or throws; what was
    written before a throw stays written. *)
Definition M (A : Type) : Type := DB -> (HttpError + A) * DB.

Definition ret {A} (a : A) : M A := fun db => (inr a, db).

Definition throw {A} (code : nat) (msg : string) : M A :=
  fun db => (inl (mkError code msg), db).

Definition bind {A B} (m : M A) (k : A -> M B) : M B :=
  fun db =>
    match m db with
    | (inl e, db') => (inl e, db')
    | (inr a, db') => k a db'
    end.

Definition get : M DB := fun db => (inr db, db).
Definition put (db : DB) : M unit := fun _ => (inr tt, db).

Declare Scope handler_scope.
Delimit Scope handler_scope with handler.
Notation "x <- m ;; k" := (bind m (fun x => k))
  (at level 61, m at next level, right associativity) : handler_scope.
Notation "m ;;; k" := (bind m (fun _ => k))
  (at level 61, right associativity) : handler_scope.
Local Open Scope handler_scope.

(** [if (c) { res.status(code); throw new Error(msg) }] *)
Definition throwIf (c : bool) (code : nat) (msg : string) : M unit :=
  if c then throw code msg else ret tt.

(** An exception that reaches errorHandler with the status still 200. *)
Definition serverError {A} (msg : string) : M A := throw 500 msg.

(** [new ObjectId()] *)
Definition newObjectId : M ObjectId := fun db => (inr (fst (fresh db)), snd (fresh db)).

(** A Date that holds a time value: at most 8.64e15 ms from the epoch.
    [new Date(t)] beyond that is an Invalid Date. *)
Definition validDate (d : Z) : bool := (Z.abs d <=? 8640000000000000)%Z.

(** ** The Note collection (models/Note.js) *)

Module NoteModel.

(** The stored note with the given _id, if any. *)
Definition lookup (id : ObjectId) (db : DB) : option Note.t :=
  find (fun n => Note._id n =? id) (notes db).

(** Note.findById(id) *)
Definition findById (id : ObjectId) : M (option Note.t) :=
  fun db => (inr (lookup id db), db).

(** The stored document with the _id of [n] is replaced by [n]. *)
Definition replace (n : Note.t) (ns : list Note.t) : list Note.t :=
  map (fun m => if Note._id m =? Note._id n then n else m) ns.

(** [note.save()] on a loaded document [n].  The validators run first
    and a failure rejects with a ValidationError.  A handler runs as one
    step, so the document that was loaded is the stored one: a path was
    modified exactly when [n] differs from the stored document.  When no
    path was modified nothing is sent and updatedAt stays; otherwise the
    document is written and updatedAt is refreshed.  A document that is
    no longer stored makes the update match nothing, which Mongoose
    reports as DocumentNotFoundError. *)
Definition save (now : Date) (n : Note.t) : M Note.t :=
  if Note.validate n then
    fun db =>
      match lookup (Note._id n) db with
      | None => (inl (mkError 500 "DocumentNotFoundError"), db)
      | Some stored =>
          if Note.eq_dec n stored then (inr n, db)
          else
            let n' := Note.set_updatedAt now n in
            (inr n', with_notes (replace n' (notes db)) db)
      end
  else serverError "ValidationError".

(** [note.deleteOne()] *)
Definition deleteOne (n : Note.t) : M unit :=
  fun db =>
    (inr tt,
     with_notes (filter (fun m => negb (Note._id m =? Note._id n)) (notes db)) db).

Definition holdsToken (token : string) (n : Note.t) : bool :=
  match Note.shareToken n with
  | Some t => String.eqb t token
  | None => false
  end.

(** Note.findOne({ shareToken: token }) *)
Definition findOneByShareToken (token : string) : M (option Note.t) :=
  fun db => (inr (find (holdsToken token) (notes db)), db).

(** Note.create({ userId, title, content, tags }): the setters trim title
    and content, the other paths take their schema defaults. *)
Definition create (now : Date) (owner : ObjectId) (title content : text)
    (tags : list string) : M Note.t :=
  fun db =>
    let (id, db1) := fresh db in
    let n := Note.mk id (trim title) (trim content) owner false false tags []
                     None reminder_none [] None None now now in
    if Note.validate n
    then (inr n, with_notes (notes db1 ++ [n]) db1)
    else (inl (mkError 500 "ValidationError"), db).

End NoteModel.

(** ** The NoteVersion collection (models/NoteVersion.js) *)

Module NoteVersionModel.

Definition ofNote (nid : ObjectId) (v : NoteVersion.t) : bool :=
  NoteVersion.noteId v =? nid.

(** NoteVersion.countDocuments({ noteId }) *)
Definition countDocuments (nid : ObjectId) : M nat :=
  fun db => (inr (List.length (filter (ofNote nid) (versions db))), db).

(** The stored version with the given _id that belongs to note [nid]. *)
Definition lookup (vid nid : ObjectId) (db : DB) : option NoteVersion.t :=
  find (fun v => (NoteVersion._id v =? vid) && ofNote nid v) (versions db).

(** NoteVersion.findOne({ _id: versionId, noteId }) *)
Definition findOne (vid nid : ObjectId) : M (option NoteVersion.t) :=
  fun db => (inr (lookup vid nid db), db).

(** NoteVersion.find({ noteId }) *)
Definition findByNote (nid : ObjectId) : M (list NoteVersion.t) :=
  fun db => (inr (filter (ofNote nid) (versions db)), db).

(** The least createdAt among the versions of note [nid]. *)
Fixpoint oldestCreatedAt (nid : ObjectId) (vs : list NoteVersion.t)
  : option Date :=
  match vs with
  | [] => None
  | v :: vs' =>
      if ofNote nid v then
        match oldestCreatedAt nid vs' with
        | Some d => Some (Z.min (NoteVersion.createdAt v) d)
        | None => Some (NoteVersion.createdAt v)
        end
      else oldestCreatedAt nid vs'
  end.

(** Removes the first document that satisfies [p]. *)
Fixpoint removeFirst (p : NoteVersion.t -> bool) (vs : list NoteVersion.t)
  : list NoteVersion.t :=
  match vs with
  | [] => []
  | v :: vs' => if p v then vs' else v :: removeFirst p vs'
  end.

(** findOneAndDelete({ noteId }, { sort: { createdAt: 1 } }): the version
    of the note with the least createdAt goes; among equal instants the
    first in the collection. *)
Definition findOneAndDeleteOldest (nid : ObjectId) : M unit :=
  fun db =>
    match oldestCreatedAt nid (versions db) with
    | None => (inr tt, db)
    | Some d =>
        (inr tt,
         with_versions
           (removeFirst
              (fun v => ofNote nid v && (NoteVersion.createdAt v =? d)%Z)
              (versions db)) db)
    end.

(** noteVersionSchema.pre('save'): limit versions per note to 20. *)
Definition preSave (v : NoteVersion.t) : M unit :=
  versionCount <- countDocuments (NoteVersion.noteId v) ;;
  if 20 <=? versionCount
  then findOneAndDeleteOldest (NoteVersion.noteId v)
  else ret tt.

Definition insert (v : NoteVersion.t) : M unit :=
  fun db => (inr tt, with_versions (versions db ++ [v]) db).

(** NoteVersion.create({...}): validation, then the pre-save hook, then
    the insertion (Mongoose validates before it runs the pre('save')
    hooks of the schema). *)
Definition create (now : Date) (nid : ObjectId) (title content : text)
    (tags : list string) (versionNumber : nat) (createdBy : ObjectId)
  : M NoteVersion.t :=
  fun db =>
    let (id, db1) := fresh db in
    let v := NoteVersion.mk id nid title content tags versionNumber
                            createdBy now in
    if NoteVersion.validate v
    then (preSave v ;;; insert v ;;; ret v) db1
    else (inl (mkError 500 "ValidationError"), db).

(** [create] up to the end of the pre-save hook: the document is built
    and validated and the hook has run; the insertion is still to come. *)
Definition prepare (now : Date) (nid : ObjectId) (title content : text)
    (tags : list string) (versionNumber : nat) (createdBy : ObjectId)
  : M NoteVersion.t :=
  fun db =>
    let (id, db1) := fresh db in
    let v := NoteVersion.mk id nid title content tags versionNumber
                            createdBy now in
    if NoteVersion.validate v
    then (preSave v ;;; ret v) db1
    else (inl (mkError 500 "ValidationError"), db).

End NoteVersionModel.

(** ** controllers/noteController.js *)

Module UpdateBody.
(** The fields updateNote reads from req.body; [None] is [undefined]. *)
Record t := mk {
  title : option text;
  content : option text;
  tags : option (list string);
  isPinned : option bool;
  isArchived : option bool;
  reminderAt : option (option Date);
  reminderStatus : option ReminderStatus
}.

End UpdateBody.

(** [v || d] for a string-valued body field: undefined and the empty
    string are falsy. *)
Definition orElse {A} `{JsString A} (v : option A) (d : A) : A :=
  match v with
  | Some s => if isEmptyString s then d else s
  | None => d
  end.

(** [v !== undefined ? v : d] *)
Definition ifDefined {A} (v : option A) (d : A) : A :=
  match v with
  | Some a => a
  | None => d
  end.

(** createNote: POST /api/notes (noteController.js, lines 11-31) *)
Definition createNote (now : Date) (caller : ObjectId)
    (title content : option text) (tags : option (list string))
  : M Note.t :=
  throwIf (isEmptyString (orElse title "")) 400 "Please provide a title" ;;;
  NoteModel.create now caller (orElse title "") (orElse content "")
                   (ifDefined tags []).

(** getNoteById: GET /api/notes/:id (noteController.js, lines 86-101) *)
Definition getNoteById (caller id : ObjectId) : M Note.t :=
  found <- NoteModel.findById id ;;
  match found with
  | None => throw 404 "Note not found"
  | Some note =>
      (* Check ownership *)
      throwIf (negb (Note.userId note =? caller))
              403 "Not authorized to access this note" ;;;
      ret note
  end.

(** The assignments of updateNote, in source order. *)
Definition applyUpdate (body : UpdateBody.t) (note : Note.t) : Note.t :=
  let note := Note.set_title (orElse (UpdateBody.title body) (Note.title note)) note in
  let note := Note.set_content (orElse (UpdateBody.content body) (Note.content note)) note in
  let note := Note.set_tags (ifDefined (UpdateBody.tags body) (Note.tags note)) note in
  let note := Note.set_isPinned (ifDefined (UpdateBody.isPinned body) (Note.isPinned note)) note in
  let note := Note.set_isArchived (ifDefined (UpdateBody.isArchived body) (Note.isArchived note)) note in
  let note := Note.set_reminderAt (ifDefined (UpdateBody.reminderAt body) (Note.reminderAt note)) note in
  let note := Note.set_reminderStatus (ifDefined (UpdateBody.reminderStatus body) (Note.reminderStatus note)) note in
  note.

(** updateNote: PUT /api/notes/:id, in the revision of the controller
    that knows the reminder fields. *)
Definition updateNote (now : Date) (caller id : ObjectId)
    (body : UpdateBody.t) : M Note.t :=
  found <- NoteModel.findById id ;;
  match found with
  | None => throw 404 "Note not found"
  | Some note =>
      (* Check ownership *)
      throwIf (negb (Note.userId note =? caller))
              403 "Not authorized to update this note" ;;;
      NoteModel.save now (applyUpdate body note)
  end.

(** The revision of updateNote in backend/controllers/noteController.js
    (lines 108-134) reads neither reminderAt nor reminderStatus from the
    body; getNoteById and deleteNote are the same in both revisions. *)
Module NoteControllerBase.

Definition applyUpdate (body : UpdateBody.t) (note : Note.t) : Note.t :=
  let note := Note.set_title (orElse (UpdateBody.title body) (Note.title note)) note in
  let note := Note.set_content (orElse (UpdateBody.content body) (Note.content note)) note in
  let note := Note.set_tags (ifDefined (UpdateBody.tags body) (Note.tags note)) note in
  let note := Note.set_isPinned (ifDefined (UpdateBody.isPinned body) (Note.isPinned note)) note in
  let note := Note.set_isArchived (ifDefined (UpdateBody.isArchived body) (Note.isArchived note)) note in
  note.

Definition updateNote (now : Date) (caller id : ObjectId)
    (body : UpdateBody.t) : M Note.t :=
  found <- NoteModel.findById id ;;
  match found with
  | None => throw 404 "Note not found"
  | Some note =>
      throwIf (negb (Note.userId note =? caller))
              403 "Not authorized to update this note" ;;;
      NoteModel.save now (applyUpdate body note)
  end.

End NoteControllerBase.

(** [attachment.type === 'image' ? 'image' : 'raw'] *)
Definition resourceType (a : Attachment.t) : string :=
  match Attachment.type a with
  | image => "image"
  | document => "raw"
  end.

(** deleteNote: DELETE /api/notes/:id.  The answer lists the
    deleteFromCloudinary calls made for the attachments; a failure of one
    of them is caught and logged, and does not change what follows. *)
Definition deleteNote (caller id : ObjectId) : M (list (string * string)) :=
  found <- NoteModel.findById id ;;
  match found with
  | None => throw 404 "Note not found"
  | Some note =>
      (* Check ownership *)
      throwIf (negb (Note.userId note =? caller))
              403 "Not authorized to delete this note" ;;;
      NoteModel.deleteOne note ;;;
      ret (map (fun a => (Attachment.publicId a, resourceType a))
               (Note.attachments note))
  end.

(** ** controllers/versionController.js *)

(** createVersion: POST /api/notes/:id/versions *)
Definition createVersion (now : Date) (caller id : ObjectId)
  : M NoteVersion.t :=
  found <- NoteModel.findById id ;;
  match found with
  | None => throw 404 "Note not found"
  | Some note =>
      (* Check ownership *)
      throwIf (negb (Note.userId note =? caller)) 403 "Not authorized" ;;;
      (* Get current version count *)
      versionCount <- NoteVersionModel.countDocuments (Note._id note) ;;
      NoteVersionModel.create now (Note._id note) (Note.title note)
        (Note.content note) (Note.tags note) (versionCount + 1) caller
  end.

(** createVersion up to the end of the pre-save hook of its snapshot. *)
Definition createVersionHook (now : Date) (caller id : ObjectId)
  : M NoteVersion.t :=
  found <- NoteModel.findById id ;;
  match found with
  | None => throw 404 "Note not found"
  | Some note =>
      throwIf (negb (Note.userId note =? caller)) 403 "Not authorized" ;;;
      versionCount <- NoteVersionModel.countDocuments (Note._id note) ;;
      NoteVersionModel.prepare now (Note._id note) (Note.title note)
        (Note.content note) (Note.tags note) (versionCount + 1) caller
  end.

(** Two createVersion requests that overlap: the hook awaits the count
    and the deletion and the insertion comes after it, with nothing that
    holds the collection in between, so the hooks of both requests may
    have run before either snapshot is inserted. *)
Definition createVersionOverlap (now1 now2 : Date) (caller id : ObjectId)
  : M (NoteVersion.t * NoteVersion.t) :=
  v1 <- createVersionHook now1 caller id ;;
  v2 <- createVersionHook now2 caller id ;;
  NoteVersionModel.insert v1 ;;;
  NoteVersionModel.insert v2 ;;;
  ret (v1, v2).

(** [note.userId === caller || note.sharedWith.some(share => share.userId
    === caller)] *)
Definition hasAccess (caller : ObjectId) (note : Note.t) : bool :=
  (Note.userId note =? caller)
  || existsb (fun share => Share.userId share =? caller) (Note.sharedWith note).

(** The fields kept by [.select('title versionNumber createdAt')]. *)
Record VersionSummary := mkSummary {
  summary_id : ObjectId;
  summary_title : text;
  summary_versionNumber : nat;
  summary_createdAt : Date
}.

Definition summarize (v : NoteVersion.t) : VersionSummary :=
  mkSummary (NoteVersion._id v) (NoteVersion.title v)
            (NoteVersion.versionNumber v) (NoteVersion.createdAt v).

Fixpoint insertNewestFirst (v : NoteVersion.t) (vs : list NoteVersion.t)
  : list NoteVersion.t :=
  match vs with
  | [] => [v]
  | w :: vs' =>
      if (NoteVersion.createdAt w <? NoteVersion.createdAt v)%Z
      then v :: w :: vs'
      else w :: insertNewestFirst v vs'
  end.

(** [.sort({ createdAt: -1 })] *)
Definition sortNewestFirst (vs : list NoteVersion.t) : list NoteVersion.t :=
  fold_right insertNewestFirst [] vs.

(** getVersionHistory: GET /api/notes/:id/versions *)
Definition getVersionHistory (caller id : ObjectId)
  : M (list VersionSummary) :=
  found <- NoteModel.findById id ;;
  match found with
  | None => throw 404 "Note not found"
  | Some note =>
      (* Check ownership or shared access *)
      throwIf (negb (hasAccess caller note)) 403 "Not authorized" ;;;
      vs <- NoteVersionModel.findByNote (Note._id note) ;;
      ret (map summarize (firstn 20 (sortNewestFirst vs)))
  end.

(** getVersion: GET /api/notes/:id/versions/:versionId *)
Definition getVersion (caller id versionId : ObjectId) : M NoteVersion.t :=
  found <- NoteModel.findById id ;;
  match found with
  | None => throw 404 "Note not found"
  | Some note =>
      (* Check ownership or shared access *)
      throwIf (negb (hasAccess caller note)) 403 "Not authorized" ;;;
      version <- NoteVersionModel.findOne versionId (Note._id note) ;;
      match version with
      | None => throw 404 "Version not found"
      | Some v => ret v
      end
  end.

(** restoreVersion: POST /api/notes/:id/versions/:versionId/restore *)
Definition restoreVersion (now : Date) (caller id versionId : ObjectId)
  : M Note.t :=
  found <- NoteModel.findById id ;;
  match found with
  | None => throw 404 "Note not found"
  | Some note =>
      (* Check ownership (only owner can restore) *)
      throwIf (negb (Note.userId note =? caller))
              403 "Only note owner can restore versions" ;;;
      version <- NoteVersionModel.findOne versionId (Note._id note) ;;
      match version with
      | None => throw 404 "Version not found"
      | Some version =>
          (* Save current state as version before restoring *)
          versionCount <- NoteVersionModel.countDocuments (Note._id note) ;;
          NoteVersionModel.create now (Note._id note) (Note.title note)
            (Note.content note) (Note.tags note) (versionCount + 1) caller ;;;
          (* Restore version *)
          let note := Note.set_title (NoteVersion.title version) note in
          let note := Note.set_content (NoteVersion.content version) note in
          let note := Note.set_tags (NoteVersion.tags version) note in
          NoteModel.save now note
      end
  end.

(** ** controllers/shareController.js *)

(** ['view', 'edit'].includes(permission), with the default 'view' of the
    destructuring. *)
Definition parsePermission (permission : option string) : option Permission :=
  match permission with
  | None => Some view
  | Some s =>
      if String.eqb s "view" then Some view
      else if String.eqb s "edit" then Some edit
      else None
  end.

(** Applies [f] to the first element that satisfies [p]: the object
    returned by [Array.prototype.find] is the one stored in the array. *)
Fixpoint updateFirst {A} (p : A -> bool) (f : A -> A) (l : list A) : list A :=
  match l with
  | [] => []
  | x :: l' => if p x then f x :: l' else x :: updateFirst p f l'
  end.

(** [Array.prototype.findIndex], [None] for -1. *)
Fixpoint findIndex {A} (p : A -> bool) (l : list A) : option nat :=
  match l with
  | [] => None
  | x :: l' =>
      if p x then Some 0
      else match findIndex p l' with
           | Some i => Some (S i)
           | None => None
           end
  end.

(** [l.splice(i, 1)] *)
Fixpoint removeAt {A} (i : nat) (l : list A) : list A :=
  match l, i with
  | [], _ => []
  | _ :: l', 0 => l'
  | x :: l', S j => x :: removeAt j l'
  end.

(** [l[i].status = 'accepted'] *)
Fixpoint acceptAt (i : nat) (l : list Share.t) : list Share.t :=
  match l, i with
  | [], _ => []
  | s :: l', 0 => Share.set_status accepted s :: l'
  | s :: l', S j => s :: acceptAt j l'
  end.

Section ShareController.

(** [regexTest email]: the test of [new RegExp(`^${email}$`, 'i')] on a
    stored address, [None] when the constructor throws because the
    pattern is not a regular expression. *)
Variable regexTest : string -> option (string -> bool).

(** User.findOne({ email: { $regex: new RegExp(`^${email}$`, 'i') } }) *)
Definition findUserByEmail (email : string) : M (option User.t) :=
  match regexTest email with
  | None => serverError "SyntaxError"
  | Some matches =>
      fun db => (inr (find (fun u => matches (User.email u)) (users db)), db)
  end.

(** shareNote: POST /api/notes/:id/share *)
Definition shareNote (now : Date) (caller id : ObjectId)
    (email permission : option string) : M (string * list Share.t) :=
  throwIf (String.eqb (orElse email "") "") 400 "Please provide user email" ;;;
  match parsePermission permission with
  | None => throw 400 "Invalid permission. Use view or edit"
  | Some permission =>
      found <- NoteModel.findById id ;;
      match found with
      | None => throw 404 "Note not found"
      | Some note =>
          (* Check ownership *)
          throwIf (negb (Note.userId note =? caller))
                  403 "Not authorized to share this note" ;;;
          (* Find user to share with (case-insensitive) *)
          userToShare <- findUserByEmail (orElse email "") ;;
          match userToShare with
          | None => throw 404 "User not found with email"
          | Some userToShare =>
              (* Can't share with yourself *)
              throwIf (User._id userToShare =? caller)
                      400 "Cannot share note with yourself" ;;;
              (* Check if already shared *)
              let isGrantee share := Share.userId share =? User._id userToShare in
              match find isGrantee (Note.sharedWith note) with
              | Some alreadyShared =>
                  (* Update permission if different *)
                  if negb (Permission_eqb (Share.permission alreadyShared) permission)
                  then
                    saved <- NoteModel.save now
                      (Note.set_sharedWith
                         (updateFirst isGrantee (Share.set_permission permission)
                                      (Note.sharedWith note)) note) ;;
                    ret ("Permission updated", Note.sharedWith saved)
                  else throw 400 "Note already shared with this user"
              | None =>
                  (* Add to sharedWith *)
                  saved <- NoteModel.save now
                    (Note.set_sharedWith
                       (Note.sharedWith note
                          ++ [Share.mk (User._id userToShare) permission now pending])
                       note) ;;
                  ret ("Note shared successfully", Note.sharedWith saved)
              end
          end
      end
  end.

End ShareController.

(** respondToShareRequest: POST /api/notes/:id/share/respond *)
Definition respondToShareRequest (now : Date) (caller id : ObjectId)
    (status : option string) : M string :=
  let status := ifDefined status "" in
  throwIf (negb (String.eqb status "accepted" || String.eqb status "rejected"))
          400 "Invalid status" ;;;
  found <- NoteModel.findById id ;;
  match found with
  | None => throw 404 "Note not found"
  | Some note =>
      match findIndex (fun s => Share.userId s =? caller) (Note.sharedWith note) with
      | None => throw 404 "Share request not found"
      | Some shareIndex =>
          if String.eqb status "rejected" then
            (* Remove the share entry *)
            NoteModel.save now
              (Note.set_sharedWith (removeAt shareIndex (Note.sharedWith note)) note) ;;;
            ret "Share request rejected"
          else
            (* Accept request *)
            NoteModel.save now
              (Note.set_sharedWith (acceptAt shareIndex (Note.sharedWith note)) note) ;;;
            ret "Share request accepted"
      end
  end.

(** removeShare: DELETE /api/notes/:id/share/:userId *)
Definition removeShare (now : Date) (caller id userId : ObjectId) : M string :=
  found <- NoteModel.findById id ;;
  match found with
  | None => throw 404 "Note not found"
  | Some note =>
      throwIf (negb (Note.userId note =? caller)) 403 "Not authorized" ;;;
      NoteModel.save now
        (Note.set_sharedWith
           (filter (fun share => negb (Share.userId share =? userId))
                   (Note.sharedWith note)) note) ;;;
      ret "Share access removed"
  end.

(** generateShareLink: POST /api/notes/:id/share-link.  [token] is the
    value of generateShareToken(), 32 random bytes in hex; [expiresIn] is
    a whole number of hours, and 0 is falsy like an absent value; an
    instant beyond the range of Date gives an Invalid Date.  shareToken
    carries a unique sparse index: a token that another note holds makes
    the write fail with a duplicate-key error. *)
Definition generateShareLink (now : Date) (caller id : ObjectId)
    (token : string) (expiresIn : option Z) : M (string * option Date) :=
  found <- NoteModel.findById id ;;
  match found with
  | None => throw 404 "Note not found"
  | Some note =>
      (* Check ownership *)
      throwIf (negb (Note.userId note =? caller))
              403 "Not authorized to share this note" ;;;
      (* Set expiry if provided *)
      let expiry :=
        match expiresIn with
        | Some h => if (h =? 0)%Z then None
                    else Some (now + h * 60 * 60 * 1000)%Z
        | None => None
        end in
      (* an Invalid Date does not cast to the Date path: save rejects *)
      throwIf (match expiry with
               | Some d => negb (validDate d)
               | None => false
               end) 500 "ValidationError" ;;;
      db <- get ;;
      throwIf (existsb (fun m => NoteModel.holdsToken token m
                                 && negb (Note._id m =? Note._id note))
                       (notes db))
              500 "E11000 duplicate key" ;;;
      NoteModel.save now
        (Note.set_shareTokenExpiry expiry
           (Note.set_shareToken (Some token) note)) ;;;
      ret (token, expiry)
  end.

(** revokeShareLink: DELETE /api/notes/:id/share-link *)
Definition revokeShareLink (now : Date) (caller id : ObjectId) : M string :=
  found <- NoteModel.findById id ;;
  match found with
  | None => throw 404 "Note not found"
  | Some note =>
      throwIf (negb (Note.userId note =? caller)) 403 "Not authorized" ;;;
      NoteModel.save now
        (Note.set_shareTokenExpiry None (Note.set_shareToken None note)) ;;;
      ret "Share link revoked"
  end.

(** The answer of getSharedNote. *)
Record SharedNote := mkSharedNote {
  shared_id : ObjectId;
  shared_title : text;
  shared_content : text;
  shared_tags : list string;
  shared_attachments : list Attachment.t;
  shared_createdAt : Date;
  shared_updatedAt : Date;
  shared_owner : string;
  shared_permission : Permission
}.

(** [.populate('userId', 'name email')]: the owner document, if any. *)
Definition populateOwner (note : Note.t) : M (option User.t) :=
  fun db => (inr (find (fun u => User._id u =? Note.userId note) (users db)), db).

(** [note.shareTokenExpiry && new Date() > note.shareTokenExpiry] *)
Definition linkExpired (now : Date) (note : Note.t) : bool :=
  match Note.shareTokenExpiry note with
  | Some expiry => (expiry <? now)%Z
  | None => false
  end.

(** getSharedNote: GET /api/notes/shared/:token (public) *)
Definition getSharedNote (now : Date) (token : string) : M SharedNote :=
  found <- NoteModel.findOneByShareToken token ;;
  match found with
  | None => throw 404 "Shared note not found"
  | Some note =>
      owner <- populateOwner note ;;
      (* Check if expired *)
      throwIf (linkExpired now note) 410 "Share link has expired" ;;;
      match owner with
      | None => serverError "TypeError"     (* note.userId.name on null *)
      | Some owner =>
          ret (mkSharedNote (Note._id note) (Note.title note)
                 (Note.content note) (Note.tags note) (Note.attachments note)
                 (Note.createdAt note) (Note.updatedAt note) (User.name owner)
                 view)          (* Link shares are always view-only *)
      end
  end.

(** ** services/reminderScheduler.js *)

(** One call [sendReminderEmail(note.userId.email, { title, content })]. *)
Record Dispatch := mkDispatch {
  dispatch_to : string;
  dispatch_title : text;
  dispatch_content : text
}.

(** The query [{ reminderAt: { $lte: now }, reminderStatus: 'pending' }];
    a null reminderAt matches no date. *)
Definition isDue (now : Date) (note : Note.t) : bool :=
  match Note.reminderAt note with
  | Some at_ => (at_ <=? now)%Z
  | None => false
  end
  && ReminderStatus_eqb (Note.reminderStatus note) reminder_pending.

Section ReminderScheduler.

(** [sendReminderEmail k d]: whether the k-th call of a sweep, made with
    the arguments [d], resolves ([true]) or throws ([false]). *)
Variable sendReminderEmail : nat -> Dispatch -> bool.

(** The body of [for (const note of dueNotes) { try { ... } catch { } }];
    [log] is the list of the calls made so far. *)
Fixpoint processReminders (now : Date) (dueNotes : list Note.t)
    (log : list Dispatch) : M (list Dispatch) :=
  match dueNotes with
  | [] => ret log
  | note :: rest =>
      fun db =>
        match populateOwner note db with
        | (inr (Some owner), _) =>
            let d := mkDispatch (User.email owner) (Note.title note)
                                (Note.content note) in
            if sendReminderEmail (List.length log) d then
              (* Update status; a rejected save is caught like a failed send *)
              let db' := snd (NoteModel.save now
                                (Note.set_reminderStatus reminder_sent note) db) in
              processReminders now rest (log ++ [d]) db'
            else
              (* Don't throw - continue with other reminders *)
              processReminders now rest (log ++ [d]) db
        | _ =>
            (* note.userId.email on null: caught, nothing was sent *)
            processReminders now rest log db
        end
  end.

(** checkReminders: one sweep; it answers with the calls it made. *)
Definition checkReminders (now : Date) : M (list Dispatch) :=
  fun db => processReminders now (filter (isDue now) (notes db)) [] db.

End ReminderScheduler.

(** ** Listings: getNotes, getSharedWithMe, getPendingShares *)

(** [.sort(...)] as an insertion sort: [before a b] says that [a] has to
    come strictly before [b]; documents that compare equal keep their
    order. *)
Fixpoint insertBy {A} (before : A -> A -> bool) (x : A) (l : list A) : list A :=
  match l with
  | [] => [x]
  | y :: l' => if before x y then x :: y :: l' else y :: insertBy before x l'
  end.

Definition sortBy {A} (before : A -> A -> bool) (l : list A) : list A :=
  fold_right (insertBy before) [] l.

(** [{ isPinned: -1, createdAt: -1 }]: pinned notes first, then the
    newest first. *)
Definition pinnedThenNewest (a b : Note.t) : bool :=
  (Note.isPinned a && negb (Note.isPinned b))
  || (Bool.eqb (Note.isPinned a) (Note.isPinned b)
      && (Note.createdAt b <? Note.createdAt a)%Z).


(** [{ sharedWith: { $elemMatch: { userId, status } } }] *)
Definition hasGrantWithStatus (u : ObjectId) (st : ShareStatus) (n : Note.t)
  : bool :=
  existsb (fun s => (Share.userId s =? u) && ShareStatus_eqb (Share.status s) st)
          (Note.sharedWith n).

(** [note.sharedWith.find(s => s.userId === caller)] *)
Definition grantOf (u : ObjectId) (n : Note.t) : option Share.t :=
  find (fun s => Share.userId s =? u) (Note.sharedWith n).

(** The query string of getNotes; [None] is [undefined]. *)
Record NotesQuery := mkNotesQuery {
  query_archived : option string;
  query_tag : option string;
  query_search : option string
}.

(** The archived part of the query: 'true' asks for the archived notes,
    'false' or nothing for the others, anything else for both. *)
Definition archivedFilter (archived : option string) (n : Note.t) : bool :=
  match archived with
  | None => negb (Note.isArchived n)
  | Some a =>
      if String.eqb a "true" then Note.isArchived n
      else if String.eqb a "false" then negb (Note.isArchived n)
      else true
  end.

(** [if (tag) query.tags = tag]: the tags array holds the tag. *)
Definition tagFilter (tag : option string) (n : Note.t) : bool :=
  match tag with
  | None | Some EmptyString => true
  | Some t => existsb (String.eqb t) (Note.tags n)
  end.

(** One element of the answer of getNotes. *)
Record ListedNote := mkListedNote {
  listed_note : Note.t;
  listed_isOwner : bool;
  listed_permission : Permission;
  listed_owner : string
}.



(** [xs.map(f)] for an [f] that may throw: the first exception ends the
    request. *)
Fixpoint mapM {A B} (f : A -> M B) (xs : list A) : M (list B) :=
  match xs with
  | [] => ret []
  | x :: xs' => y <- f x ;; ys <- mapM f xs' ;; ret (y :: ys)
  end.


Section Listings.

(** [regexSearch pattern]: the match of [{ $regex: pattern, $options: 'i' }]
    on a text, [None] when the server rejects the pattern because it is
    not a regular expression. *)
Variable regexSearch : string -> option (text -> bool).

(** [if (search) ...]: title or content matches; [None] when the query is
    rejected. *)
Definition searchFilter (search : option string) : option (Note.t -> bool) :=
  match search with
  | None | Some EmptyString => Some (fun _ => true)
  | Some s =>
      match regexSearch s with
      | Some matches =>
          Some (fun n => matches (Note.title n) || matches (Note.content n))
      | None => None
      end
  end.

(** The query of getNotes: owned by the caller or shared with the caller
    and accepted, and the three filters. *)
Definition notesQuery (caller : ObjectId) (q : NotesQuery)
    (search : Note.t -> bool) (n : Note.t) : bool :=
  ((Note.userId n =? caller) || hasGrantWithStatus caller accepted n)
  && archivedFilter (query_archived q) n
  && tagFilter (query_tag q) n
  && search n.

(** The annotation of one note of the answer; the populated owner is
    dereferenced, which throws when the owner document is missing. *)
Definition annotate (caller : ObjectId) (note : Note.t) : M ListedNote :=
  owner <- populateOwner note ;;
  match owner with
  | None => serverError "TypeError"
  | Some owner =>
      let isOwner := User._id owner =? caller in
      let permission :=
        if isOwner then edit           (* Owner has full access *)
        else match grantOf caller note with
             | Some share => Share.permission share
             | None => view
             end in
      ret (mkListedNote note isOwner permission
             (if isOwner then "Me" else User.name owner))
  end.

(** getNotes: GET /api/notes, in the revision that lists shared notes. *)
Definition getNotes (caller : ObjectId) (q : NotesQuery) : M (list ListedNote) :=
  match searchFilter (query_search q) with
  | None => serverError "MongoServerError"
  | Some search =>
      db <- get ;;
      mapM (annotate caller)
           (sortBy pinnedThenNewest
                   (filter (notesQuery caller q search) (notes db)))
  end.

End Listings.





(** ** uploadAttachment (controllers/noteController.js, Cloudinary revision) *)

(** [req.file] as multer leaves it. *)
Record UploadedFile := mkUploadedFile {
  file_mimetype : string;
  file_path : string;
  file_originalname : string;
  file_size : nat
}.

(** [note.attachments.push(a)] *)
Definition pushAttachment (a : Attachment.t) (n : Note.t) : Note.t :=
  Note.mk (Note._id n) (Note.title n) (Note.content n) (Note.userId n)
          (Note.isPinned n) (Note.isArchived n) (Note.tags n)
          (Note.attachments n ++ [a]) (Note.reminderAt n)
          (Note.reminderStatus n) (Note.sharedWith n) (Note.shareToken n)
          (Note.shareTokenExpiry n) (Note.createdAt n) (Note.updatedAt n).

(** [isImage ? 'image' : 'raw'] *)
Definition uploadResourceType (file : UploadedFile) : string :=
  if String.prefix "image/" (file_mimetype file) then "image" else "raw".

Section Upload.

(** [uploadToCloudinary path folder resourceType]: the url and public id
    of the stored file, or [None] when the upload throws. *)
Variable uploadToCloudinary : string -> string -> string -> option (string * string).

(** uploadAttachment: POST /api/notes/:id/upload.  The removal of the
    temporary file, which both the success and the failure path make, is
    left out: the file system is not part of the database. *)
Definition uploadAttachment (now : Date) (caller id : ObjectId)
    (file : option UploadedFile) : M Attachment.t :=
  found <- NoteModel.findById id ;;
  match found with
  | None => throw 404 "Note not found"
  | Some note =>
      (* Check ownership *)
      throwIf (negb (Note.userId note =? caller))
              403 "Not authorized to modify this note" ;;;
      (* Check if file was uploaded *)
      match file with
      | None => throw 400 "Please upload a file"
      | Some file =>
          let isImage := String.prefix "image/" (file_mimetype file) in
          match uploadToCloudinary (file_path file) "notes-app"
                                   (uploadResourceType file) with
          | None => serverError "File upload failed"
          | Some (url, publicId) =>
              (* Add attachment to note: the subdocument gets its _id *)
              aid <- newObjectId ;;
              let attachment :=
                Attachment.mk aid url publicId
                              (if isImage then image else document)
                              (file_originalname file) (file_size file) in
              NoteModel.save now (pushAttachment attachment note) ;;;
              ret attachment
          end
      end
  end.

End Upload.

(** deleteAttachment: DELETE /api/notes/:id/attachments/:attachmentId.
    The answer is the deleteFromCloudinary call made for the attachment;
    a failure of that call is caught and logged.  [attachment.deleteOne()]
    pulls the subdocuments with the _id of the attachment. *)
Definition deleteAttachment (now : Date) (caller id attachmentId : ObjectId)
  : M (string * string) :=
  found <- NoteModel.findById id ;;
  match found with
  | None => throw 404 "Note not found"
  | Some note =>
      (* Check ownership *)
      throwIf (negb (Note.userId note =? caller))
              403 "Not authorized to modify this note" ;;;
      (* Find attachment *)
      match find (fun a => Attachment._id a =? attachmentId)
                 (Note.attachments note) with
      | None => throw 404 "Attachment not found"
      | Some attachment =>
          (* Remove from note *)
          NoteModel.save now
            (Note.set_attachments
               (filter (fun a => negb (Attachment._id a =? Attachment._id attachment))
                       (Note.attachments note)) note) ;;;
          ret (Attachment.publicId attachment, resourceType attachment)
      end
  end.

(** ** The scheduler switch (services/reminderScheduler.js) *)

(** The module state: the flag, and the cron jobs scheduled so far, each
    of which runs checkReminders every minute. *)
Record Scheduler := mkScheduler {
  isSchedulerRunning : bool;
  scheduledJobs : nat
}.

Inductive SchedulerCall := Start | Stop.

(** startReminderScheduler *)
Definition startReminderScheduler (s : Scheduler) : Scheduler :=
  if isSchedulerRunning s then s
  else mkScheduler true (S (scheduledJobs s)).

(** stopReminderScheduler: the flag alone is reset. *)
Definition stopReminderScheduler (s : Scheduler) : Scheduler :=
  mkScheduler false (scheduledJobs s).

Definition schedulerCall (s : Scheduler) (c : SchedulerCall) : Scheduler :=
  match c with
  | Start => startReminderScheduler s
  | Stop => stopReminderScheduler s
  end.

(** ** The application as a transition system *)

(** The requests that may write, with what they take from outside: the
    instant, the token that generateShareToken draws, and for an upload
    what the storage service answers ([None] when it throws).  getNotes,
    getSharedWithMe and getPendingShares write nothing and have no
    request here.  The users collection is written by the auth
    controllers (registration, verification, sign-in), which are not
    embedded: [AuthWrite us] stands for any of their requests, after which
    the collection is [us]. *)

Inductive Request :=
| CreateNote (now : Date) (caller : ObjectId) (title content : option text)
             (tags : option (list string))
| GetNoteById (caller id : ObjectId)
| UpdateNote (now : Date) (caller id : ObjectId) (body : UpdateBody.t)
| DeleteNote (caller id : ObjectId)
| CreateVersion (now : Date) (caller id : ObjectId)
| GetVersionHistory (caller id : ObjectId)
| GetVersion (caller id versionId : ObjectId)
| RestoreVersion (now : Date) (caller id versionId : ObjectId)
| ShareNote (now : Date) (caller id : ObjectId) (email permission : option string)
| RespondToShareRequest (now : Date) (caller id : ObjectId) (status : option string)
| RemoveShare (now : Date) (caller id userId : ObjectId)
| GenerateShareLink (now : Date) (caller id : ObjectId) (token : string)
                    (expiresIn : option Z)
| RevokeShareLink (now : Date) (caller id : ObjectId)
| GetSharedNote (now : Date) (token : string)
| UploadAttachment (now : Date) (caller id : ObjectId)
                   (file : option UploadedFile)
                   (stored : option (string * string))
| DeleteAttachment (now : Date) (caller id attachmentId : ObjectId)
| CheckReminders (now : Date)
| AuthWrite (us : list User.t).

Section Application.

Variable regexTest : string -> option (string -> bool).
Variable sendReminderEmail : nat -> Dispatch -> bool.

(** The database after a request has been served. *)
Definition exec (r : Request) (db : DB) : DB :=
  match r with
  | CreateNote now caller title content tags =>
      snd (createNote now caller title content tags db)
  | GetNoteById caller id => snd (getNoteById caller id db)
  | UpdateNote now caller id body => snd (updateNote now caller id body db)
  | DeleteNote caller id => snd (deleteNote caller id db)
  | CreateVersion now caller id => snd (createVersion now caller id db)
  | GetVersionHistory caller id => snd (getVersionHistory caller id db)
  | GetVersion caller id versionId => snd (getVersion caller id versionId db)
  | RestoreVersion now caller id versionId =>
      snd (restoreVersion now caller id versionId db)
  | ShareNote now caller id email permission =>
      snd (shareNote regexTest now caller id email permission db)
  | RespondToShareRequest now caller id status =>
      snd (respondToShareRequest now caller id status db)
  | RemoveShare now caller id userId => snd (removeShare now caller id userId db)
  | GenerateShareLink now caller id token expiresIn =>
      snd (generateShareLink now caller id token expiresIn db)
  | RevokeShareLink now caller id => snd (revokeShareLink now caller id db)
  | GetSharedNote now token => snd (getSharedNote now token db)
  | UploadAttachment now caller id file stored =>
      snd (uploadAttachment (fun _ _ _ => stored) now caller id file db)
  | DeleteAttachment now caller id attachmentId =>
      snd (deleteAttachment now caller id attachmentId db)
  | CheckReminders now => snd (checkReminders sendReminderEmail now db)
  | AuthWrite us => with_users us db
  end.

Definition run (rs : list Request) (db : DB) : DB :=
  fold_left (fun db r => exec r db) rs db.

(** The databases the application can produce by serving requests one
    after another, starting with no note and no version. *)
Inductive reachable : DB -> Prop :=
| reachable_init (us : list User.t) (next : ObjectId) :
    reachable (mkDB [] [] us next)
| reachable_step (r : Request) (db : DB) :
    reachable db -> reachable (exec r db).

End Application.

(** The number of versions kept for a note. *)
Definition versionCount (nid : ObjectId) (db : DB) : nat :=
  List.length (filter (NoteVersionModel.ofNote nid) (versions db)).

(** ** Vocabulary of the specification *)

(** [u] holds a grant on [n] with the given permission and status. *)
Definition holdsGrant (u : ObjectId) (p : Permission) (st : ShareStatus)
    (n : Note.t) : Prop :=
  exists s, In s (Note.sharedWith n) /\ Share.userId s = u
            /\ Share.permission s = p /\ Share.status s = st.

(** A body field that JavaScript treats as false: absent or empty. *)
Definition falsy (v : option text) : Prop := v = None \/ v = Some "".

Definition NotFound (e : HttpError) : Prop := statusCode e = 404.

(** The outcome the specification calls Conflict: 400 with the message
    of the already-shared case. *)
Definition Conflict (e : HttpError) : Prop :=
  statusCode e = 400 /\ message e = "Note already shared with this user".



(** No note has more than 20 versions. *)
Definition capped (db : DB) : Prop :=
  forall nid, versionCount nid db <= 20.

(** The computation keeps the invariant [I], whether it answers or
    throws. *)
Definition preserves {A} (I : DB -> Prop) (m : M A) : Prop :=
  forall db, I db -> I (snd (m db)).

(** What the schema setters and validators guarantee of a stored note:
    it passes the validators, and title and content are trimmed. *)
Definition wfNote (n : Note.t) : Prop :=
  Note.validate n = true
  /\ trim (Note.title n) = Note.title n
  /\ trim (Note.content n) = Note.content n.

(** A stored version carries the title, content and tags of a stored
    note, and its own validators hold. *)
Definition wfVersion (v : NoteVersion.t) : Prop :=
  NoteVersion.validate v = true
  /\ List.length (NoteVersion.title v) <= 200
  /\ List.length (NoteVersion.tags v) <= 10
  /\ trim (NoteVersion.title v) = NoteVersion.title v
  /\ trim (NoteVersion.content v) = NoteVersion.content v.

(** The well-formed databases: notes have distinct ids below the next
    fresh id, and every document is well formed. *)
Definition wf (db : DB) : Prop :=
  NoDup (map Note._id (notes db))
  /\ Forall (fun n => Note._id n < nextId db) (notes db)
  /\ Forall wfNote (notes db)
  /\ Forall wfVersion (versions db).

(** ** Sample data *)

(** A RegExp service for addresses that are matched as plain text. *)
Definition exactMatch (email : string) : option (string -> bool) :=
  Some (String.eqb email).

(** A search in which every pattern is accepted and matches every text. *)
Definition matchAll (pattern : string) : option (text -> bool) :=
  Some (fun _ => true).

Definition alice : User.t := User.mk 1 "Alice" "alice@example.com".
Definition bob : User.t := User.mk 2 "Bob" "bob@example.com".

Definition emptyDB : DB := mkDB [] [] [alice; bob] 0.

(** Alice writes a note, shares it with Bob for editing, Bob accepts. *)
Definition sharedDB : DB :=
  Eval vm_compute in
  run exactMatch (fun _ _ => true)
    [ CreateNote 1000%Z 1 (Some "Plan") (Some "draft") None;
      ShareNote 2000%Z 1 0 (Some "bob@example.com") (Some "edit");
      RespondToShareRequest 3000%Z 2 0 (Some "accepted") ]
    emptyDB.

(** Alice writes a note, takes a snapshot and invites Bob, who has not
    answered yet. *)
Definition invitedDB : DB :=
  Eval vm_compute in
  run exactMatch (fun _ _ => true)
    [ CreateNote 1000%Z 1 (Some "Plan") (Some "draft") None;
      CreateVersion 1500%Z 1 0;
      ShareNote 2000%Z 1 0 (Some "bob@example.com") (Some "view") ]
    emptyDB.

(** A title of two code units, NBSP (U+00A0) and EM SPACE (U+2003). *)
Definition nbspOnly : text := [160%N; 8195%N].

(** A title of 70 euro signs (U+20AC). *)
Definition seventyEuroSigns : text := repeat 8364%N 70.

(** Alice then replaces the content by a single space. *)
Definition blankingBody : UpdateBody.t :=
  UpdateBody.mk None (Some " ") None None None None None.

(** Alice writes a note, takes a snapshot, and blanks the content. *)
Definition blankedDB : DB :=
  Eval vm_compute in
  run exactMatch (fun _ _ => true)
    [ CreateNote 1000%Z 1 (Some "Plan") (Some "draft") None;
      CreateVersion 1500%Z 1 0;
      UpdateNote 2500%Z 1 0 blankingBody ]
    emptyDB.

(** The note of [invitedDB] and the note of [sharedDB]. *)
Definition invitedNote : Note.t :=
  Note.mk 0 "Plan" "draft" 1 false false [] [] None reminder_none
          [Share.mk 2 view 2000%Z pending] None None 1000%Z 2000%Z.

Definition sharedNote : Note.t :=
  Note.mk 0 "Plan" "draft" 1 false false [] [] None reminder_none
          [Share.mk 2 edit 2000%Z accepted] None None 1000%Z 3000%Z.

(** Alice writes a note and issues a link that is good for one hour. *)
Definition linkDB : DB :=
  Eval vm_compute in
  run exactMatch (fun _ _ => true)
    [ CreateNote 1000%Z 1 (Some "Plan") (Some "draft") (Some ["work"]);
      GenerateShareLink 2000%Z 1 0 "c0ffee" (Some 1%Z) ]
    emptyDB.

Definition linkNote : Note.t :=
  Note.mk 0 "Plan" "draft" 1 false false ["work"] [] None reminder_none
          [] (Some "c0ffee") (Some 3602000%Z) 1000%Z 2000%Z.







(** Alice writes a note and takes 20 snapshots of it, at 2001 ... 2020. *)
Definition fullDB : DB :=
  Eval vm_compute in
  run exactMatch (fun _ _ => true)
    (CreateNote 1000%Z 1 (Some "Plan") (Some "draft") None
       :: map (fun k => CreateVersion (Z.of_nat k) 1 0) (seq 2001 20))
    emptyDB.

(** Alice writes a note and takes 19 snapshots of it, at 2001 ... 2019. *)
Definition nineteenDB : DB :=
  Eval vm_compute in
  run exactMatch (fun _ _ => true)
    (CreateNote 1000%Z 1 (Some "Plan") (Some "draft") None
       :: map (fun k => CreateVersion (Z.of_nat k) 1 0) (seq 2001 19))
    emptyDB.

(** The note of [blankedDB] and its only snapshot. *)
Definition blankedNote : Note.t :=
  Note.mk 0 "Plan" "" 1 false false [] [] None reminder_none
          [] None None 1000%Z 2500%Z.

Definition draftVersion : NoteVersion.t :=
  NoteVersion.mk 1 0 "Plan" "draft" [] 1 1 1500%Z.


(** [b] does not have to come before [a]: the order a sorted list keeps
    between an earlier [a] and a later [b]. *)
Definition inOrder {A} (before : A -> A -> bool) (a b : A) : Prop :=
  before b a = false.

(** The owner document of the note exists. *)
Definition ownerExists (db : DB) (n : Note.t) : Prop :=
  find (fun u => User._id u =? Note.userId n) (users db) <> None.

(** Alice and Bob have written five notes: Alice's "Plan" is shared with
    Bob, who accepted; Bob's "Groceries" is pinned and his "Old" is
    archived; Alice's "Secret" is offered to Bob, who has not answered. *)
Definition listingDB : DB :=
  Eval vm_compute in
  run exactMatch (fun _ _ => true)
    [ CreateNote 1000%Z 1 (Some "Plan") (Some "draft") None;
      CreateNote 1100%Z 2 (Some "Groceries") (Some "milk") None;
      CreateNote 1200%Z 2 (Some "Old") (Some "done") None;
      CreateNote 1300%Z 1 (Some "Secret") (Some "hidden") None;
      CreateNote 1400%Z 2 (Some "Ideas") (Some "many") None;
      UpdateNote 1500%Z 2 1
        (UpdateBody.mk None None None (Some true) None None None);
      UpdateNote 1600%Z 2 2
        (UpdateBody.mk None None None None (Some true) None None);
      ShareNote 1700%Z 1 0 (Some "bob@example.com") (Some "edit");
      RespondToShareRequest 1800%Z 2 0 (Some "accepted");
      ShareNote 1900%Z 1 3 (Some "bob@example.com") (Some "view") ]
    emptyDB.

Definition noQuery : NotesQuery := mkNotesQuery None None None.

(** What Bob's dashboard lists. *)
Definition bobListing : list ListedNote :=
  Eval vm_compute in
  match fst (getNotes matchAll 2 noQuery listingDB) with
  | inr listing => listing
  | inl _ => []
  end.

(** Every note of the database has its owner document. *)
Definition allOwnersExist (db : DB) : Prop :=
  forall n, In n (notes db) -> ownerExists db n.


(** [expiresIn] hours from [now], when a number other than 0 is given. *)
Definition linkExpiry (now : Date) (expiresIn : option Z) : option Z :=
  match expiresIn with
  | Some h => if (h =? 0)%Z then None else Some (now + h * 60 * 60 * 1000)%Z
  | None => None
  end.

(** What getSharedNote shows of a note. *)
Definition projection (note : Note.t) (owner : User.t) : SharedNote :=
  mkSharedNote (Note._id note) (Note.title note) (Note.content note)
    (Note.tags note) (Note.attachments note) (Note.createdAt note)
    (Note.updatedAt note) (User.name owner) view.

(** [v] was created after [w]. *)
Definition newerFirst (v w : NoteVersion.t) : bool :=
  (NoteVersion.createdAt w <? NoteVersion.createdAt v)%Z.

(** Alice and Bob each write a note and take a snapshot of it. *)
Definition archiveDB : DB :=
  Eval vm_compute in
  run exactMatch (fun _ _ => true)
    [ CreateNote 1000%Z 1 (Some "Plan") (Some "draft") None;
      CreateVersion 1500%Z 1 0;
      CreateNote 2000%Z 2 (Some "Diary") (Some "private") None;
      CreateVersion 2500%Z 2 2 ]
    emptyDB.

(** A picture as multer hands it over, and a storage service that accepts
    every file. *)
Definition catPicture : UploadedFile :=
  mkUploadedFile "image/png" "uploads/cat.png" "cat.png" 2048.

Definition storageAccepts (path folder resource : string)
  : option (string * string) :=
  Some ("https://cdn.example/" ++ folder ++ "/cat", folder ++ "/cat")%string.

(** The requests that lead to [attachedDB]. *)
Definition attachedRequests : list Request :=
  [ CreateNote 1000%Z 1 (Some "Plan") (Some "draft") None;
    ShareNote 2000%Z 1 0 (Some "bob@example.com") (Some "edit");
    RespondToShareRequest 3000%Z 2 0 (Some "accepted");
    UploadAttachment 4000%Z 1 0 (Some catPicture)
      (Some ("https://cdn.example/notes-app/cat", "notes-app/cat"));
    UploadAttachment 4100%Z 1 0 (Some catPicture)
      (Some ("https://cdn.example/notes-app/cat2", "notes-app/cat2"));
    DeleteAttachment 4200%Z 1 0 1 ].

(** Alice writes a note, shares it with Bob, who accepts, uploads two
    pictures and deletes the first. *)
Definition attachedDB : DB :=
  Eval vm_compute in run exactMatch (fun _ _ => true) attachedRequests emptyDB.

(** The note of [attachedDB]. *)
Definition attachedNote : Note.t :=
  Note.mk 0 "Plan" "draft" 1 false false []
          [Attachment.mk 2 "https://cdn.example/notes-app/cat2"
                         "notes-app/cat2" image "cat.png" 2048]
          None reminder_none
          [Share.mk 2 edit 2000%Z accepted] None None 1000%Z 4200%Z.

(** The grants of a note name distinct users, none of them its owner. *)
Definition grantsOk (n : Note.t) : Prop :=
  NoDup (map Share.userId (Note.sharedWith n))
  /\ ~ In (Note.userId n) (map Share.userId (Note.sharedWith n)).

Definition allGrantsOk (db : DB) : Prop := Forall grantsOk (notes db).

(** The ids of the stored versions were issued by the database. *)
Definition versionIdsIssued (db : DB) : Prop :=
  Forall (fun v => NoteVersion._id v < nextId db) (versions db).





(** * Properties *)

(** ** Basic facts about the model *)

Lemma Permission_eqb_eq p q : Permission_eqb p q = true <-> p = q.
Proof. destruct p, q; simpl; split; congruence. Qed.

Lemma Permission_eqb_neq p q : Permission_eqb p q = false <-> p <> q.
Proof. destruct p, q; simpl; split; congruence. Qed.

Lemma lookup_id id db note :
  NoteModel.lookup id db = Some note -> Note._id note = id.
Proof.
  unfold NoteModel.lookup. intros H.
  apply find_some in H. destruct H as [_ H]. now apply Nat.eqb_eq in H.
Qed.

Lemma lookup_In id db note :
  NoteModel.lookup id db = Some note -> In note (notes db).
Proof.
  unfold NoteModel.lookup. intros H. now apply find_some in H.
Qed.

(** Writing a document back makes it the one found under its _id. *)
Lemma find_replace n ns old :
  find (fun m => Note._id m =? Note._id n) ns = Some old ->
  find (fun m => Note._id m =? Note._id n) (NoteModel.replace n ns) = Some n.
Proof.
  induction ns as [|m ns IH]; simpl; [discriminate|].
  destruct (Note._id m =? Note._id n) eqn:E.
  - intros _. simpl. now rewrite Nat.eqb_refl.
  - intros H. simpl. rewrite E. auto.
Qed.

(** Documents with another _id are found as before. *)
Lemma find_replace_other n ns id :
  id <> Note._id n ->
  find (fun m => Note._id m =? id) (NoteModel.replace n ns)
  = find (fun m => Note._id m =? id) ns.
Proof.
  intros Hne. induction ns as [|m ns IH]; simpl; [reflexivity|].
  destruct (Note._id m =? Note._id n) eqn:E.
  - apply Nat.eqb_eq in E.
    destruct (Note._id n =? id) eqn:E1; [apply Nat.eqb_eq in E1; congruence|].
    destruct (Note._id m =? id) eqn:E2; [apply Nat.eqb_eq in E2; congruence|].
    exact IH.
  - destruct (Note._id m =? id); [reflexivity|exact IH].
Qed.

Lemma find_filter_out id ns :
  find (fun m => Note._id m =? id)
       (filter (fun m => negb (Note._id m =? id)) ns) = None.
Proof.
  induction ns as [|m ns IH]; simpl; [reflexivity|].
  destruct (Note._id m =? id) eqn:E; simpl; [exact IH|].
  now rewrite E.
Qed.

(** What [save] does, by the outcome of the validators and by whether a
    path of the stored document was modified. *)
Lemma save_valid now n db stored :
  Note.validate n = true ->
  NoteModel.lookup (Note._id n) db = Some stored ->
  n <> stored ->
  NoteModel.save now n db
  = (inr (Note.set_updatedAt now n),
     with_notes (NoteModel.replace (Note.set_updatedAt now n) (notes db)) db).
Proof.
  intros H Hl Hne. unfold NoteModel.save. rewrite H, Hl.
  now destruct (Note.eq_dec n stored).
Qed.

Lemma save_unmodified now n db :
  Note.validate n = true ->
  NoteModel.lookup (Note._id n) db = Some n ->
  NoteModel.save now n db = (inr n, db).
Proof.
  intros H Hl. unfold NoteModel.save. rewrite H, Hl.
  now destruct (Note.eq_dec n n).
Qed.

Lemma save_invalid now n db :
  Note.validate n = false ->
  NoteModel.save now n db = (inl (mkError 500 "ValidationError"), db).
Proof. intros H. unfold NoteModel.save. now rewrite H. Qed.

(** [save] either leaves the database as it is or replaces the stored
    document by the stamped one. *)
Lemma save_cases now n db :
  snd (NoteModel.save now n db) = db
  \/ (Note.validate n = true
      /\ snd (NoteModel.save now n db)
         = with_notes (NoteModel.replace (Note.set_updatedAt now n) (notes db))
                      db).
Proof.
  unfold NoteModel.save. destruct (Note.validate n); [|now left].
  destruct (NoteModel.lookup (Note._id n) db) as [stored|]; [|now left].
  destruct (Note.eq_dec n stored); [now left|now right].
Qed.

Lemma save_versions now n db :
  versions (snd (NoteModel.save now n db)) = versions db.
Proof. destruct (save_cases now n db) as [-> | [_ ->]]; reflexivity. Qed.

(** Assignments that give a path a new value. *)
Lemma set_sharedWith_modified l note :
  l <> Note.sharedWith note -> Note.set_sharedWith l note <> note.
Proof.
  intros H E. apply H. apply (f_equal Note.sharedWith) in E. exact E.
Qed.

Lemma set_attachments_modified l note :
  l <> Note.attachments note -> Note.set_attachments l note <> note.
Proof.
  intros H E. apply H. apply (f_equal Note.attachments) in E. exact E.
Qed.

Lemma app_cons_neq {A} (l l' : list A) x : l ++ x :: l' <> l.
Proof.
  intros E. apply (f_equal (@List.length A)) in E.
  rewrite length_app in E. simpl in E. lia.
Qed.

Lemma lookup_after_save now n db old :
  NoteModel.lookup (Note._id n) db = Some old ->
  Note.validate n = true ->
  n <> old ->
  NoteModel.lookup (Note._id n) (snd (NoteModel.save now n db))
  = Some (Note.set_updatedAt now n).
Proof.
  intros Hl Hv Hne. rewrite (save_valid now n db old Hv Hl Hne). simpl.
  unfold NoteModel.lookup in *. simpl.
  now apply (find_replace (Note.set_updatedAt now n)) with (old := old).
Qed.

(** ** String trimming *)

Lemma trimStart_noLeadingSpace s : noLeadingSpace (trimStart s).
Proof.
  induction s as [|c s IH]; simpl; [exact I|].
  destruct (isWhiteSpace c) eqn:E; [exact IH|]. simpl. exact E.
Qed.

Lemma trimStart_fixed s : noLeadingSpace s -> trimStart s = s.
Proof. destruct s as [|c s]; simpl; [reflexivity|]. now intros ->. Qed.

Lemma trimEnd_noLeadingSpace s : noLeadingSpace s -> noLeadingSpace (trimEnd s).
Proof.
  destruct s as [|c s]; simpl; [exact id|]. intros H.
  destruct (trimEnd s); [rewrite H|]; simpl; exact H.
Qed.

Lemma trimEnd_idempotent s : trimEnd (trimEnd s) = trimEnd s.
Proof.
  induction s as [|c s IH]; simpl; [reflexivity|].
  destruct (trimEnd s) as [|d t] eqn:E.
  - destruct (isWhiteSpace c) eqn:W; simpl; [reflexivity|]. now rewrite W.
  - simpl. simpl in IH. rewrite IH. reflexivity.
Qed.

Lemma trim_idempotent s : trim (trim s) = trim s.
Proof.
  unfold trim.
  rewrite (trimStart_fixed (trimEnd (trimStart s))).
  - apply trimEnd_idempotent.
  - apply trimEnd_noLeadingSpace, trimStart_noLeadingSpace.
Qed.

Lemma trim_empty : trim "" = "".
Proof. reflexivity. Qed.

(** White space beyond ASCII goes at both ends and stays inside. *)
Lemma trim_unicode_space :
  trim ([160; 9; 8195; 65279] ++ js "a" ++ [160] ++ js "b"
          ++ [12288; 8232; 10; 5760])%N
  = (js "a" ++ [160] ++ js "b")%N.
Proof. reflexivity. Qed.

(** ** Updating a note *)

(** The earlier controller is the later one on a body without the two
    reminder fields. *)
Lemma applyUpdate_base body note :
  NoteControllerBase.applyUpdate body note
  = applyUpdate
      (UpdateBody.mk (UpdateBody.title body) (UpdateBody.content body)
         (UpdateBody.tags body) (UpdateBody.isPinned body)
         (UpdateBody.isArchived body) None None) note.
Proof. destruct note; reflexivity. Qed.

Lemma applyUpdate_title body note :
  Note.title (applyUpdate body note)
  = trim (orElse (UpdateBody.title body) (Note.title note)).
Proof. reflexivity. Qed.

Lemma applyUpdate_content body note :
  Note.content (applyUpdate body note)
  = trim (orElse (UpdateBody.content body) (Note.content note)).
Proof. reflexivity. Qed.

Lemma applyUpdate_id body note :
  Note._id (applyUpdate body note) = Note._id note.
Proof. reflexivity. Qed.

Lemma orElse_falsy v d : falsy v -> orElse v d = d.
Proof. intros [-> | ->]; reflexivity. Qed.

Lemma orElse_truthy v d :
  ~ falsy v -> exists c, v = Some c /\ c <> "" /\ orElse v d = c.
Proof.
  unfold falsy. destruct v as [[|a c]|]; intros H.
  - exfalso. apply H. now right.
  - exists (a :: c). split; [reflexivity|]. split; [discriminate|reflexivity].
  - exfalso. apply H. now left.
Qed.

Lemma falsy_dec v : falsy v \/ ~ falsy v.
Proof.
  unfold falsy. destruct v as [[|a c]|].
  - left. now right.
  - right. intros [H | H]; discriminate.
  - left. now left.
Qed.

Lemma title_set_updatedAt d n :
  Note.title (Note.set_updatedAt d n) = Note.title n.
Proof. reflexivity. Qed.

Lemma content_set_updatedAt d n :
  Note.content (Note.set_updatedAt d n) = Note.content n.
Proof. reflexivity. Qed.

(** Whoever is not the owner is turned away by either controller, with
    the database as it was. *)
Lemma updateNote_not_owner now caller id body db note :
  NoteModel.lookup id db = Some note ->
  caller <> Note.userId note ->
  updateNote now caller id body db
  = (inl (mkError 403 "Not authorized to update this note"), db)
  /\ NoteControllerBase.updateNote now caller id body db
  = (inl (mkError 403 "Not authorized to update this note"), db).
Proof.
  intros Hl Hne.
  assert (E : (Note.userId note =? caller) = false)
    by (apply Nat.eqb_neq; congruence).
  unfold updateNote, NoteControllerBase.updateNote, bind, NoteModel.findById.
  rewrite Hl. simpl. rewrite E. simpl. split; reflexivity.
Qed.

(** The owner's update: the assignments are made and the note is saved,
    unless the validators reject it. *)
Lemma updateNote_owner now id body db note :
  NoteModel.lookup id db = Some note ->
  updateNote now (Note.userId note) id body db
  = NoteModel.save now (applyUpdate body note) db
  /\ NoteControllerBase.updateNote now (Note.userId note) id body db
  = NoteModel.save now (NoteControllerBase.applyUpdate body note) db.
Proof.
  intros Hl.
  unfold updateNote, NoteControllerBase.updateNote, bind, NoteModel.findById.
  rewrite Hl. simpl. rewrite Nat.eqb_refl. simpl.
  split; match goal with |- context [NoteModel.save ?a ?b ?c] =>
    destruct (NoteModel.save a b c) as [[e|n] d]; reflexivity end.
Qed.




(** Claim C10, as amended: in the update operation of either controller
    a title or content that is absent or empty leaves the stored field as
    it was; a non-empty content is stored trimmed, so the content of a
    note goes from non-empty back to empty only by a request whose content
    is non-empty and consists of white space. *)
Theorem updateNote_falsy_fields :
  forall (upd : Date -> ObjectId -> ObjectId -> UpdateBody.t -> M Note.t)
         now caller id body db note,
    upd = updateNote \/ upd = NoteControllerBase.updateNote ->
    NoteModel.lookup id db = Some note ->
    trim (Note.title note) = Note.title note ->
    trim (Note.content note) = Note.content note ->
    exists note',
      NoteModel.lookup id (snd (upd now caller id body db)) = Some note'
      /\ (falsy (UpdateBody.title body) -> Note.title note' = Note.title note)
      /\ (falsy (UpdateBody.content body) ->
          Note.content note' = Note.content note)
      /\ (Note.content note <> "" -> Note.content note' = "" ->
          exists c, UpdateBody.content body = Some c /\ c <> "" /\ trim c = "").
Proof.
  intros upd now caller id body db note Hupd Hl Ht Hc.
  pose proof (lookup_id _ _ _ Hl) as Hid.
  (* the note found afterwards is the old one or the saved one *)
  assert (Hcases :
    NoteModel.lookup id (snd (upd now caller id body db)) = Some note
    \/ exists b, UpdateBody.title b = UpdateBody.title body
              /\ UpdateBody.content b = UpdateBody.content body
              /\ NoteModel.lookup id (snd (upd now caller id body db))
                 = Some (Note.set_updatedAt now (applyUpdate b note))).
  { destruct (Nat.eq_dec caller (Note.userId note)) as [-> | Hne].
    - destruct (updateNote_owner now id body db note Hl) as [H1 H2].
      destruct Hupd as [-> | ->].
      + rewrite H1.
        destruct (Note.validate (applyUpdate body note)) eqn:V.
        * destruct (Note.eq_dec (applyUpdate body note) note) as [E | E].
          -- left. rewrite E in *. rewrite save_unmodified; auto.
             now rewrite Hid.
          -- right. exists body. repeat split.
             rewrite <- Hid at 1. rewrite <- (applyUpdate_id body note).
             apply lookup_after_save with (old := note); [|exact V|exact E].
             now rewrite applyUpdate_id, Hid.
        * left. now rewrite save_invalid.
      + rewrite H2, applyUpdate_base.
        set (b := UpdateBody.mk _ _ _ _ _ None None).
        destruct (Note.validate (applyUpdate b note)) eqn:V.
        * destruct (Note.eq_dec (applyUpdate b note) note) as [E | E].
          -- left. rewrite E in *. rewrite save_unmodified; auto.
             now rewrite Hid.
          -- right. exists b. repeat split.
             rewrite <- Hid at 1. rewrite <- (applyUpdate_id b note).
             apply lookup_after_save with (old := note); [|exact V|exact E].
             now rewrite applyUpdate_id, Hid.
        * left. now rewrite save_invalid.
    - destruct (updateNote_not_owner now caller id body db note Hl Hne)
        as [H1 H2].
      left. destruct Hupd as [-> | ->]; [rewrite H1 | rewrite H2]; exact Hl. }
  destruct Hcases as [H | (b & Hbt & Hbc & H)].
  - exists note. split; [exact H|]. repeat split; try reflexivity.
    intros Hne He. congruence.
  - exists (Note.set_updatedAt now (applyUpdate b note)).
    split; [exact H|].
    rewrite title_set_updatedAt, content_set_updatedAt.
    rewrite applyUpdate_title, applyUpdate_content, Hbt, Hbc.
    repeat split.
    + intros F. now rewrite (orElse_falsy _ _ F).
    + intros F. now rewrite (orElse_falsy _ _ F).
    + intros Hne He.
      destruct (falsy_dec (UpdateBody.content body)) as [F | F].
      * rewrite (orElse_falsy _ _ F), Hc in He. contradiction.
      * destruct (orElse_truthy _ (Note.content note) F) as (c & E1 & E2 & E3).
        exists c. rewrite E3 in He. auto.
Qed.

(** Claim C10 fails as stated: the note's content is "draft", the owner
    sends a content of one space, and the stored content is empty. *)
Lemma updateNote_blanks_content :
  exists note note',
    NoteModel.lookup 0 invitedDB = Some note
    /\ Note.content note = "draft"
    /\ updateNote 2500%Z 1 0 blankingBody invitedDB
       = (inr note', snd (updateNote 2500%Z 1 0 blankingBody invitedDB))
    /\ NoteModel.lookup 0 (snd (updateNote 2500%Z 1 0 blankingBody invitedDB))
       = Some note'
    /\ Note.content note' = "".
Proof.
  do 2 eexists. split; [vm_compute; reflexivity|].
  split; [reflexivity|]. split; [vm_compute; reflexivity|].
  split; [vm_compute; reflexivity|]. reflexivity.
Qed.

Lemma updateNote_falsy_fields_witness :
  exists note',
    NoteModel.lookup 0
      (snd (updateNote 2500%Z 1 0
              (UpdateBody.mk (Some "") None (Some ["todo"]) None None None None)
              sharedDB)) = Some note'
    /\ Note.title note' = "Plan"
    /\ Note.content note' = "draft".
Proof.
  destruct (updateNote_falsy_fields updateNote 2500%Z 1 0
              (UpdateBody.mk (Some "") None (Some ["todo"]) None None None None)
              sharedDB sharedNote)
    as (note' & H1 & H2 & H3 & _).
  - left; reflexivity.
  - vm_compute; reflexivity.
  - reflexivity.
  - reflexivity.
  - exists note'. split; [exact H1|]. split.
    + apply H2. right; reflexivity.
    + apply H3. left; reflexivity.
Defined.

(** ** Reading a note and its versions *)

(** getNoteById is for the owner alone. *)
Lemma getNoteById_not_owner caller id db note :
  NoteModel.lookup id db = Some note ->
  caller <> Note.userId note ->
  getNoteById caller id db
  = (inl (mkError 403 "Not authorized to access this note"), db).
Proof.
  intros Hl Hne.
  assert (E : (Note.userId note =? caller) = false)
    by (apply Nat.eqb_neq; congruence).
  unfold getNoteById, bind, NoteModel.findById.
  rewrite Hl. simpl. now rewrite E.
Qed.

(** The version endpoints refuse whoever is neither the owner nor named
    in sharedWith. *)
Lemma versions_no_grant_forbidden caller id versionId db note :
  NoteModel.lookup id db = Some note ->
  hasAccess caller note = false ->
  getVersionHistory caller id db = (inl (mkError 403 "Not authorized"), db)
  /\ getVersion caller id versionId db
     = (inl (mkError 403 "Not authorized"), db).
Proof.
  intros Hl Ha.
  unfold getVersionHistory, getVersion, bind, NoteModel.findById.
  rewrite Hl. simpl. rewrite Ha. simpl. split; reflexivity.
Qed.

(** They let in every user named in sharedWith, whatever the status of
    the grant. *)
Lemma hasAccess_any_grant u p st note :
  holdsGrant u p st note -> hasAccess u note = true.
Proof.
  intros (s & Hin & Hu & _). unfold hasAccess.
  apply orb_true_iff. right. apply existsb_exists.
  exists s. split; [exact Hin|]. now apply Nat.eqb_eq.
Qed.

(** Claim C2, on the code: Bob's grant on Alice's note is still pending,
    he is not the owner, and both version endpoints answer him with the
    snapshot data instead of 403; getNoteById refuses him. *)
Theorem versions_readable_by_pending_grantee :
  exists note,
    NoteModel.lookup 0 invitedDB = Some note
    /\ Note.userId note <> 2
    /\ holdsGrant 2 view pending note
    /\ getVersionHistory 2 0 invitedDB
       = (inr [mkSummary 1 "Plan" 1 1500%Z], invitedDB)
    /\ getVersion 2 0 1 invitedDB
       = (inr (NoteVersion.mk 1 0 "Plan" "draft" [] 1 1 1500%Z), invitedDB)
    /\ getNoteById 2 0 invitedDB
       = (inl (mkError 403 "Not authorized to access this note"), invitedDB).
Proof.
  eexists. split; [vm_compute; reflexivity|].
  split; [vm_compute; lia|]. split.
  - eexists. split; [left; reflexivity|]. repeat split.
  - repeat split; vm_compute; reflexivity.
Qed.

(** ** Deleting a note *)

Lemma deleteNote_versions caller id db :
  versions (snd (deleteNote caller id db)) = versions db.
Proof.
  unfold deleteNote, bind, NoteModel.findById.
  destruct (NoteModel.lookup id db) as [note|]; simpl; [|reflexivity].
  destruct (Note.userId note =? caller); reflexivity.
Qed.

(** Claim C3, as amended: when its owner deletes a note the note document
    is removed, after one storage deletion per attachment, and the
    version collection is left untouched: the snapshots that refer to the
    deleted note stay in the store. *)
Theorem deleteNote_by_owner :
  forall caller id db note,
    NoteModel.lookup id db = Some note ->
    Note.userId note = caller ->
    exists calls db',
      deleteNote caller id db = (inr calls, db')
      /\ List.length calls = List.length (Note.attachments note)
      /\ NoteModel.lookup id db' = None
      /\ versions db' = versions db.
Proof.
  intros caller id db note Hl Ho.
  pose proof (lookup_id _ _ _ Hl) as Hid.
  unfold deleteNote, bind, NoteModel.findById.
  rewrite Hl. simpl. rewrite Ho, Nat.eqb_refl. simpl.
  do 2 eexists. split; [reflexivity|].
  split; [apply length_map|]. split; [|reflexivity].
  unfold NoteModel.lookup. simpl. rewrite Hid. apply find_filter_out.
Qed.

(** Claim C3 fails as stated: Alice deletes her note and the snapshot
    taken of it is still in the version collection. *)
Lemma deleteNote_orphans_versions :
  exists db' v,
    deleteNote 1 0 invitedDB = (inr [], db')
    /\ NoteModel.lookup 0 db' = None
    /\ In v (versions db')
    /\ NoteVersion.noteId v = 0.
Proof.
  do 2 eexists. split; [vm_compute; reflexivity|].
  split; [reflexivity|]. split; [left; reflexivity|]. reflexivity.
Qed.

Lemma deleteNote_by_owner_witness :
  exists calls db',
    deleteNote 1 0 invitedDB = (inr calls, db')
    /\ List.length calls = 0
    /\ NoteModel.lookup 0 db' = None
    /\ versions db' = versions invitedDB.
Proof.
  apply (deleteNote_by_owner 1 0 invitedDB invitedNote).
  - vm_compute; reflexivity.
  - reflexivity.
Defined.

(** ** Resolving a public link *)

Lemma holdsToken_spec token n :
  NoteModel.holdsToken token n = true <-> Note.shareToken n = Some token.
Proof.
  unfold NoteModel.holdsToken. destruct (Note.shareToken n) as [t|].
  - rewrite String.eqb_eq. split; congruence.
  - split; discriminate.
Qed.

Lemma findOneByShareToken_none token db :
  (forall n, In n (notes db) -> Note.shareToken n <> Some token) ->
  find (NoteModel.holdsToken token) (notes db) = None.
Proof.
  intros H. destruct (find _ _) as [n|] eqn:E; [|reflexivity].
  apply find_some in E. destruct E as [Hin Hh].
  apply holdsToken_spec in Hh. now apply H in Hin.
Qed.




(** ** Granting access *)

Lemma updateFirst_split {A} (p : A -> bool) (f : A -> A) l s :
  find p l = Some s ->
  exists before after,
    l = before ++ s :: after
    /\ Forall (fun x => p x = false) before
    /\ updateFirst p f l = before ++ f s :: after.
Proof.
  induction l as [|x l IH]; simpl; [discriminate|].
  destruct (p x) eqn:E.
  - intros [= ->]. exists [], l. repeat split. constructor.
  - intros H. destruct (IH H) as (before & after & -> & Hb & Hu).
    exists (x :: before), after. repeat split.
    + constructor; assumption.
    + simpl. now rewrite Hu.
Qed.

Lemma validate_set_sharedWith l n :
  Note.validate (Note.set_sharedWith l n) = Note.validate n.
Proof. reflexivity. Qed.

Section Granting.

Variable regexTest : string -> option (string -> bool).

(** The checks of shareNote that precede the look at sharedWith. *)
Lemma shareNote_resolved now caller id email permission db e p note grantee
    matches :
  email = Some e -> e <> "" ->
  parsePermission permission = Some p ->
  NoteModel.lookup id db = Some note ->
  Note.userId note = caller ->
  regexTest e = Some matches ->
  find (fun u => matches (User.email u)) (users db) = Some grantee ->
  User._id grantee <> caller ->
  shareNote regexTest now caller id email permission db
  = match find (fun s => Share.userId s =? User._id grantee)
               (Note.sharedWith note) with
    | Some alreadyShared =>
        if negb (Permission_eqb (Share.permission alreadyShared) p)
        then
          (saved <- NoteModel.save now
             (Note.set_sharedWith
                (updateFirst (fun s => Share.userId s =? User._id grantee)
                             (Share.set_permission p) (Note.sharedWith note))
                note) ;;
           ret ("Permission updated", Note.sharedWith saved)) db
        else (inl (mkError 400 "Note already shared with this user"), db)
    | None =>
        (saved <- NoteModel.save now
           (Note.set_sharedWith
              (Note.sharedWith note
                 ++ [Share.mk (User._id grantee) p now pending]) note) ;;
         ret ("Note shared successfully", Note.sharedWith saved)) db
    end.
Proof.
  intros -> He Hp Hl Ho Hre Hg Hne.
  assert (E1 : String.eqb (orElse (Some e) "") "" = false).
  { destruct e; [congruence|reflexivity]. }
  assert (E2 : orElse (Some e) "" = e) by (destruct e; [congruence|reflexivity]).
  assert (E3 : (User._id grantee =? caller) = false) by now apply Nat.eqb_neq.
  unfold shareNote. unfold bind at 1. rewrite E1, E2. cbn [throwIf ret].
  rewrite Hp. unfold bind at 1. unfold NoteModel.findById at 1. rewrite Hl.
  unfold bind at 1. rewrite Ho, Nat.eqb_refl. cbn [negb throwIf ret].
  unfold bind at 1. unfold findUserByEmail at 1. rewrite Hre, Hg.
  unfold bind at 1. rewrite E3. cbn [throwIf ret].
  destruct (find _ (Note.sharedWith note)) as [s|]; [|reflexivity].
  destruct (negb _); reflexivity.
Qed.

(** Claim C6: shareNote called by the owner for a resolved grantee other
    than the caller.  If the grantee already holds a grant whose
    permission differs, that grant gets the new permission where it
    stands in sharedWith, with its status and date as before; if the
    permission is the same the call fails with 400 "already shared"
    (Conflict) and nothing is written; if the grantee holds no grant, a
    grant with status pending is appended. *)
Theorem shareNote_grant_cases :
  forall now caller id email permission db e p note grantee matches,
    email = Some e -> e <> "" ->
    parsePermission permission = Some p ->
    NoteModel.lookup id db = Some note ->
    Note.userId note = caller ->
    regexTest e = Some matches ->
    find (fun u => matches (User.email u)) (users db) = Some grantee ->
    User._id grantee <> caller ->
    Note.validate note = true ->
    (forall s,
       find (fun s => Share.userId s =? User._id grantee) (Note.sharedWith note)
       = Some s ->
       Share.permission s <> p ->
       exists before after db',
         Note.sharedWith note = before ++ s :: after
         /\ Forall (fun x => Share.userId x <> User._id grantee) before
         /\ shareNote regexTest now caller id email permission db
            = (inr ("Permission updated",
                    before ++ Share.mk (Share.userId s) p (Share.sharedAt s)
                                       (Share.status s) :: after), db')
         /\ NoteModel.lookup id db'
            = Some (Note.set_updatedAt now
                      (Note.set_sharedWith
                         (before ++ Share.mk (Share.userId s) p (Share.sharedAt s)
                                             (Share.status s) :: after) note)))
    /\
    (forall s,
       find (fun s => Share.userId s =? User._id grantee) (Note.sharedWith note)
       = Some s ->
       Share.permission s = p ->
       exists err,
         shareNote regexTest now caller id email permission db = (inl err, db)
         /\ Conflict err)
    /\
    (find (fun s => Share.userId s =? User._id grantee) (Note.sharedWith note)
     = None ->
     exists db',
       shareNote regexTest now caller id email permission db
       = (inr ("Note shared successfully",
               Note.sharedWith note
                 ++ [Share.mk (User._id grantee) p now pending]), db')
       /\ NoteModel.lookup id db'
          = Some (Note.set_updatedAt now
                    (Note.set_sharedWith
                       (Note.sharedWith note
                          ++ [Share.mk (User._id grantee) p now pending]) note))).
Proof.
  intros now caller id email permission db e p note grantee matches
         He Hne Hp Hl Ho Hre Hg Hself Hv.
  pose proof (shareNote_resolved now caller id email permission db e p note
                grantee matches He Hne Hp Hl Ho Hre Hg Hself) as Hs.
  pose proof (lookup_id _ _ _ Hl) as Hid.
  assert (Hl' : forall l, NoteModel.lookup (Note._id (Note.set_sharedWith l note))
                            db = Some note).
  { intros l. simpl. now rewrite Hid. }
  split; [|split].
  - intros s Hf Hdiff. rewrite Hf in Hs.
    pose proof Hdiff as Hdiff'.
    apply Permission_eqb_neq in Hdiff. rewrite Hdiff in Hs. simpl in Hs.
    destruct (updateFirst_split _ (Share.set_permission p) _ _ Hf)
      as (before & after & Hsplit & Hb & Hu).
    rewrite Hu in Hs. unfold Share.set_permission in Hs.
    set (shares := before ++ _ :: after) in *.
    assert (Hmod : Note.set_sharedWith shares note <> note).
    { apply set_sharedWith_modified. rewrite Hsplit. unfold shares.
      intros E. apply app_inv_head in E. injection E as E.
      apply Hdiff'. apply (f_equal Share.permission) in E. simpl in E.
      congruence. }
    exists before, after.
    exists (snd (NoteModel.save now (Note.set_sharedWith shares note) db)).
    split; [exact Hsplit|]. split.
    + eapply Forall_impl; [|exact Hb]. intros x Hx. now apply Nat.eqb_neq.
    + split.
      * rewrite Hs. unfold bind.
        rewrite (save_valid now (Note.set_sharedWith shares note) db note Hv
                   (Hl' _) Hmod). reflexivity.
      * rewrite <- Hid.
        apply (lookup_after_save now (Note.set_sharedWith shares note) db note).
        -- apply Hl'.
        -- exact Hv.
        -- exact Hmod.
  - intros s Hf Hsame. rewrite Hf in Hs.
    apply Permission_eqb_eq in Hsame. rewrite Hsame in Hs. simpl in Hs.
    eexists. split; [exact Hs|]. split; reflexivity.
  - intros Hf. rewrite Hf in Hs.
    set (shares := Note.sharedWith note ++ _) in *.
    assert (Hmod : Note.set_sharedWith shares note <> note).
    { apply set_sharedWith_modified. apply app_cons_neq. }
    exists (snd (NoteModel.save now (Note.set_sharedWith shares note) db)).
    split.
    + rewrite Hs. unfold bind.
      rewrite (save_valid now (Note.set_sharedWith shares note) db note Hv
                   (Hl' _) Hmod). reflexivity.
    + rewrite <- Hid.
      apply (lookup_after_save now (Note.set_sharedWith shares note) db note).
      * apply Hl'.
      * exact Hv.
      * exact Hmod.
Qed.

End Granting.

Lemma shareNote_grant_cases_witness :
  (exists db',
     shareNote exactMatch 5000%Z 1 0 (Some "bob@example.com") (Some "view")
               sharedDB
     = (inr ("Permission updated", [Share.mk 2 view 2000%Z accepted]), db'))
  /\ (exists err,
        shareNote exactMatch 5000%Z 1 0 (Some "bob@example.com") (Some "edit")
                  sharedDB = (inl err, sharedDB)
        /\ Conflict err)
  /\ (exists db',
        shareNote exactMatch 5000%Z 1 0 (Some "bob@example.com") (Some "edit")
                  linkDB
        = (inr ("Note shared successfully", [Share.mk 2 edit 5000%Z pending]),
           db')).
Proof.
  split; [|split].
  - destruct (proj1 (shareNote_grant_cases exactMatch 5000%Z 1 0
                (Some "bob@example.com") (Some "view") sharedDB
                "bob@example.com" view sharedNote bob
                (String.eqb "bob@example.com")
                eq_refl ltac:(discriminate) eq_refl eq_refl eq_refl eq_refl
                eq_refl ltac:(simpl; lia) eq_refl)
              (Share.mk 2 edit 2000%Z accepted) eq_refl ltac:(discriminate))
      as (before & after & db' & Hsplit & _ & Hr & _).
    destruct before as [|x before]; [|destruct before; discriminate].
    injection Hsplit as <-. exists db'. exact Hr.
  - apply (proj1 (proj2 (shareNote_grant_cases exactMatch 5000%Z 1 0
                (Some "bob@example.com") (Some "edit") sharedDB
                "bob@example.com" edit sharedNote bob
                (String.eqb "bob@example.com")
                eq_refl ltac:(discriminate) eq_refl eq_refl eq_refl eq_refl
                eq_refl ltac:(simpl; lia) eq_refl))
              (Share.mk 2 edit 2000%Z accepted) eq_refl eq_refl).
  - destruct (proj2 (proj2 (shareNote_grant_cases exactMatch 5000%Z 1 0
                (Some "bob@example.com") (Some "edit") linkDB
                "bob@example.com" edit linkNote bob
                (String.eqb "bob@example.com")
                eq_refl ltac:(discriminate) eq_refl eq_refl eq_refl eq_refl
                eq_refl ltac:(simpl; lia) eq_refl)) eq_refl)
      as (db' & Hr & _).
    exists db'. exact Hr.
Defined.

(** ** The reminder sweep *)

Lemma NoDup_map_inj {A B} (f : A -> B) l a b :
  NoDup (map f l) -> In a l -> In b l -> f a = f b -> a = b.
Proof.
  induction l as [|x l IH]; simpl; [contradiction|].
  intros Hnd Ha Hb Hf. inversion Hnd as [|? ? Hx Hl]; subst.
  destruct Ha as [<- | Ha], Hb as [<- | Hb].
  - reflexivity.
  - exfalso. apply Hx. rewrite Hf. now apply in_map.
  - exfalso. apply Hx. rewrite <- Hf. now apply in_map.
  - now apply IH.
Qed.

Lemma NoDup_map_filter {A B} (f : A -> B) (p : A -> bool) l :
  NoDup (map f l) -> NoDup (map f (filter p l)).
Proof.
  induction l as [|x l IH]; simpl; [auto|].
  intros Hnd. inversion Hnd as [|? ? Hx Hl]; subst.
  destruct (p x); simpl; [|auto].
  constructor; [|auto].
  intros Hin. apply Hx. apply in_map_iff in Hin.
  destruct Hin as (y & Hy & Hin). apply filter_In in Hin.
  apply in_map_iff. exists y. tauto.
Qed.

Lemma lookup_NoDup db note :
  NoDup (map Note._id (notes db)) ->
  In note (notes db) ->
  NoteModel.lookup (Note._id note) db = Some note.
Proof.
  intros Hnd Hin. unfold NoteModel.lookup.
  destruct (find _ _) as [m|] eqn:E.
  - apply find_some in E. destruct E as [Hm He]. apply Nat.eqb_eq in He.
    f_equal. now apply (NoDup_map_inj Note._id (notes db)).
  - apply (find_none _ _ E) in Hin. now rewrite Nat.eqb_refl in Hin.
Qed.

Lemma lookup_save_other now n db id :
  id <> Note._id n ->
  NoteModel.lookup id (snd (NoteModel.save now n db)) = NoteModel.lookup id db.
Proof.
  intros Hne. destruct (save_cases now n db) as [-> | [_ ->]]; [reflexivity|].
  unfold NoteModel.lookup. simpl. now apply find_replace_other.
Qed.




Section Sweep.

Variable sendReminderEmail : nat -> Dispatch -> bool.



End Sweep.


(** ** The version archive *)

Import NoteVersionModel.

Lemma count_app nid (l1 l2 : list NoteVersion.t) :
  List.length (filter (ofNote nid) (l1 ++ l2))
  = List.length (filter (ofNote nid) l1) + List.length (filter (ofNote nid) l2).
Proof. now rewrite filter_app, length_app. Qed.

Lemma oldestCreatedAt_none nid vs :
  oldestCreatedAt nid vs = None ->
  forall w, In w vs -> ofNote nid w = false.
Proof.
  induction vs as [|v vs IH]; simpl; [contradiction|].
  destruct (ofNote nid v) eqn:E.
  - destruct (oldestCreatedAt nid vs); discriminate.
  - intros H w [<- | Hin]; auto.
Qed.

(** [oldestCreatedAt] is the creation time of a version of the note, and
    no version of the note is older. *)
Lemma oldestCreatedAt_some nid vs d :
  oldestCreatedAt nid vs = Some d ->
  (exists v, In v vs /\ ofNote nid v = true /\ NoteVersion.createdAt v = d)
  /\ (forall w, In w vs -> ofNote nid w = true ->
        (d <= NoteVersion.createdAt w)%Z).
Proof.
  revert d. induction vs as [|v vs IH]; simpl; [discriminate|].
  intros d. destruct (ofNote nid v) eqn:E.
  - destruct (oldestCreatedAt nid vs) as [d'|] eqn:Eo.
    + intros [= <-]. destruct (IH d' eq_refl) as [(u & Hu & Hn & Hc) Hmin].
      split.
      * destruct (Z.min_spec (NoteVersion.createdAt v) d')
          as [[_ ->] | [_ ->]].
        -- exists v. auto.
        -- exists u. auto.
      * intros w [<- | Hin] Hw; [apply Z.le_min_l|].
        specialize (Hmin w Hin Hw). lia.
    + intros [= <-]. split; [exists v; auto|].
      intros w [<- | Hin] Hw; [lia|].
      rewrite (oldestCreatedAt_none _ _ Eo w Hin) in Hw. discriminate.
  - intros H. destruct (IH d H) as [(u & Hu & Hn & Hc) Hmin].
    split; [exists u; auto|].
    intros w [<- | Hin] Hw; [congruence|auto].
Qed.

Lemma removeFirst_split (p : NoteVersion.t -> bool) vs :
  (exists v, In v vs /\ p v = true) ->
  exists before old after,
    vs = before ++ old :: after
    /\ p old = true
    /\ removeFirst p vs = before ++ after.
Proof.
  induction vs as [|x vs IH]; intros (v & Hin & Hp); [contradiction|].
  simpl. destruct (p x) eqn:E.
  - exists [], x, vs. auto.
  - destruct Hin as [-> | Hin]; [congruence|].
    destruct IH as (before & old & after & -> & Hold & Hr); [eauto|].
    exists (x :: before), old, after. simpl. rewrite Hr. auto.
Qed.

(** The hook's deletion, when the note has a version at all. *)
Lemma findOneAndDeleteOldest_spec nid db :
  0 < versionCount nid db ->
  exists before old after,
    versions db = before ++ old :: after
    /\ NoteVersion.noteId old = nid
    /\ (forall w, In w (versions db) -> NoteVersion.noteId w = nid ->
          (NoteVersion.createdAt old <= NoteVersion.createdAt w)%Z)
    /\ findOneAndDeleteOldest nid db
       = (inr tt, with_versions (before ++ after) db).
Proof.
  intros Hpos. unfold findOneAndDeleteOldest.
  destruct (oldestCreatedAt nid (versions db)) as [d|] eqn:Eo.
  - destruct (oldestCreatedAt_some _ _ _ Eo) as [(v & Hv & Hn & Hc) Hmin].
    destruct (removeFirst_split
                (fun v => ofNote nid v && (NoteVersion.createdAt v =? d)%Z)
                (versions db))
      as (before & old & after & Hsplit & Hold & Hr).
    { exists v. split; [exact Hv|]. rewrite Hn. simpl. now apply Z.eqb_eq. }
    apply andb_true_iff in Hold. destruct Hold as [Ho1 Ho2].
    apply Z.eqb_eq in Ho2. apply Nat.eqb_eq in Ho1.
    exists before, old, after. split; [exact Hsplit|]. split; [exact Ho1|].
    split; [|now rewrite Hr].
    intros w Hw Hwn. rewrite Ho2. apply Hmin; [exact Hw|].
    now apply Nat.eqb_eq.
  - exfalso. unfold versionCount in Hpos.
    destruct (filter (ofNote nid) (versions db)) as [|w ws] eqn:Ef;
      [simpl in Hpos; lia|].
    assert (Hin : In w (filter (ofNote nid) (versions db)))
      by (rewrite Ef; now left).
    apply filter_In in Hin. destruct Hin as [Hin Hw].
    rewrite (oldestCreatedAt_none _ _ Eo w Hin) in Hw. discriminate.
Qed.

(** NoteVersion.create rejects exactly the documents that fail the
    validators, and then writes nothing. *)
Lemma create_invalid now nid title content tags num by_ db :
  NoteVersion.validate
    (NoteVersion.mk (nextId db) nid title content tags num by_ now) = false ->
  create now nid title content tags num by_ db
  = (inl (mkError 500 "ValidationError"), db).
Proof. intros H. unfold create. simpl. now rewrite H. Qed.

(** A valid document is inserted at the end of the collection, after the
    oldest version of its note has been removed when the note already
    has 20 or more. *)
Lemma create_valid now nid title content tags num by_ db :
  let v := NoteVersion.mk (nextId db) nid title content tags num by_ now in
  NoteVersion.validate v = true ->
  exists vs',
    create now nid title content tags num by_ db
    = (inr v, mkDB (notes db) (vs' ++ [v]) (users db) (S (nextId db)))
    /\ ((versionCount nid db < 20 /\ vs' = versions db)
        \/ (20 <= versionCount nid db
            /\ exists before old after,
                 versions db = before ++ old :: after
                 /\ NoteVersion.noteId old = nid
                 /\ (forall w, In w (versions db) -> NoteVersion.noteId w = nid ->
                       (NoteVersion.createdAt old <= NoteVersion.createdAt w)%Z)
                 /\ vs' = before ++ after)).
Proof.
  intros v Hv. unfold create. cbn [fresh]. fold v. rewrite Hv.
  unfold preSave, bind, countDocuments.
  set (db1 := mkDB (notes db) (versions db) (users db) (S (nextId db))).
  cbn [NoteVersion.noteId v].
  change (List.length (filter (ofNote nid) (versions db1)))
    with (versionCount nid db).
  destruct (20 <=? versionCount nid db) eqn:E.
  - apply Nat.leb_le in E.
    destruct (findOneAndDeleteOldest_spec nid db1)
      as (before & old & after & Hsplit & Hn & Hmin & Hdel).
    { change (versionCount nid db1) with (versionCount nid db). lia. }
    rewrite Hdel. simpl. exists (before ++ after).
    split; [reflexivity|]. right. split; [exact E|].
    exists before, old, after. auto.
  - apply Nat.leb_gt in E. simpl. exists (versions db).
    split; [reflexivity|]. left. auto.
Qed.

Lemma count_cons nid v (l : list NoteVersion.t) :
  List.length (filter (ofNote nid) (v :: l))
  = (if NoteVersion.noteId v =? nid then 1 else 0)
    + List.length (filter (ofNote nid) l).
Proof. simpl. unfold ofNote at 1. now destruct (NoteVersion.noteId v =? nid). Qed.

Lemma versionCount_app nid db (l1 l2 : list NoteVersion.t) :
  versions db = l1 ++ l2 ->
  versionCount nid db
  = List.length (filter (ofNote nid) l1) + List.length (filter (ofNote nid) l2).
Proof. intros H. unfold versionCount. rewrite H. apply count_app. Qed.

(** The number of versions of each note after a create. *)
Lemma create_count now nid title content tags num by_ db v db' :
  create now nid title content tags num by_ db = (inr v, db') ->
  NoteVersion.noteId v = nid
  /\ versionCount nid db' = (if 20 <=? versionCount nid db
                             then versionCount nid db
                             else S (versionCount nid db))
  /\ (forall other, other <> nid ->
        versionCount other db' = versionCount other db).
Proof.
  intros Hc.
  destruct (NoteVersion.validate
              (NoteVersion.mk (nextId db) nid title content tags num by_ now))
    eqn:Hv.
  2: { rewrite (create_invalid _ _ _ _ _ _ _ _ Hv) in Hc. discriminate. }
  destruct (create_valid now nid title content tags num by_ db Hv)
    as (vs' & Hrun & Hcases).
  rewrite Hrun in Hc. injection Hc as <- <-.
  split; [reflexivity|].
  assert (Hnew : forall n,
            versionCount n (mkDB (notes db)
              (vs' ++ [NoteVersion.mk (nextId db) nid title content tags num by_ now])
              (users db) (S (nextId db)))
            = List.length (filter (ofNote n) vs') + (if nid =? n then 1 else 0)).
  { intros n. unfold versionCount. cbn [versions].
    rewrite count_app, count_cons. simpl. lia. }
  destruct Hcases as [[Hlt ->] | (Hge & before & old & after & Hsplit & Hold & _ & ->)].
  - split.
    + rewrite Hnew, Nat.eqb_refl.
      apply Nat.leb_gt in Hlt. rewrite Hlt. unfold versionCount. lia.
    + intros other Hne. rewrite Hnew.
      apply Nat.eqb_neq in Hne. rewrite Nat.eqb_sym, Hne.
      unfold versionCount. lia.
  - assert (Hold' : forall n,
              versionCount n db
              = List.length (filter (ofNote n) (before ++ after))
                + (if nid =? n then 1 else 0)).
    { intros n. rewrite (versionCount_app n db before (old :: after) Hsplit).
      rewrite count_app, count_cons, Hold. lia. }
    split.
    + rewrite Hnew, Nat.eqb_refl.
      apply Nat.leb_le in Hge. rewrite Hge.
      rewrite (Hold' nid), Nat.eqb_refl. reflexivity.
    + intros other Hne. now rewrite Hnew, Hold'.
Qed.

Lemma create_versions_on_error now nid title content tags num by_ db e db' :
  create now nid title content tags num by_ db = (inl e, db') -> db' = db.
Proof.
  intros Hc.
  destruct (NoteVersion.validate
              (NoteVersion.mk (nextId db) nid title content tags num by_ now))
    eqn:Hv.
  - destruct (create_valid now nid title content tags num by_ db Hv)
      as (vs' & Hrun & _).
    rewrite Hrun in Hc. discriminate.
  - rewrite (create_invalid _ _ _ _ _ _ _ _ Hv) in Hc. now injection Hc.
Qed.

(** ** Invariants of the handlers *)

Section Preservation.

Context {A B : Type} (I : DB -> Prop).

Lemma preserves_ret (a : A) : preserves I (ret a).
Proof. intros db H. exact H. Qed.

Lemma preserves_throw code msg : preserves I (@throw A code msg).
Proof. intros db H. exact H. Qed.

Lemma preserves_read (f : DB -> A) : preserves I (fun db => (inr (f db), db)).
Proof. intros db H. exact H. Qed.

Lemma preserves_bind (m : M A) (k : A -> M B) :
  preserves I m -> (forall a, preserves I (k a)) -> preserves I (bind m k).
Proof.
  intros Hm Hk db H. unfold bind. specialize (Hm db H).
  destruct (m db) as [[e|a] db']; simpl in *; [exact Hm|].
  now apply Hk.
Qed.

End Preservation.

Lemma preserves_throwIf I c code msg : preserves I (throwIf c code msg).
Proof. intros db H. unfold throwIf. now destruct c. Qed.

(** An invariant that only reads the version collection is kept by every
    computation that leaves this collection as it is. *)
Lemma capped_of_versions db db' :
  versions db' = versions db -> capped db -> capped db'.
Proof. intros E H nid. unfold versionCount. rewrite E. apply H. Qed.

Lemma save_capped now n : preserves capped (NoteModel.save now n).
Proof. intros db. apply capped_of_versions, save_versions. Qed.

Lemma deleteOne_capped n : preserves capped (NoteModel.deleteOne n).
Proof. intros db. now apply capped_of_versions. Qed.

Lemma NoteModel_create_capped now owner title content tags :
  preserves capped (NoteModel.create now owner title content tags).
Proof.
  intros db. apply capped_of_versions. unfold NoteModel.create. simpl.
  now destruct (Note.validate _).
Qed.

(** The pre-save hook is what keeps the bound. *)
Lemma create_capped now nid title content tags num by_ :
  preserves capped (create now nid title content tags num by_).
Proof.
  intros db H.
  destruct (create now nid title content tags num by_ db) as [[e|v] db'] eqn:Hc.
  - now rewrite (create_versions_on_error _ _ _ _ _ _ _ _ _ _ Hc).
  - destruct (create_count _ _ _ _ _ _ _ _ _ _ Hc) as (_ & Hn & Ho).
    intros n. simpl. destruct (Nat.eq_dec n nid) as [-> | Hne].
    + rewrite Hn. specialize (H nid).
      destruct (20 <=? versionCount nid db) eqn:E; [exact H|].
      apply Nat.leb_gt in E. lia.
    + rewrite (Ho n Hne). apply H.
Qed.

Lemma newObjectId_capped : preserves capped newObjectId.
Proof. intros db. now apply capped_of_versions. Qed.

(** Steps of a handler, taken one at a time. *)
Ltac preserve_step :=
  first
    [ apply preserves_ret
    | apply newObjectId_capped
    | apply preserves_throw
    | apply preserves_throwIf
    | apply save_capped
    | apply deleteOne_capped
    | apply NoteModel_create_capped
    | apply create_capped
    | apply preserves_read
    | apply preserves_bind; [|intros ?]
    | match goal with
      | |- preserves _ (match ?x with _ => _ end) => destruct x
      end ].

Ltac preserve := repeat preserve_step.

Lemma processReminders_capped send now dueNotes :
  forall log, preserves capped (processReminders send now dueNotes log).
Proof.
  induction dueNotes as [|note rest IH]; intros log db H; simpl; [exact H|].
  unfold populateOwner.
  destruct (find _ (users db)) as [owner|]; [|now apply IH].
  destruct (send _ _); apply IH; [|exact H].
  now apply save_capped.
Qed.

(** Every request keeps the bound of 20 versions per note. *)
Lemma exec_capped regexTest send r : 
  forall db, capped db -> capped (exec regexTest send r db).
Proof.
  destruct r; simpl.
  - change (preserves capped (createNote now caller title content tags)).
    unfold createNote. preserve.
  - change (preserves capped (getNoteById caller id)).
    unfold getNoteById, NoteModel.findById. preserve.
  - change (preserves capped (updateNote now caller id body)).
    unfold updateNote, NoteModel.findById. preserve.
  - change (preserves capped (deleteNote caller id)).
    unfold deleteNote, NoteModel.findById. preserve.
  - change (preserves capped (createVersion now caller id)).
    unfold createVersion, NoteModel.findById, countDocuments. preserve.
  - change (preserves capped (getVersionHistory caller id)).
    unfold getVersionHistory, NoteModel.findById, findByNote. preserve.
  - change (preserves capped (getVersion caller id versionId)).
    unfold getVersion, NoteModel.findById, findOne. preserve.
  - change (preserves capped (restoreVersion now caller id versionId)).
    unfold restoreVersion, NoteModel.findById, findOne, countDocuments.
    preserve.
  - change (preserves capped (shareNote regexTest now caller id email permission)).
    unfold shareNote, NoteModel.findById, findUserByEmail. preserve.
  - change (preserves capped (respondToShareRequest now caller id status)).
    unfold respondToShareRequest, NoteModel.findById. preserve.
  - change (preserves capped (removeShare now caller id userId)).
    unfold removeShare, NoteModel.findById. preserve.
  - change (preserves capped (generateShareLink now caller id token expiresIn)).
    unfold generateShareLink, NoteModel.findById, get. preserve.
  - change (preserves capped (revokeShareLink now caller id)).
    unfold revokeShareLink, NoteModel.findById. preserve.
  - change (preserves capped (getSharedNote now token)).
    unfold getSharedNote, NoteModel.findOneByShareToken, populateOwner. preserve.
  - change (preserves capped
              (uploadAttachment (fun _ _ _ => stored) now caller id file)).
    unfold uploadAttachment, NoteModel.findById. preserve.
  - change (preserves capped (deleteAttachment now caller id attachmentId)).
    unfold deleteAttachment, NoteModel.findById. preserve.
  - intros db. apply processReminders_capped.
  - intros db H. exact H.
Qed.

Lemma reachable_capped regexTest send db :
  reachable regexTest send db -> capped db.
Proof.
  induction 1 as [us next | r db _ IH].
  - intros nid. unfold versionCount. simpl. lia.
  - now apply exec_capped.
Qed.

(** A snapshot with a non-empty title and content is always created. *)
Lemma create_succeeds now db nid (title content : text) tags num by_ :
  title <> "" -> content <> "" ->
  exists v db', create now nid title content tags num by_ db = (inr v, db').
Proof.
  intros Ht Hc.
  destruct (create_valid now nid title content tags num by_ db)
    as (vs' & Hrun & _).
  - unfold NoteVersion.validate. simpl.
    destruct title; [now contradiction Ht|].
    destruct content; [now contradiction Hc|].
    reflexivity.
  - eauto.
Qed.

(** Requests served one after another keep the limit: in every database
    that is reached this way no note has
    more than 20 versions; and when a note has 20, a successful
    NoteVersion.create for it removes one version of that note, one that
    no other version of the note precedes in creation time, and appends
    the new one, so that 19 of the 20 stay, with the new one, and the
    note has 20 again.  A document that passes the validators is always
    created. *)
Theorem version_cap :
  forall regexTest send,
    (forall db, reachable regexTest send db ->
       forall nid, versionCount nid db <= 20)
    /\
    (forall now db nid title content tags num by_ v db',
       versionCount nid db = 20 ->
       create now nid title content tags num by_ db = (inr v, db') ->
       exists before old after,
         versions db = before ++ old :: after
         /\ NoteVersion.noteId old = nid
         /\ (forall w, In w (versions db) -> NoteVersion.noteId w = nid ->
               (NoteVersion.createdAt old <= NoteVersion.createdAt w)%Z)
         /\ versions db' = before ++ after ++ [v]
         /\ NoteVersion.noteId v = nid
         /\ versionCount nid db' = 20)
    /\
    (forall now db nid (title content : text) tags num by_,
       title <> "" -> content <> "" ->
       exists v db', create now nid title content tags num by_ db = (inr v, db')).
Proof.
  intros regexTest send. split; [|split].
  - intros db Hr. now apply (reachable_capped regexTest send).
  - intros now db nid title content tags num by_ v db' H20 Hc.
    destruct (create_count _ _ _ _ _ _ _ _ _ _ Hc) as (Hnid & Hn & _).
    rewrite H20 in Hn. simpl in Hn.
    destruct (NoteVersion.validate
                (NoteVersion.mk (nextId db) nid title content tags num by_ now))
      eqn:Hv.
    2: { rewrite (create_invalid _ _ _ _ _ _ _ _ Hv) in Hc. discriminate. }
    destruct (create_valid now nid title content tags num by_ db Hv)
      as (vs' & Hrun & [[Hlt _] | (_ & before & old & after & Hs & Ho & Hmin & ->)]).
    { lia. }
    rewrite Hrun in Hc. injection Hc as <- <-.
    rewrite <- app_assoc in Hn.
    exists before, old, after. simpl. rewrite <- app_assoc. auto 10.
  - intros now db nid title content tags num by_ Ht Hc.
    now apply create_succeeds.
Qed.

Lemma version_cap_witness :
  versionCount 0 fullDB = 20
  /\ exists old v db',
       create 3000%Z 0 "Plan" "draft" [] 21 1 fullDB = (inr v, db')
       /\ In old (versions fullDB)
       /\ NoteVersion.createdAt old = 2001%Z
       /\ versions db' = tl (versions fullDB) ++ [v]
       /\ versionCount 0 db' = 20.
Proof.
  assert (H20 : versionCount 0 fullDB = 20) by (vm_compute; reflexivity).
  split; [exact H20|].
  destruct (proj2 (proj2 (version_cap exactMatch (fun _ _ => true)))
              3000%Z fullDB 0 "Plan" "draft" [] 21 1)
    as (v & db' & Hc); [discriminate | discriminate |].
  destruct (proj1 (proj2 (version_cap exactMatch (fun _ _ => true)))
              3000%Z fullDB 0 "Plan" "draft" [] 21 1 v db' H20 Hc)
    as (before & old & after & Hs & Ho & Hmin & Hv & Hn & H20').
  assert (Hfirst : exists first rest,
            versions fullDB = first :: rest
            /\ NoteVersion.createdAt first = 2001%Z
            /\ NoteVersion.noteId first = 0
            /\ Forall (fun w => (2001 < NoteVersion.createdAt w)%Z) rest).
  { do 2 eexists. split; [vm_compute; reflexivity|].
    split; [reflexivity|]. split; [reflexivity|].
    repeat constructor. }
  destruct Hfirst as (first & rest & Hfull & Hft & Hfn & Hlater).
  assert (Hbefore : before = []).
  { destruct before as [|b before]; [reflexivity|exfalso].
    assert (Hin : In first (versions fullDB))
      by (rewrite Hfull; left; reflexivity).
    specialize (Hmin first Hin Hfn).
    rewrite Hfull in Hs. cbn [app] in Hs. injection Hs as _ Hrest.
    rewrite Forall_forall in Hlater.
    assert (Hold : In old rest)
      by (rewrite Hrest; apply in_or_app; right; left; reflexivity).
    specialize (Hlater old Hold). lia. }
  subst before. cbn [app] in Hs, Hv.
  rewrite Hfull in Hs. injection Hs as <- <-.
  exists first, v, db'. split; [exact Hc|].
  split; [rewrite Hfull; left; reflexivity|]. split; [exact Hft|].
  split; [rewrite Hfull; exact Hv|exact H20'].
Defined.

Lemma reachable_run regexTest send rs :
  forall db, reachable regexTest send db ->
             reachable regexTest send (run regexTest send rs db).
Proof.
  induction rs as [|r rs IH]; intros db H; [exact H|].
  apply IH. now apply reachable_step.
Qed.

(** ** Snapshots taken by overlapping requests *)

(** createVersion is its part up to the end of the pre-save hook, followed
    by the insertion. *)
Lemma createVersion_steps now caller id db :
  createVersion now caller id db
  = (v <- createVersionHook now caller id ;;
     NoteVersionModel.insert v ;;; ret v) db.
Proof.
  unfold createVersion, createVersionHook, bind, NoteModel.findById.
  destruct (NoteModel.lookup id db) as [note|]; [|reflexivity].
  destruct (throwIf _ _ _ db) as [[e|[]] db0]; [reflexivity|].
  destruct (countDocuments (Note._id note) db0) as [[e|n] db1]; [reflexivity|].
  unfold create, prepare, bind.
  destruct (fresh db1) as [vid db2].
  destruct (NoteVersion.validate _); [|reflexivity].
  destruct (preSave _ db2) as [[e|[]] db3]; reflexivity.
Qed.

(** Claim C5, on the code: the limit of 20 is kept by a count and a
    deletion that the pre-save hook awaits before the document is
    inserted, and nothing holds the collection in between.  createVersion
    is the hook part followed by the insertion.  Alice's note has 19
    snapshots, in a database the application reaches.  Two createVersion
    requests of Alice overlap: both hooks count 19 and delete nothing, then
    both snapshots are inserted and the note has 21 versions.  The next
    createVersion counts 21, evicts one and inserts one: the note is still
    at 21. *)
Theorem version_cap_lost_by_overlap :
  (forall now caller id db,
     createVersion now caller id db
     = (v <- createVersionHook now caller id ;;
        NoteVersionModel.insert v ;;; ret v) db)
  /\ reachable exactMatch (fun _ _ => true) nineteenDB
  /\ versionCount 0 nineteenDB = 19
  /\ exists v1 v2 db21,
       createVersionOverlap 2020%Z 2021%Z 1 0 nineteenDB
       = (inr (v1, v2), db21)
       /\ versionCount 0 db21 = 21
       /\ exists v db',
            createVersion 2022%Z 1 0 db21 = (inr v, db')
            /\ versionCount 0 db' = 21.
Proof.
  split; [exact createVersion_steps|].
  split.
  { apply (reachable_run exactMatch (fun _ _ => true)
             (CreateNote 1000%Z 1 (Some "Plan") (Some "draft") None
                :: map (fun k => CreateVersion (Z.of_nat k) 1 0) (seq 2001 19))
             emptyDB).
    apply reachable_init. }
  split; [vm_compute; reflexivity|].
  do 3 eexists. split; [vm_compute; reflexivity|].
  split; [vm_compute; reflexivity|].
  do 2 eexists. split; vm_compute; reflexivity.
Qed.

(** ** Version numbers *)

(** Claim C4, on the code: Alice's note has 20 snapshots, numbered 1 to
    20.  The next createVersion is numbered 21 and evicts number 1; the
    one after it counts 20 documents again and is numbered 21 too, while
    the first snapshot numbered 21 is still in the store. *)
Theorem createVersion_repeats_number :
  exists v21 db21 v22 db22,
    map NoteVersion.versionNumber (versions fullDB) = seq 1 20
    /\ createVersion 3000%Z 1 0 fullDB = (inr v21, db21)
    /\ NoteVersion.versionNumber v21 = 21
    /\ createVersion 3001%Z 1 0 db21 = (inr v22, db22)
    /\ NoteVersion.versionNumber v22 = 21
    /\ NoteVersion._id v21 <> NoteVersion._id v22
    /\ In v21 (versions db22)
    /\ map NoteVersion.versionNumber (versions db22) = seq 3 19 ++ [21].
Proof.
  do 4 eexists.
  split; [vm_compute; reflexivity|].
  split; [vm_compute; reflexivity|].
  split; [reflexivity|].
  split; [vm_compute; reflexivity|].
  split; [reflexivity|].
  split; [vm_compute; lia|].
  split; [vm_compute; tauto|].
  vm_compute; reflexivity.
Qed.

(** ** Restoring a version *)

(** Only the owner may restore. *)
Lemma restoreVersion_not_owner now caller id versionId db note :
  NoteModel.lookup id db = Some note ->
  caller <> Note.userId note ->
  restoreVersion now caller id versionId db
  = (inl (mkError 403 "Only note owner can restore versions"), db).
Proof.
  intros Hl Hne.
  assert (E : (Note.userId note =? caller) = false)
    by (apply Nat.eqb_neq; congruence).
  unfold restoreVersion, bind, NoteModel.findById.
  rewrite Hl. simpl. now rewrite E.
Qed.

(** A version that the note does not have is not found. *)
Lemma restoreVersion_no_version now id versionId db note :
  NoteModel.lookup id db = Some note ->
  NoteVersionModel.lookup versionId id db = None ->
  restoreVersion now (Note.userId note) id versionId db
  = (inl (mkError 404 "Version not found"), db).
Proof.
  intros Hl Hv. pose proof (lookup_id _ _ _ Hl) as Hid.
  unfold restoreVersion, bind, NoteModel.findById, findOne.
  rewrite Hl. simpl. rewrite Nat.eqb_refl. simpl. now rewrite Hid, Hv.
Qed.


(** Claim C8, on the code: Alice's note has the snapshot "draft" and its
    content has since become empty.  She is the owner and the version
    exists, yet restoreVersion answers 500: the snapshot of the current
    state has an empty content, which the NoteVersion schema rejects, and
    the handler stops there; no snapshot is added and the note keeps its
    empty content. *)
Theorem restoreVersion_rejects_empty_content :
  blankedDB
  = run exactMatch (fun _ _ => true)
      [ CreateNote 1000%Z 1 (Some "Plan") (Some "draft") None;
        CreateVersion 1500%Z 1 0;
        UpdateNote 2500%Z 1 0 blankingBody ] emptyDB
  /\ NoteModel.lookup 0 blankedDB = Some blankedNote
  /\ Note.userId blankedNote = 1
  /\ NoteVersionModel.lookup 1 0 blankedDB = Some draftVersion
  /\ restoreVersion 5000%Z 1 0 1 blankedDB
     = (inl (mkError 500 "ValidationError"), blankedDB).
Proof.
  split; [vm_compute; reflexivity|]. repeat split.
Qed.

(** ** Well-formed databases *)

Lemma ids_replace n ns :
  map Note._id (NoteModel.replace n ns) = map Note._id ns.
Proof.
  induction ns as [|m ns IH]; simpl; [reflexivity|].
  rewrite IH. destruct (Note._id m =? Note._id n) eqn:E; [|reflexivity].
  apply Nat.eqb_eq in E. now rewrite E.
Qed.

Lemma Forall_replace (P : Note.t -> Prop) n ns :
  P n -> Forall P ns -> Forall P (NoteModel.replace n ns).
Proof.
  intros Hn Hns. unfold NoteModel.replace. apply Forall_map.
  eapply Forall_impl; [|exact Hns]. intros m Hm. simpl.
  now destruct (Note._id m =? Note._id n).
Qed.

Lemma Forall_ids_replace (bound : nat) n ns :
  Forall (fun m => Note._id m < bound) ns ->
  Forall (fun m => Note._id m < bound) (NoteModel.replace n ns).
Proof.
  intros H.
  apply (proj1 (Forall_map Note._id (fun i => i < bound) _)).
  rewrite ids_replace.
  now apply (proj2 (Forall_map Note._id (fun i => i < bound) _)).
Qed.

Lemma NoDup_snoc {A} (x : A) l :
  NoDup l -> ~ In x l -> NoDup (l ++ [x]).
Proof.
  induction 1 as [|y l Hy Hl IH]; simpl; intros Hx.
  - constructor; [exact Hx|constructor].
  - constructor.
    + intros Hin. apply in_app_or in Hin. destruct Hin as [Hin | [-> | []]].
      * contradiction.
      * apply Hx. now left.
    + apply IH. tauto.
Qed.

Lemma Forall_removeFirst (P : NoteVersion.t -> Prop) p vs :
  Forall P vs -> Forall P (removeFirst p vs).
Proof.
  induction 1 as [|v vs Hv Hvs IH]; simpl; [constructor|].
  destruct (p v); [exact Hvs|]. now constructor.
Qed.

(** A document whose title and content are trimmed may be saved: the
    validators are checked by [save] itself. *)
Lemma save_wf now n :
  trim (Note.title n) = Note.title n ->
  trim (Note.content n) = Note.content n ->
  preserves wf (NoteModel.save now n).
Proof.
  intros Ht Hc db (Hnd & Hb & Hn & Hv).
  destruct (save_cases now n db) as [-> | [E ->]]; [repeat split; assumption|].
  repeat split; simpl.
  - now rewrite ids_replace.
  - now apply Forall_ids_replace.
  - apply Forall_replace; [|exact Hn]. repeat split; assumption.
  - exact Hv.
Qed.

Lemma deleteOne_wf n : preserves wf (NoteModel.deleteOne n).
Proof.
  intros db (Hnd & Hb & Hn & Hv). repeat split; simpl.
  - now apply NoDup_map_filter.
  - apply Forall_forall. intros m Hm. apply filter_In in Hm.
    rewrite Forall_forall in Hb. now apply Hb.
  - apply Forall_forall. intros m Hm. apply filter_In in Hm.
    rewrite Forall_forall in Hn. now apply Hn.
  - exact Hv.
Qed.

Lemma NoteModel_create_wf now owner title content tags :
  preserves wf (NoteModel.create now owner title content tags).
Proof.
  intros db (Hnd & Hb & Hn & Hv). unfold NoteModel.create. simpl.
  destruct (Note.validate _) eqn:E; [|repeat split; assumption].
  simpl. repeat split; simpl.
  - rewrite map_app. simpl. apply NoDup_snoc.
    + exact Hnd.
    + intros Hin. apply in_map_iff in Hin. destruct Hin as (m & Hm & Hin).
      rewrite Forall_forall in Hb. specialize (Hb m Hin). lia.
  - apply Forall_app. split.
    + eapply Forall_impl; [|exact Hb]. intros m Hm. simpl in *. lia.
    + constructor; [simpl; lia|constructor].
  - apply Forall_app. split; [exact Hn|].
    constructor; [|constructor].
    repeat split; [exact E| |]; simpl; apply trim_idempotent.
  - exact Hv.
Qed.

(** A snapshot of title, content and tags that satisfy the note schema
    keeps the database well formed. *)
Lemma create_wf now nid (title content : text) tags num by_ :
  List.length title <= 200 -> List.length tags <= 10 ->
  trim title = title -> trim content = content ->
  preserves wf (create now nid title content tags num by_).
Proof.
  intros Hlen Htags Htt Htc db (Hnd & Hb & Hn & Hv).
  destruct (NoteVersion.validate
              (NoteVersion.mk (nextId db) nid title content tags num by_ now))
    eqn:E.
  - destruct (create_valid now nid title content tags num by_ db E)
      as (vs' & Hrun & Hcases).
    rewrite Hrun. simpl. repeat split; simpl.
    + exact Hnd.
    + eapply Forall_impl; [|exact Hb]. intros m Hm. simpl in *. lia.
    + exact Hn.
    + apply Forall_app. split.
      * destruct Hcases as [[_ ->] | (_ & before & old & after & Hs & _ & _ & ->)];
          [exact Hv|].
        rewrite Hs in Hv. apply Forall_app in Hv. destruct Hv as [H1 H2].
        inversion H2; subst. apply Forall_app. auto.
      * constructor; [|constructor]. repeat split; assumption.
  - rewrite (create_invalid _ _ _ _ _ _ _ _ E). repeat split; assumption.
Qed.

Lemma wfNote_fields n :
  wfNote n ->
  List.length (Note.title n) <= 200 /\ List.length (Note.tags n) <= 10.
Proof.
  intros (Hv & _). unfold Note.validate in Hv.
  apply andb_true_iff in Hv. destruct Hv as [Hv Htags].
  apply andb_true_iff in Hv. destruct Hv as [_ Hlen].
  apply Nat.leb_le in Hlen. apply Nat.leb_le in Htags. auto.
Qed.

(** A loaded note is well formed, and the handler goes on in the same
    database. *)
Lemma preserves_load {A} id (k : option Note.t -> M A) :
  (forall note, wfNote note -> preserves wf (k (Some note))) ->
  preserves wf (k None) ->
  preserves wf (bind (NoteModel.findById id) k).
Proof.
  intros Hsome Hnone db Hwf. unfold bind, NoteModel.findById.
  destruct (NoteModel.lookup id db) as [note|] eqn:Hl.
  - apply Hsome; [|exact Hwf].
    destruct Hwf as (_ & _ & Hn & _). rewrite Forall_forall in Hn.
    apply Hn. now apply lookup_In in Hl.
  - now apply Hnone.
Qed.

Lemma preserves_get {A} I (k : DB -> M A) :
  (forall d, preserves I (k d)) -> preserves I (bind get k).
Proof. intros H db Hdb. unfold bind, get. now apply H. Qed.

Lemma findUserByEmail_read I regexTest email :
  preserves I (findUserByEmail regexTest email).
Proof.
  intros db H. unfold findUserByEmail. now destruct (regexTest email).
Qed.

Lemma newObjectId_wf : preserves wf newObjectId.
Proof.
  intros db (Hnd & Hb & Hn & Hv). repeat split; simpl; try assumption.
  eapply Forall_impl; [|exact Hb]. intros m Hm. simpl in *. lia.
Qed.

Ltac trimmed :=
  unfold applyUpdate, pushAttachment;
  cbn [Note.title Note.content Note.set_title Note.set_content Note.set_tags
       Note.set_isPinned Note.set_isArchived Note.set_reminderAt
       Note.set_reminderStatus Note.set_sharedWith Note.set_shareToken
       Note.set_shareTokenExpiry Note.set_updatedAt Note.set_attachments];
  first [assumption | apply trim_idempotent].

Ltac wf_read := let H := fresh in intros ? H; exact H.

Ltac wf_step :=
  lazymatch goal with
  | |- preserves _ (ret _) => wf_read
  | |- preserves _ (throw _ _) => wf_read
  | |- preserves _ (serverError _) => wf_read
  | |- preserves _ (throwIf _ _ _) => apply preserves_throwIf
  | |- preserves _ (NoteModel.save _ _) => apply save_wf; trimmed
  | |- preserves _ (NoteModel.deleteOne _) => apply deleteOne_wf
  | |- preserves _ (NoteModel.create _ _ _ _ _) => apply NoteModel_create_wf
  | |- preserves _ (countDocuments _) => wf_read
  | |- preserves _ (findOne _ _) => wf_read
  | |- preserves _ (findByNote _) => wf_read
  | |- preserves _ (populateOwner _) => wf_read
  | |- preserves _ (findUserByEmail _ _) => apply findUserByEmail_read
  | |- preserves _ newObjectId => apply newObjectId_wf
  | |- preserves _ (NoteModel.findOneByShareToken _) => wf_read
  | |- preserves _ (bind (NoteModel.findById _) _) =>
      apply preserves_load;
        [ let note := fresh "note" in
          let Hn := fresh "Hn" in
          intros note Hn;
          pose proof (wfNote_fields note Hn);
          destruct Hn as (? & ? & ?)
        | ]
  | |- preserves _ (bind get _) => apply preserves_get; intros ?
  | |- preserves _ (bind _ _) => apply preserves_bind; [|intros ?]
  | |- preserves _ (match ?x with _ => _ end) => destruct x
  | |- preserves _ (let _ := _ in _) => cbv zeta
  end.

Ltac wf_steps := repeat wf_step.

Lemma createVersion_wf now caller id : preserves wf (createVersion now caller id).
Proof.
  unfold createVersion. wf_steps.
  apply create_wf; tauto.
Qed.

Lemma restoreVersion_wf now caller id versionId :
  preserves wf (restoreVersion now caller id versionId).
Proof.
  unfold restoreVersion. wf_steps.
  apply create_wf; tauto.
Qed.

Lemma processReminders_wf send now dueNotes :
  Forall wfNote dueNotes ->
  forall log, preserves wf (processReminders send now dueNotes log).
Proof.
  induction 1 as [|note rest (Hv & Ht & Hc) _ IH]; intros log db H; simpl;
    [exact H|].
  unfold populateOwner.
  destruct (find _ (users db)) as [owner|]; [|now apply IH].
  destruct (send _ _); apply IH; [|exact H].
  apply save_wf; assumption.
Qed.

(** Every request keeps the database well formed. *)
Lemma exec_wf regexTest send r :
  forall db, wf db -> wf (exec regexTest send r db).
Proof.
  destruct r; simpl.
  - change (preserves wf (createNote now caller title content tags)).
    unfold createNote. wf_steps.
  - change (preserves wf (getNoteById caller id)).
    unfold getNoteById. wf_steps.
  - change (preserves wf (updateNote now caller id body)).
    unfold updateNote. wf_steps.
  - change (preserves wf (deleteNote caller id)).
    unfold deleteNote. wf_steps.
  - apply createVersion_wf.
  - change (preserves wf (getVersionHistory caller id)).
    unfold getVersionHistory. wf_steps.
  - change (preserves wf (getVersion caller id versionId)).
    unfold getVersion. wf_steps.
  - apply restoreVersion_wf.
  - change (preserves wf (shareNote regexTest now caller id email permission)).
    unfold shareNote. wf_steps.
  - change (preserves wf (respondToShareRequest now caller id status)).
    unfold respondToShareRequest. wf_steps.
  - change (preserves wf (removeShare now caller id userId)).
    unfold removeShare. wf_steps.
  - change (preserves wf (generateShareLink now caller id token expiresIn)).
    unfold generateShareLink. wf_steps.
  - change (preserves wf (revokeShareLink now caller id)).
    unfold revokeShareLink. wf_steps.
  - change (preserves wf (getSharedNote now token)).
    unfold getSharedNote. wf_steps.
  - change (preserves wf
              (uploadAttachment (fun _ _ _ => stored) now caller id file)).
    unfold uploadAttachment. wf_steps.
  - change (preserves wf (deleteAttachment now caller id attachmentId)).
    unfold deleteAttachment. wf_steps.
  - intros db Hwf. apply processReminders_wf; [|exact Hwf].
    destruct Hwf as (_ & _ & Hn & _). rewrite Forall_forall in *.
    intros n Hin. apply filter_In in Hin. now apply Hn.
  - intros db Hwf. exact Hwf.
Qed.

(** In every database the application reaches by serving requests one
    after another, the notes have distinct ids, pass the validators of
    their schema, and hold trimmed titles and contents. *)
Lemma reachable_wf regexTest send db :
  reachable regexTest send db -> wf db.
Proof.
  induction 1 as [us next | r db _ IH].
  - repeat split; constructor.
  - now apply exec_wf.
Qed.

(** ** Consequences in well-formed databases *)

Lemma wf_lookup db id note :
  wf db -> NoteModel.lookup id db = Some note -> wfNote note.
Proof.
  intros (_ & _ & Hn & _) Hl. rewrite Forall_forall in Hn.
  apply Hn. now apply lookup_In in Hl.
Qed.



(** What createVersion numbers a snapshot with, and how many versions the
    note has afterwards. *)
Lemma createVersion_number now caller id db v db' :
  createVersion now caller id db = (inr v, db') ->
  NoteVersion.versionNumber v = versionCount id db + 1
  /\ versionCount id db' = (if 20 <=? versionCount id db
                            then versionCount id db
                            else S (versionCount id db))
  /\ NoteModel.lookup id db' = NoteModel.lookup id db.
Proof.
  unfold createVersion, bind, NoteModel.findById, countDocuments.
  destruct (NoteModel.lookup id db) as [note|] eqn:Hl; [|discriminate].
  pose proof (lookup_id _ _ _ Hl) as Hid.
  destruct (negb (Note.userId note =? caller)); unfold throwIf, ret, throw;
    cbv beta iota; [discriminate|].
  rewrite Hid. fold (versionCount id db). intros Hc.
  destruct (create_count _ _ _ _ _ _ _ _ _ _ Hc) as (_ & Hn & _).
  split; [|split; [exact Hn|]].
  - destruct (NoteVersion.validate
                (NoteVersion.mk (nextId db) id (Note.title note)
                   (Note.content note) (Note.tags note)
                   (versionCount id db + 1) caller now)) eqn:E.
    + destruct (create_valid now id (Note.title note) (Note.content note)
                  (Note.tags note) (versionCount id db + 1) caller db E)
        as (vs' & Hrun & _).
      rewrite Hrun in Hc. now injection Hc as <- _.
    + rewrite (create_invalid _ _ _ _ _ _ _ _ E) in Hc. discriminate.
  - destruct (NoteVersion.validate
                (NoteVersion.mk (nextId db) id (Note.title note)
                   (Note.content note) (Note.tags note)
                   (versionCount id db + 1) caller now)) eqn:E.
    + destruct (create_valid now id (Note.title note) (Note.content note)
                  (Note.tags note) (versionCount id db + 1) caller db E)
        as (vs' & Hrun & _).
      rewrite Hrun in Hc. injection Hc as _ <-. exact Hl.
    + rewrite (create_invalid _ _ _ _ _ _ _ _ E) in Hc. discriminate.
Qed.

(** Below the cap the numbers go up by one; once a note has 20 versions
    every further snapshot of it is numbered 21. *)
Lemma createVersion_number_stalls now now' caller id db v db' v' db'' :
  20 <= versionCount id db ->
  createVersion now caller id db = (inr v, db') ->
  createVersion now' caller id db' = (inr v', db'') ->
  NoteVersion.versionNumber v' = NoteVersion.versionNumber v.
Proof.
  intros H20 H1 H2.
  destruct (createVersion_number _ _ _ _ _ _ H1) as (Hn1 & Hc1 & _).
  destruct (createVersion_number _ _ _ _ _ _ H2) as (Hn2 & _ & _).
  apply Nat.leb_le in H20. rewrite H20 in Hc1. congruence.
Qed.

(** * Further properties of the controllers *)

(** ** Sorting and mapping *)

Section SortBy.

Context {A : Type} (before : A -> A -> bool).

Lemma insertBy_perm x l : Permutation (x :: l) (insertBy before x l).
Proof.
  induction l as [|y l IH]; simpl; [reflexivity|].
  destruct (before x y); [reflexivity|].
  rewrite perm_swap. now constructor.
Qed.

Lemma sortBy_perm l : Permutation l (sortBy before l).
Proof.
  induction l as [|x l IH]; simpl; [constructor|].
  rewrite <- insertBy_perm. now constructor.
Qed.

Hypothesis before_asym : forall a b, before a b = true -> before b a = false.
Hypothesis inOrder_trans :
  forall a b c, inOrder before a b -> inOrder before b c -> inOrder before a c.

Lemma insertBy_sorted x l :
  StronglySorted (inOrder before) l ->
  StronglySorted (inOrder before) (insertBy before x l).
Proof.
  induction 1 as [|y l Hl IH Hy]; simpl.
  - constructor; constructor.
  - destruct (before x y) eqn:E.
    + constructor; [now constructor|].
      assert (Hxy : inOrder before x y) by now apply before_asym.
      constructor; [exact Hxy|].
      eapply Forall_impl; [|exact Hy]. intros z Hz.
      now apply (inOrder_trans x y z).
    + constructor; [exact IH|].
      apply (Permutation_Forall (insertBy_perm x l)).
      constructor; assumption.
Qed.

Lemma sortBy_sorted l : StronglySorted (inOrder before) (sortBy before l).
Proof.
  induction l as [|x l IH]; simpl; [constructor|].
  now apply insertBy_sorted.
Qed.

End SortBy.

Lemma pinnedThenNewest_asym a b :
  pinnedThenNewest a b = true -> pinnedThenNewest b a = false.
Proof.
  unfold pinnedThenNewest.
  destruct (Note.isPinned a), (Note.isPinned b); simpl; try discriminate;
    try reflexivity; intros H; apply Z.ltb_lt in H; apply Z.ltb_ge; lia.
Qed.

Lemma pinnedThenNewest_trans a b c :
  inOrder pinnedThenNewest a b -> inOrder pinnedThenNewest b c ->
  inOrder pinnedThenNewest a c.
Proof.
  unfold inOrder, pinnedThenNewest.
  destruct (Note.isPinned a), (Note.isPinned b), (Note.isPinned c); simpl;
    try discriminate; try reflexivity;
    intros H1 H2; apply Z.ltb_ge in H1; apply Z.ltb_ge in H2;
    apply Z.ltb_ge; lia.
Qed.

(** A map whose function answers without writing is the plain map. *)
Lemma mapM_pure {A B} (f : A -> M B) (g : A -> B) (xs : list A) db :
  (forall x, In x xs -> f x db = (inr (g x), db)) ->
  mapM f xs db = (inr (map g xs), db).
Proof.
  induction xs as [|x xs IH]; intros H; simpl; [reflexivity|].
  unfold bind. rewrite (H x (or_introl eq_refl)).
  rewrite IH by (intros y Hy; apply H; now right). reflexivity.
Qed.

(** A map whose function never writes leaves the database as it was,
    also when it throws. *)
Lemma mapM_readonly {A B} (f : A -> M B) (xs : list A) db :
  (forall x d, snd (f x d) = d) -> snd (mapM f xs db) = db.
Proof.
  intros Hf. induction xs as [|x xs IH]; simpl; [reflexivity|].
  unfold bind. specialize (Hf x db).
  destruct (f x db) as [[e|y] d]; simpl in *; subst; [reflexivity|].
  destruct (mapM f xs db) as [[e|ys] d']; simpl in *; subst; reflexivity.
Qed.

Lemma StronglySorted_nth {A} (R : A -> A -> Prop) l :
  StronglySorted R l ->
  forall i j a b, i < j ->
    nth_error l i = Some a -> nth_error l j = Some b -> R a b.
Proof.
  induction 1 as [|x l Hl IH Hx]; intros i j a b Hij Ha Hb.
  - destruct i; discriminate.
  - destruct j as [|j]; [lia|]. simpl in Hb. destruct i as [|i].
    + simpl in Ha. injection Ha as <-.
      rewrite Forall_forall in Hx. apply Hx. eapply nth_error_In, Hb.
    + simpl in Ha. apply (IH i j); [lia|assumption|assumption].
Qed.

(** ** Listing the notes of a user *)

Lemma hasGrantWithStatus_holds u st n :
  hasGrantWithStatus u st n = true -> exists p, holdsGrant u p st n.
Proof.
  unfold hasGrantWithStatus. intros H. apply existsb_exists in H.
  destruct H as (s & Hin & Hs). apply andb_true_iff in Hs.
  destruct Hs as [Hu Hst]. apply Nat.eqb_eq in Hu.
  exists (Share.permission s), s. repeat split; try assumption.
  destruct (Share.status s), st; simpl in Hst; congruence.
Qed.

Section ListingProperties.

Variable regexSearch : string -> option (text -> bool).

Lemma annotate_spec caller note db :
  snd (annotate caller note db) = db
  /\ forall e d, annotate caller note db = (inr e, d) ->
       listed_note e = note
       /\ listed_isOwner e = (Note.userId note =? caller)
       /\ (Note.userId note = caller -> listed_permission e = edit)
       /\ (Note.userId note <> caller -> forall s,
             grantOf caller note = Some s ->
             listed_permission e = Share.permission s).
Proof.
  unfold annotate, bind, populateOwner.
  destruct (find (fun u => User._id u =? Note.userId note) (users db))
    as [owner|] eqn:Ho; simpl; [|split; [reflexivity|discriminate]].
  split; [reflexivity|]. intros e d [= <- _]. simpl.
  apply find_some in Ho. destruct Ho as [_ Ho]. apply Nat.eqb_eq in Ho.
  rewrite Ho. repeat split.
  - intros ->. now rewrite Nat.eqb_refl.
  - intros Hne s Hs. apply Nat.eqb_neq in Hne. now rewrite Hne, Hs.
Qed.

Lemma annotate_succeeds caller note db :
  ownerExists db note ->
  exists e, annotate caller note db = (inr e, db).
Proof.
  unfold ownerExists, annotate, bind, populateOwner. intros H.
  destruct (find _ (users db)) as [owner|]; [|congruence].
  eexists. reflexivity.
Qed.

Lemma mapM_annotate caller xs db :
  snd (mapM (annotate caller) xs db) = db
  /\ forall l d, mapM (annotate caller) xs db = (inr l, d) ->
       map listed_note l = xs
       /\ forall e, In e l ->
            exists d', annotate caller (listed_note e) db = (inr e, d').
Proof.
  split; [apply mapM_readonly; intros x d; apply annotate_spec|].
  induction xs as [|x xs IH]; simpl; intros l d.
  - intros [= <- _]. split; [reflexivity|contradiction].
  - unfold bind.
    destruct (annotate caller x db) as [[err|e] d1] eqn:Ea; [discriminate|].
    pose proof (annotate_spec caller x db) as [Hsnd Hx].
    rewrite Ea in Hsnd. simpl in Hsnd. subst d1.
    destruct (mapM (annotate caller) xs db) as [[err|l'] d2] eqn:Em;
      [discriminate|].
    intros [= <- _]. destruct (IH l' d2 eq_refl) as [Hmap Hall].
    destruct (Hx e db Ea) as (Hn & _). simpl. split; [now rewrite Hn, Hmap|].
    intros e' [<- | Hin]; [rewrite Hn; eauto|auto].
Qed.

Lemma mapM_annotate_succeeds caller xs db :
  (forall n, In n xs -> ownerExists db n) ->
  exists l, mapM (annotate caller) xs db = (inr l, db).
Proof.
  induction xs as [|x xs IH]; intros H; simpl; [eexists; reflexivity|].
  destruct (annotate_succeeds caller x db (H x (or_introl eq_refl))) as (e & He).
  destruct IH as (l & Hl); [intros n Hn; apply H; now right|].
  unfold bind. rewrite He, Hl. eexists; reflexivity.
Qed.

(** The filters of getNotes, in the fields of the note. *)
Lemma access_spec caller n :
  (Note.userId n =? caller) || hasGrantWithStatus caller accepted n = true
  <-> Note.userId n = caller
      \/ exists s, In s (Note.sharedWith n)
                   /\ Share.userId s = caller /\ Share.status s = accepted.
Proof.
  rewrite orb_true_iff, Nat.eqb_eq. unfold hasGrantWithStatus.
  rewrite existsb_exists. split; (intros [H | (s & Hin & H)]; [now left|right]);
    exists s; (split; [exact Hin|]).
  - apply andb_true_iff in H. destruct H as [Hu Hst].
    apply Nat.eqb_eq in Hu. split; [exact Hu|].
    destruct (Share.status s); [discriminate|reflexivity].
  - destruct H as [-> ->]. now rewrite Nat.eqb_refl.
Qed.

Lemma archivedFilter_spec a n :
  archivedFilter a n = true
  <-> match a with
      | None => Note.isArchived n = false
      | Some v => (v = "true" -> Note.isArchived n = true)
                  /\ (v = "false" -> Note.isArchived n = false)
      end.
Proof.
  unfold archivedFilter. destruct a as [v|]; [|apply negb_true_iff].
  destruct (String.eqb_spec v "true") as [-> | Ht].
  - split; [intros H; split; [auto|discriminate]|intros [H _]; auto].
  - destruct (String.eqb_spec v "false") as [-> | Hf].
    + rewrite negb_true_iff.
      split; [intros H; split; [discriminate|auto]|intros [_ H]; auto].
    + split; [intros _; split; intros; contradiction|reflexivity].
Qed.

Lemma tagFilter_spec t n :
  tagFilter t n = true
  <-> forall v, t = Some v -> v <> "" -> In v (Note.tags n).
Proof.
  unfold tagFilter. destruct t as [[|c v]|].
  - split; [intros _ v [= <-] H; congruence|reflexivity].
  - rewrite existsb_exists. split.
    + intros (x & Hin & Hx) v' [= <-] _. apply String.eqb_eq in Hx.
      now rewrite Hx.
    + intros H. exists (String c v). split; [apply H; congruence|].
      apply String.eqb_refl.
  - split; [intros _ v H; discriminate|reflexivity].
Qed.

Lemma searchFilter_spec search sel n :
  searchFilter regexSearch search = Some sel ->
  sel n = true
  <-> forall s m, search = Some s -> s <> "" -> regexSearch s = Some m ->
        m (Note.title n) = true \/ m (Note.content n) = true.
Proof.
  unfold searchFilter. destruct search as [[|c s]|].
  - intros [= <-]. split; [intros _ s m [= <-] H; congruence|reflexivity].
  - destruct (regexSearch (String c s)) as [m|] eqn:Hm; [|discriminate].
    intros [= <-]. rewrite orb_true_iff. split.
    + intros H s' m' [= <-] _ Hm'. rewrite Hm in Hm'. now injection Hm' as <-.
    + intros H. apply (H (String c s) m); congruence.
  - intros [= <-]. split; [intros _ s m H; discriminate|reflexivity].
Qed.

(** getNotes.  A search text that the server does not accept as a
    regular expression is answered 500.  Otherwise the answer lists, each
    once, the stored notes that the caller owns or holds an accepted
    grant on and that pass the three filters, and no other: archived
    ('true' asks for the archived notes, 'false' or no value for the
    others, any other value for both), tag (a tag that is given and not
    empty is one of the note's tags) and search (a text that is given and
    not empty matches the title or the content).  The owner's permission
    is edit and a grantee's is the grant's.  Nothing is written. *)
Theorem getNotes_lists_accessible_notes :
  forall caller q db,
    allOwnersExist db ->
    (forall s, query_search q = Some s -> s <> "" -> regexSearch s = None ->
       getNotes regexSearch caller q db
       = (inl (mkError 500 "MongoServerError"), db))
    /\
    ((forall s, query_search q = Some s -> s <> "" -> regexSearch s <> None) ->
     exists listed listing,
       (forall n,
          listed n = true
          <-> (Note.userId n = caller
               \/ exists s, In s (Note.sharedWith n)
                            /\ Share.userId s = caller
                            /\ Share.status s = accepted)
              /\ match query_archived q with
                 | None => Note.isArchived n = false
                 | Some a => (a = "true" -> Note.isArchived n = true)
                             /\ (a = "false" -> Note.isArchived n = false)
                 end
              /\ (forall t, query_tag q = Some t -> t <> "" ->
                            In t (Note.tags n))
              /\ (forall s m, query_search q = Some s -> s <> "" ->
                              regexSearch s = Some m ->
                              m (Note.title n) = true
                              \/ m (Note.content n) = true))
       /\ getNotes regexSearch caller q db = (inr listing, db)
       /\ Permutation (map listed_note listing) (filter listed (notes db))
       /\ (forall e, In e listing ->
             listed_isOwner e = (Note.userId (listed_note e) =? caller)
             /\ (Note.userId (listed_note e) = caller ->
                 listed_permission e = edit)
             /\ (Note.userId (listed_note e) <> caller -> forall s,
                   grantOf caller (listed_note e) = Some s ->
                   listed_permission e = Share.permission s))).
Proof.
  intros caller q db Howners. split.
  - intros s Hq Hne Hbad. unfold getNotes, searchFilter. rewrite Hq.
    destruct s; [congruence|]. now rewrite Hbad.
  - intros Hok.
    destruct (searchFilter regexSearch (query_search q)) as [sel|] eqn:Hsel.
    2: { exfalso. unfold searchFilter in Hsel.
         destruct (query_search q) as [[|c s]|] eqn:Hq; try discriminate.
         destruct (regexSearch (String c s)) eqn:Hm; [discriminate|].
         apply (Hok (String c s)); [reflexivity|discriminate|exact Hm]. }
    set (matching := filter (notesQuery caller q sel) (notes db)).
    assert (Hsorted : Permutation matching (sortBy pinnedThenNewest matching))
      by apply sortBy_perm.
    destruct (mapM_annotate_succeeds caller (sortBy pinnedThenNewest matching) db)
      as (listing & Hrun).
    { intros n Hn. apply (Permutation_in _ (Permutation_sym Hsorted)) in Hn.
      apply filter_In in Hn. destruct Hn as [Hin Hq]. now apply Howners. }
    destruct (proj2 (mapM_annotate caller _ db) listing db Hrun) as [Hmap Hall].
    exists (notesQuery caller q sel), listing. split.
    { intros n. unfold notesQuery. rewrite !andb_true_iff.
      rewrite access_spec, archivedFilter_spec, tagFilter_spec.
      rewrite (searchFilter_spec _ _ n Hsel). tauto. }
    split.
    { unfold getNotes. rewrite Hsel. exact Hrun. }
    split.
    { rewrite Hmap. now apply Permutation_sym. }
    intros e He. destruct (Hall e He) as (d' & Ha).
    destruct (proj2 (annotate_spec caller (listed_note e) db) e d' Ha)
      as (_ & H2 & H3 & H4).
    auto.
Qed.

(** The answer of getNotes has the pinned notes first and, among notes
    with the same pin, the newest first; without an archived parameter
    it holds no archived note.  The request writes nothing. *)
Theorem getNotes_order :
  forall caller q db listing db',
    getNotes regexSearch caller q db = (inr listing, db') ->
    db' = db
    /\ (forall i j a b, i < j ->
          nth_error listing i = Some a -> nth_error listing j = Some b ->
          (Note.isPinned (listed_note b) = true ->
           Note.isPinned (listed_note a) = true)
          /\ (Note.isPinned (listed_note a) = Note.isPinned (listed_note b) ->
              (Note.createdAt (listed_note b) <= Note.createdAt (listed_note a))%Z))
    /\ (query_archived q = None ->
        forall e, In e listing -> Note.isArchived (listed_note e) = false).
Proof.
  intros caller q db listing db' Hrun.
  unfold getNotes in Hrun.
  destruct (searchFilter regexSearch (query_search q)) as [sel|];
    [|discriminate].
  unfold bind, get in Hrun. cbv beta iota in Hrun.
  set (matching := filter (notesQuery caller q sel) (notes db)) in Hrun.
  pose proof (proj1 (mapM_annotate caller (sortBy pinnedThenNewest matching) db))
    as Hsnd.
  rewrite Hrun in Hsnd. simpl in Hsnd. subst db'.
  destruct (proj2 (mapM_annotate caller _ db) listing db Hrun) as [Hmap _].
  split; [reflexivity|]. split.
  - intros i j a b Hij Ha Hb.
    assert (Hord : inOrder pinnedThenNewest (listed_note a) (listed_note b)).
    { apply (StronglySorted_nth _ (map listed_note listing)) with (i := i) (j := j).
      - rewrite Hmap. apply sortBy_sorted.
        + apply pinnedThenNewest_asym.
        + apply pinnedThenNewest_trans.
      - exact Hij.
      - now rewrite nth_error_map, Ha.
      - now rewrite nth_error_map, Hb. }
    unfold inOrder, pinnedThenNewest in Hord.
    destruct (Note.isPinned (listed_note a)), (Note.isPinned (listed_note b));
      simpl in Hord; try discriminate; split; try congruence;
      intros _; apply Z.ltb_ge in Hord; exact Hord.
  - intros Hq e He.
    assert (Hin : In (listed_note e) matching).
    { apply (Permutation_in _ (Permutation_sym (sortBy_perm pinnedThenNewest matching))).
      rewrite <- Hmap. now apply in_map. }
    apply filter_In in Hin. destruct Hin as [_ Hm].
    unfold notesQuery in Hm. rewrite Hq in Hm. simpl in Hm.
    destruct (Note.isArchived (listed_note e)); [|reflexivity].
    rewrite andb_false_r in Hm. discriminate.
Qed.

End ListingProperties.

Lemma getNotes_lists_accessible_notes_witness :
  exists listing,
    getNotes matchAll 2 noQuery listingDB = (inr listing, listingDB)
    /\ map (fun e => (Note._id (listed_note e), listed_permission e)) listing
       = [(1, edit); (4, edit); (0, edit)].
Proof.
  destruct (getNotes_lists_accessible_notes matchAll 2 noQuery listingDB)
    as [_ H].
  - intros n Hin. unfold ownerExists.
    destruct Hin as [<- | [<- | [<- | [<- | [<- | []]]]]]; discriminate.
  - destruct H as (listed & listing & _ & Hrun & _); [discriminate|].
    exists listing. split; [exact Hrun|].
    vm_compute in Hrun. injection Hrun as <-. reflexivity.
Defined.

Lemma getNotes_order_witness :
  map (fun e => Note.title (listed_note e)) bobListing
  = ["Groceries"; "Ideas"; "Plan"]
  /\ (forall i j a b, i < j ->
        nth_error bobListing i = Some a -> nth_error bobListing j = Some b ->
        (Note.isPinned (listed_note b) = true ->
         Note.isPinned (listed_note a) = true)
        /\ (Note.isPinned (listed_note a) = Note.isPinned (listed_note b) ->
            (Note.createdAt (listed_note b) <= Note.createdAt (listed_note a))%Z))
  /\ (forall e, In e bobListing -> Note.isArchived (listed_note e) = false).
Proof.
  split; [reflexivity|].
  destruct (getNotes_order matchAll 2 noQuery listingDB bobListing
              listingDB) as (_ & Hord & Harch).
  - vm_compute. reflexivity.
  - split; [exact Hord|]. now apply Harch.
Defined.

(** ** Answering a share request *)

Lemma findIndex_split {A} (p : A -> bool) l i :
  findIndex p l = Some i ->
  exists before s after,
    l = before ++ s :: after
    /\ Forall (fun x => p x = false) before
    /\ p s = true
    /\ i = List.length before
    /\ find p l = Some s
    /\ removeAt i l = before ++ after.
Proof.
  revert i. induction l as [|x l IH]; simpl; [discriminate|].
  intros i. destruct (p x) eqn:E.
  - intros [= <-]. exists [], x, l. repeat split; auto.
  - destruct (findIndex p l) as [j|]; [|discriminate].
    intros [= <-].
    destruct (IH j eq_refl) as (before & s & after & -> & Hb & Hs & -> & Hf & Hr).
    exists (x :: before), s, after. simpl. rewrite Hr.
    repeat split; auto.
Qed.

Lemma findIndex_none {A} (p : A -> bool) l :
  findIndex p l = None <-> find p l = None.
Proof.
  induction l as [|x l IH]; simpl; [tauto|].
  destruct (p x); [split; discriminate|].
  destruct (findIndex p l); split; intros H; try discriminate; try tauto.
  apply IH in H. discriminate.
Qed.

Lemma acceptAt_split before s after :
  acceptAt (List.length before) (before ++ s :: after)
  = before ++ Share.set_status accepted s :: after.
Proof. induction before as [|x before IH]; simpl; [reflexivity|]. now rewrite IH. Qed.

(** The run of respondToShareRequest on a stored note, for a valid
    answer of a user who holds a grant. *)
Lemma respondToShareRequest_run now caller id db note i (accept : bool) :
  NoteModel.lookup id db = Some note ->
  findIndex (fun s => Share.userId s =? caller) (Note.sharedWith note) = Some i ->
  respondToShareRequest now caller id
    (Some (if accept then "accepted" else "rejected")) db
  = (let shares := if accept then acceptAt i (Note.sharedWith note)
                   else removeAt i (Note.sharedWith note) in
     match NoteModel.save now (Note.set_sharedWith shares note) db with
     | (inl e, db') => (inl e, db')
     | (inr _, db') =>
         (inr (if accept then "Share request accepted"
               else "Share request rejected"), db')
     end).
Proof.
  intros Hl Hi.
  destruct accept;
    cbv [respondToShareRequest bind NoteModel.findById throwIf ifDefined ret throw];
    cbn [String.eqb Ascii.eqb Bool.eqb orb negb]; rewrite Hl, Hi;
    match goal with |- context [NoteModel.save ?a ?b ?c] =>
      destruct (NoteModel.save a b c) as [[e|n] d]; reflexivity end.
Qed.

Lemma set_sharedWith_same note :
  Note.set_sharedWith (Note.sharedWith note) note = note.
Proof. now destruct note. Qed.

(** respondToShareRequest touches the caller's grant and no other: an
    acceptance sets the status of the caller's grant to accepted where it
    stands, with its permission and date; a rejection takes that grant out
    of sharedWith; the other grants stay as they were.  Accepting a grant
    that is accepted already succeeds and writes nothing, so that
    updatedAt stays.  A caller without a grant gets 404, and an answer
    that is neither 'accepted' nor 'rejected' gets 400; both write
    nothing. *)
Theorem respondToShareRequest_own_grant :
  forall now caller id db,
    (forall status,
       status <> Some "accepted" -> status <> Some "rejected" ->
       respondToShareRequest now caller id status db
       = (inl (mkError 400 "Invalid status"), db))
    /\
    (forall note (accept : bool),
       NoteModel.lookup id db = Some note ->
       Note.validate note = true ->
       (grantOf caller note = None ->
        exists e,
          respondToShareRequest now caller id
            (Some (if accept then "accepted" else "rejected")) db = (inl e, db)
          /\ NotFound e)
       /\
       (forall s, grantOf caller note = Some s ->
          exists before after msg db',
            Note.sharedWith note = before ++ s :: after
            /\ Forall (fun x => Share.userId x <> caller) before
            /\ respondToShareRequest now caller id
                 (Some (if accept then "accepted" else "rejected")) db
               = (inr msg, db')
            /\ (accept = true -> Share.status s = accepted -> db' = db)
            /\ (accept = false \/ Share.status s = pending ->
                NoteModel.lookup id db'
                = Some (Note.set_updatedAt now
                          (Note.set_sharedWith
                             (if accept
                              then before ++ Share.mk (Share.userId s)
                                     (Share.permission s) (Share.sharedAt s)
                                     accepted :: after
                              else before ++ after) note))))).
Proof.
  intros now caller id db. split.
  - intros status Ha Hr. unfold respondToShareRequest, bind.
    destruct status as [st|]; simpl; [|reflexivity].
    destruct (String.eqb st "accepted") eqn:E1.
    { apply String.eqb_eq in E1. congruence. }
    destruct (String.eqb st "rejected") eqn:E2.
    { apply String.eqb_eq in E2. congruence. }
    reflexivity.
  - intros note accept Hl Hv. pose proof (lookup_id _ _ _ Hl) as Hid. split.
    + intros Hnone. apply findIndex_none in Hnone.
      exists (mkError 404 "Share request not found"). split; [|reflexivity].
      destruct accept;
        cbv [respondToShareRequest bind NoteModel.findById throwIf ifDefined ret throw];
        cbn [String.eqb Ascii.eqb Bool.eqb orb negb]; now rewrite Hl, Hnone.
    + intros s Hs. unfold grantOf in Hs.
      destruct (findIndex (fun s => Share.userId s =? caller) (Note.sharedWith note))
        as [i|] eqn:Hi.
      2: { apply findIndex_none in Hi. congruence. }
      destruct (findIndex_split _ _ _ Hi)
        as (before & s' & after & Hsplit & Hb & _ & -> & Hf & Hr).
      assert (s' = s) by congruence. subst s'.
      rewrite (respondToShareRequest_run now caller id db note _ accept Hl Hi).
      cbv zeta.
      assert (Hshares :
        (if accept then acceptAt (List.length before) (Note.sharedWith note)
         else removeAt (List.length before) (Note.sharedWith note))
        = (if accept
           then before ++ Share.mk (Share.userId s) (Share.permission s)
                                   (Share.sharedAt s) accepted :: after
           else before ++ after)).
      { destruct accept; [|exact Hr]. rewrite Hsplit. apply acceptAt_split. }
      rewrite Hshares.
      set (shares := if accept then _ else _).
      assert (Hl0 : NoteModel.lookup (Note._id (Note.set_sharedWith shares note))
                      db = Some note) by (simpl; now rewrite Hid).
      assert (Hbefore : Forall (fun x => Share.userId x <> caller) before).
      { eapply Forall_impl; [|exact Hb]. intros x Hx. now apply Nat.eqb_neq. }
      assert (Hsame : accept = true -> Share.status s = accepted ->
                      Note.set_sharedWith shares note = note).
      { intros Ha Hst. unfold shares. rewrite Ha.
        replace (Share.mk (Share.userId s) (Share.permission s)
                          (Share.sharedAt s) accepted) with s
          by (destruct s; simpl in Hst; now subst).
        rewrite <- Hsplit. apply set_sharedWith_same. }
      assert (Hdiff : accept = false \/ Share.status s = pending ->
                      Note.set_sharedWith shares note <> note).
      { intros Hm. apply set_sharedWith_modified. unfold shares.
        rewrite Hsplit. intros E. destruct accept.
        - destruct Hm as [Hm | Hm]; [discriminate|].
          apply app_inv_head in E. injection E as E.
          apply (f_equal Share.status) in E. simpl in E. congruence.
        - apply app_inv_head in E.
          apply (f_equal (@List.length Share.t)) in E. simpl in E. lia. }
      exists before, after.
      destruct (Note.eq_dec (Note.set_sharedWith shares note) note) as [E | E].
      * rewrite E. rewrite (save_unmodified now note db Hv)
          by (now rewrite Hid).
        do 2 eexists. split; [exact Hsplit|]. split; [exact Hbefore|].
        split; [reflexivity|]. split; [reflexivity|].
        intros Hm. now apply Hdiff in Hm.
      * rewrite (save_valid now (Note.set_sharedWith shares note) db note
                   Hv Hl0 E).
        do 2 eexists. split; [exact Hsplit|]. split; [exact Hbefore|].
        split; [reflexivity|]. split.
        { intros Ha Hst. exfalso. apply E. now apply Hsame. }
        intros _. simpl. unfold NoteModel.lookup. simpl. rewrite <- Hid.
        apply (find_replace
                 (Note.set_updatedAt now (Note.set_sharedWith shares note))
                 (notes db) note).
        simpl. unfold NoteModel.lookup in Hl. now rewrite Hid.
Qed.

Lemma respondToShareRequest_own_grant_witness :
  exists msg db',
    respondToShareRequest 3000%Z 2 0 (Some "accepted") invitedDB = (inr msg, db')
    /\ NoteModel.lookup 0 db'
       = Some (Note.set_updatedAt 3000%Z
                 (Note.set_sharedWith [Share.mk 2 view 2000%Z accepted]
                                      invitedNote)).
Proof.
  destruct (proj2 (proj2 (respondToShareRequest_own_grant 3000%Z 2 0 invitedDB)
                     invitedNote true eq_refl eq_refl)
              (Share.mk 2 view 2000%Z pending) eq_refl)
    as (before & after & msg & db' & Hs & _ & Hrun & _ & Hl).
  destruct before as [|x before]; [|destruct before; discriminate].
  injection Hs as <-. exists msg, db'. split; [exact Hrun|].
  apply Hl. right. reflexivity.
Defined.

(** ** The two lists of shared notes *)

Lemma ShareStatus_eqb_eq p q : ShareStatus_eqb p q = true <-> p = q.
Proof. destruct p, q; simpl; split; congruence. Qed.






(** With one grant per user, the grant that carries a status is the one
    [find] returns. *)
Lemma grant_status_unique u st n s :
  NoDup (map Share.userId (Note.sharedWith n)) ->
  hasGrantWithStatus u st n = true ->
  grantOf u n = Some s ->
  Share.status s = st.
Proof.
  intros Hnd Hex Hs. unfold hasGrantWithStatus in Hex.
  apply existsb_exists in Hex. destruct Hex as (s' & Hin' & Hs').
  apply andb_true_iff in Hs'. destruct Hs' as [Hu' Hst'].
  unfold grantOf in Hs. apply find_some in Hs. destruct Hs as [Hin Hu].
  apply Nat.eqb_eq in Hu, Hu'.
  assert (s' = s) by (apply (NoDup_map_inj Share.userId (Note.sharedWith n));
                      congruence).
  subst s'. now apply ShareStatus_eqb_eq.
Qed.




(** ** Offering, accepting and rejecting a share *)

Lemma findIndex_app_last {A} (p : A -> bool) old x :
  find p old = None -> p x = true ->
  findIndex p (old ++ [x]) = Some (List.length old).
Proof.
  induction old as [|y old IH]; simpl; intros Hf Hx; [now rewrite Hx|].
  destruct (p y); [discriminate|]. now rewrite IH.
Qed.

Lemma removeAt_app_last {A} (old : list A) x :
  removeAt (List.length old) (old ++ [x]) = old.
Proof. induction old as [|y old IH]; simpl; [reflexivity|]. now rewrite IH. Qed.

Lemma find_none_existsb {A} (p : A -> bool) l :
  find p l = None -> existsb p l = false.
Proof.
  induction l as [|x l IH]; simpl; [reflexivity|].
  destruct (p x); [discriminate|auto].
Qed.

Lemma find_app_last {A} (p : A -> bool) old x :
  find p old = None -> p x = true -> find p (old ++ [x]) = Some x.
Proof.
  induction old as [|y old IH]; simpl; intros Hf Hx; [now rewrite Hx|].
  destruct (p y); [discriminate|auto].
Qed.

Lemma In_replace n ns m :
  In m (NoteModel.replace n ns) -> m = n \/ In m ns.
Proof.
  unfold NoteModel.replace. intros H. apply in_map_iff in H.
  destruct H as (x & Hx & Hin).
  destruct (Note._id x =? Note._id n); [left|right]; congruence.
Qed.

Lemma allOwnersExist_replace n db old :
  allOwnersExist db ->
  In old (notes db) -> Note.userId n = Note.userId old ->
  allOwnersExist (with_notes (NoteModel.replace n (notes db)) db).
Proof.
  intros Hall Hold Hu.
  intros m Hm. simpl in Hm. apply In_replace in Hm. unfold ownerExists. simpl.
  destruct Hm as [-> | Hm]; [|now apply Hall].
  rewrite Hu. now apply Hall.
Qed.

Lemma allOwnersExist_save now n db old :
  allOwnersExist db ->
  In old (notes db) -> Note.userId n = Note.userId old ->
  allOwnersExist (snd (NoteModel.save now n db)).
Proof.
  intros Hall Hold Hu.
  destruct (save_cases now n db) as [-> | [_ ->]]; [exact Hall|].
  now apply (allOwnersExist_replace _ db old).
Qed.

Section Offer.

Variable regexTest : string -> option (string -> bool).

(** The owner offers the note to a user who holds no grant on it. *)
Lemma shareNote_new_grant now caller id email permission db e p note grantee
    matches :
  email = Some e -> e <> "" ->
  parsePermission permission = Some p ->
  NoteModel.lookup id db = Some note ->
  Note.userId note = caller ->
  regexTest e = Some matches ->
  find (fun u => matches (User.email u)) (users db) = Some grantee ->
  User._id grantee <> caller ->
  Note.validate note = true ->
  grantOf (User._id grantee) note = None ->
  let note1 := Note.set_updatedAt now
                 (Note.set_sharedWith
                    (Note.sharedWith note
                       ++ [Share.mk (User._id grantee) p now pending]) note) in
  let db1 := with_notes (NoteModel.replace note1 (notes db)) db in
  shareNote regexTest now caller id email permission db
  = (inr ("Note shared successfully", Note.sharedWith note1), db1)
  /\ NoteModel.lookup id db1 = Some note1
  /\ Note.validate note1 = true.
Proof.
  intros He Hne Hp Hl Ho Hre Hg Hself Hv Hnone note1 db1.
  pose proof (lookup_id _ _ _ Hl) as Hid.
  rewrite (shareNote_resolved regexTest now caller id email permission db e p
             note grantee matches He Hne Hp Hl Ho Hre Hg Hself).
  unfold grantOf in Hnone. rewrite Hnone.
  set (offered := Note.set_sharedWith _ note).
  assert (Hmod : offered <> note).
  { apply set_sharedWith_modified. apply app_cons_neq. }
  assert (Hl0 : NoteModel.lookup (Note._id offered) db = Some note)
    by (simpl; now rewrite Hid).
  split; [|split; [|exact Hv]].
  - unfold bind. rewrite (save_valid now offered db note Hv Hl0 Hmod).
    reflexivity.
  - unfold db1, NoteModel.lookup. simpl. rewrite <- Hid.
    apply (find_replace note1 (notes db) note).
    simpl. unfold NoteModel.lookup in Hl. now rewrite Hid.
Qed.

(** An offer that the grantee rejects leaves no trace in sharedWith: the
    note is stored as it was before the offer, up to updatedAt, and the
    grantee has no access to its versions. *)
Theorem share_then_reject_restores_note :
  forall now now' caller id email permission db e p note grantee matches,
    email = Some e -> e <> "" ->
    parsePermission permission = Some p ->
    NoteModel.lookup id db = Some note ->
    Note.userId note = caller ->
    regexTest e = Some matches ->
    find (fun u => matches (User.email u)) (users db) = Some grantee ->
    User._id grantee <> caller ->
    Note.validate note = true ->
    grantOf (User._id grantee) note = None ->
    exists shares db1 db2,
      shareNote regexTest now caller id email permission db
      = (inr ("Note shared successfully", shares), db1)
      /\ respondToShareRequest now' (User._id grantee) id (Some "rejected") db1
         = (inr "Share request rejected", db2)
      /\ NoteModel.lookup id db2 = Some (Note.set_updatedAt now' note)
      /\ hasAccess (User._id grantee) (Note.set_updatedAt now' note) = false.
Proof.
  intros now now' caller id email permission db e p note grantee matches
         He Hne Hp Hl Ho Hre Hg Hself Hv Hnone.
  pose proof (lookup_id _ _ _ Hl) as Hid.
  destruct (shareNote_new_grant now caller id email permission db e p note
              grantee matches He Hne Hp Hl Ho Hre Hg Hself Hv Hnone)
    as (Hshare & Hl1 & Hv1).
  set (note1 := Note.set_updatedAt now _) in *.
  set (db1 := with_notes _ db) in *.
  assert (Hi : findIndex (fun s => Share.userId s =? User._id grantee)
                         (Note.sharedWith note1)
               = Some (List.length (Note.sharedWith note))).
  { apply findIndex_app_last; [exact Hnone|]. simpl. apply Nat.eqb_refl. }
  pose proof (respondToShareRequest_run now' (User._id grantee) id db1 note1 _
                false Hl1 Hi) as Hrun.
  cbv beta zeta iota in Hrun.
  change (Note.sharedWith note1)
    with (Note.sharedWith note ++ [Share.mk (User._id grantee) p now pending])
    in Hrun at 1.
  rewrite removeAt_app_last in Hrun.
  assert (Hnote2 : Note.set_updatedAt now'
                     (Note.set_sharedWith (Note.sharedWith note) note1)
                   = Note.set_updatedAt now' note)
    by (destruct note; reflexivity).
  rewrite (save_valid now' (Note.set_sharedWith (Note.sharedWith note) note1)
             db1 note1 Hv1) in Hrun.
  2: { simpl. now rewrite Hid. }
  2: { apply set_sharedWith_modified. simpl. intros E. symmetry in E.
       now apply app_cons_neq in E. }
  rewrite Hnote2 in Hrun.
  do 3 eexists. split; [exact Hshare|]. split; [exact Hrun|]. split.
  - unfold NoteModel.lookup. simpl. rewrite <- Hid.
    apply (find_replace (Note.set_updatedAt now' note) (notes db1) note1).
    unfold NoteModel.lookup in Hl1. simpl. now rewrite Hid.
  - unfold hasAccess. simpl. rewrite Ho.
    assert (E : (caller =? User._id grantee) = false)
      by (apply Nat.eqb_neq; congruence).
    rewrite E. simpl. now apply find_none_existsb.
Qed.


End Offer.

Lemma share_then_reject_restores_note_witness :
  exists shares db1 db2,
    shareNote exactMatch 5000%Z 1 0 (Some "bob@example.com") (Some "view") linkDB
    = (inr ("Note shared successfully", shares), db1)
    /\ respondToShareRequest 6000%Z 2 0 (Some "rejected") db1
       = (inr "Share request rejected", db2)
    /\ NoteModel.lookup 0 db2 = Some (Note.set_updatedAt 6000%Z linkNote)
    /\ hasAccess 2 (Note.set_updatedAt 6000%Z linkNote) = false.
Proof.
  exact (share_then_reject_restores_note exactMatch 5000%Z 6000%Z 1 0
           (Some "bob@example.com") (Some "view") linkDB "bob@example.com" view
           linkNote bob (String.eqb "bob@example.com")
           eq_refl ltac:(discriminate) eq_refl eq_refl eq_refl
           eq_refl eq_refl ltac:(simpl; lia) eq_refl eq_refl).
Defined.


(** ** Public links *)

Lemma holdsToken_false token n :
  Note.shareToken n <> Some token -> NoteModel.holdsToken token n = false.
Proof.
  intros H. destruct (NoteModel.holdsToken token n) eqn:E; [|reflexivity].
  apply holdsToken_spec in E. contradiction.
Qed.

Lemma find_holdsToken_replace token n ns old :
  (forall m, In m ns -> Note._id m <> Note._id n ->
             Note.shareToken m <> Some token) ->
  Note.shareToken n = Some token ->
  find (fun m => Note._id m =? Note._id n) ns = Some old ->
  find (NoteModel.holdsToken token) (NoteModel.replace n ns) = Some n.
Proof.
  intros Hothers Hn. apply holdsToken_spec in Hn.
  induction ns as [|m ns IH]; simpl; [discriminate|].
  destruct (Note._id m =? Note._id n) eqn:E.
  - intros _. now rewrite Hn.
  - intros Hf. apply Nat.eqb_neq in E.
    rewrite holdsToken_false by (apply Hothers; [now left|exact E]).
    apply IH; [|exact Hf]. intros x Hx. apply Hothers. now right.
Qed.

Lemma find_holdsToken_replace_none token n ns :
  (forall m, In m ns -> Note._id m <> Note._id n ->
             Note.shareToken m <> Some token) ->
  Note.shareToken n <> Some token ->
  find (NoteModel.holdsToken token) (NoteModel.replace n ns) = None.
Proof.
  intros Hothers Hn. apply findOneByShareToken_none with (db := mkDB _ [] [] 0).
  simpl. intros m Hm. apply in_map_iff in Hm. destruct Hm as (x & Hx & Hin).
  destruct (Note._id x =? Note._id n) eqn:E.
  - now subst m.
  - subst m. apply Hothers; [exact Hin|]. now apply Nat.eqb_neq.
Qed.

(** The run of generateShareLink for the owner with a token no other
    note holds. *)
Lemma find_holdsToken_stored token id db note :
  NoteModel.lookup id db = Some note ->
  (forall m, In m (notes db) -> Note._id m <> id ->
             Note.shareToken m <> Some token) ->
  Note.shareToken note = Some token ->
  find (NoteModel.holdsToken token) (notes db) = Some note.
Proof.
  unfold NoteModel.lookup. intros Hl Hothers Hn. apply holdsToken_spec in Hn.
  induction (notes db) as [|m ns IH]; simpl in *; [discriminate|].
  destruct (Note._id m =? id) eqn:E.
  - injection Hl as ->. now rewrite Hn.
  - apply Nat.eqb_neq in E.
    rewrite holdsToken_false by (apply Hothers; [now left|exact E]).
    apply IH; [exact Hl|]. intros x Hx. apply Hothers. now right.
Qed.

Lemma find_holdsToken_none token id db note :
  NoDup (map Note._id (notes db)) ->
  NoteModel.lookup id db = Some note ->
  (forall m, In m (notes db) -> Note._id m <> id ->
             Note.shareToken m <> Some token) ->
  Note.shareToken note <> Some token ->
  find (NoteModel.holdsToken token) (notes db) = None.
Proof.
  intros Hnd Hl Hothers Hn. apply findOneByShareToken_none.
  intros m Hm. destruct (Nat.eq_dec (Note._id m) id) as [E | E];
    [|now apply Hothers].
  assert (m = note); [|now subst].
  apply (NoDup_map_inj Note._id (notes db)); auto.
  - now apply lookup_In in Hl.
  - apply lookup_id in Hl. congruence.
Qed.

(** The run of generateShareLink by the owner, for an expiry that is a
    valid Date and a token that no other note holds. *)
Lemma generateShareLink_run now id token expiresIn db note :
  NoteModel.lookup id db = Some note ->
  (forall m, In m (notes db) -> Note._id m <> id ->
             Note.shareToken m <> Some token) ->
  (forall expiry, linkExpiry now expiresIn = Some expiry ->
                  (Z.abs expiry <= 8640000000000000)%Z) ->
  generateShareLink now (Note.userId note) id token expiresIn db
  = (NoteModel.save now
       (Note.set_shareTokenExpiry (linkExpiry now expiresIn)
          (Note.set_shareToken (Some token) note)) ;;;
     ret (token, linkExpiry now expiresIn)) db.
Proof.
  intros Hl Hfresh Hvalid. pose proof (lookup_id _ _ _ Hl) as Hid.
  assert (Hno : existsb (fun m => NoteModel.holdsToken token m
                                  && negb (Note._id m =? Note._id note))
                        (notes db) = false).
  { destruct (existsb _ (notes db)) eqn:E; [|reflexivity].
    apply existsb_exists in E. destruct E as (m & Hm & Hb).
    apply andb_true_iff in Hb. destruct Hb as [Hh Hne].
    apply holdsToken_spec in Hh. apply negb_true_iff in Hne.
    apply Nat.eqb_neq in Hne. rewrite Hid in Hne.
    now apply Hfresh in Hm. }
  unfold generateShareLink. unfold bind at 1. unfold NoteModel.findById at 1.
  rewrite Hl. unfold bind at 1. rewrite Nat.eqb_refl. cbn [negb throwIf ret].
  cbv zeta. unfold linkExpiry in *.
  assert (Hok : forall d, match expiresIn with
                          | Some h => if (h =? 0)%Z then None
                                      else Some (now + h * 60 * 60 * 1000)%Z
                          | None => None
                          end = Some d -> negb (validDate d) = false).
  { intros d Hd. apply negb_false_iff. apply Z.leb_le. now apply Hvalid. }
  destruct (match expiresIn with Some _ => _ | None => _ end) as [d|];
    [rewrite (Hok d eq_refl)|];
    unfold bind at 1; cbn [throwIf ret];
    unfold bind at 1; unfold get at 1; unfold bind at 1;
    rewrite Hno; cbn [throwIf ret]; reflexivity.
Qed.

(** A link that the owner issues resolves to the note, with view
    permission, at every instant up to its expiry and answers 410 after
    it; a link issued without a number of hours, or with 0, never
    expires.  When the expiry asked for lies beyond the range of Date
    (more than 8.64e15 ms from the epoch) the request is answered 500 and
    no link is issued. *)
Theorem issued_link_resolves_until_expiry :
  forall now id token expiresIn db note owner,
    NoteModel.lookup id db = Some note ->
    Note.validate note = true ->
    (forall m, In m (notes db) -> Note._id m <> id ->
               Note.shareToken m <> Some token) ->
    find (fun u => User._id u =? Note.userId note) (users db) = Some owner ->
    (forall expiry,
       linkExpiry now expiresIn = Some expiry ->
       (8640000000000000 < Z.abs expiry)%Z ->
       generateShareLink now (Note.userId note) id token expiresIn db
       = (inl (mkError 500 "ValidationError"), db))
    /\
    ((forall expiry, linkExpiry now expiresIn = Some expiry ->
                     (Z.abs expiry <= 8640000000000000)%Z) ->
     exists db' note',
       generateShareLink now (Note.userId note) id token expiresIn db
       = (inr (token, linkExpiry now expiresIn), db')
       /\ NoteModel.lookup id db' = Some note'
       /\ (forall later,
             getSharedNote later token db'
             = match linkExpiry now expiresIn with
               | Some expiry =>
                   if (expiry <? later)%Z
                   then (inl (mkError 410 "Share link has expired"), db')
                   else (inr (projection note' owner), db')
               | None => (inr (projection note' owner), db')
               end)
       /\ Note.title note' = Note.title note
       /\ Note.content note' = Note.content note
       /\ Note.tags note' = Note.tags note
       /\ Note.attachments note' = Note.attachments note).
Proof.
  intros now id token expiresIn db note owner Hl Hv Hfresh Ho.
  pose proof (lookup_id _ _ _ Hl) as Hid. split.
  { intros expiry He Hbad.
    unfold generateShareLink. unfold bind at 1. unfold NoteModel.findById at 1.
    rewrite Hl. unfold bind at 1. rewrite Nat.eqb_refl. cbn [negb throwIf ret].
    cbv zeta. unfold linkExpiry in He. rewrite He.
    assert (Hinv : validDate expiry = false) by (apply Z.leb_gt; exact Hbad).
    unfold bind at 1. now rewrite Hinv. }
  intros Hvalid.
  rewrite (generateShareLink_run now id token expiresIn db note Hl Hfresh Hvalid).
  set (issued := Note.set_shareTokenExpiry _ _).
  assert (Hl0 : NoteModel.lookup (Note._id issued) db = Some note)
    by (simpl; now rewrite Hid).
  (* the stored note and the database after the request *)
  assert (Hcases : exists db' note',
            (NoteModel.save now issued ;;; ret (token, linkExpiry now expiresIn)) db
            = (inr (token, linkExpiry now expiresIn), db')
            /\ NoteModel.lookup id db' = Some note'
            /\ find (NoteModel.holdsToken token) (notes db') = Some note'
            /\ users db' = users db
            /\ (note' = issued \/ note' = Note.set_updatedAt now issued)).
  { destruct (Note.eq_dec issued note) as [E | E].
    - exists db, note. unfold bind.
      rewrite (save_unmodified now issued db Hv) by (now rewrite Hl0, E).
      split; [reflexivity|]. split; [exact Hl|]. split.
      + apply (find_holdsToken_stored token id db note Hl Hfresh).
        now rewrite <- E.
      + split; [reflexivity|]. left. now symmetry.
    - exists (with_notes (NoteModel.replace (Note.set_updatedAt now issued)
                                            (notes db)) db),
             (Note.set_updatedAt now issued).
      unfold bind. rewrite (save_valid now issued db note Hv Hl0 E).
      split; [reflexivity|]. split.
      + unfold NoteModel.lookup. simpl. rewrite <- Hid.
        apply (find_replace (Note.set_updatedAt now issued) (notes db) note).
        unfold NoteModel.lookup in Hl. simpl. now rewrite Hid.
      + split.
        * apply (find_holdsToken_replace token (Note.set_updatedAt now issued)
                   (notes db) note).
          -- intros m Hm Hne. apply Hfresh; [exact Hm|]. now rewrite <- Hid.
          -- reflexivity.
          -- unfold NoteModel.lookup in Hl. simpl. now rewrite Hid.
        * split; [reflexivity|]. now right. }
  destruct Hcases as (db' & note' & Hrun & Hl' & Hfind & Hu & Hnote).
  exists db', note'. split; [exact Hrun|]. split; [exact Hl'|]. split.
  - intros later.
    unfold getSharedNote, bind, NoteModel.findOneByShareToken, populateOwner.
    rewrite Hfind, Hu.
    assert (Hfields : Note.userId note' = Note.userId note
                      /\ Note.shareTokenExpiry note' = linkExpiry now expiresIn)
      by (destruct Hnote as [-> | ->]; split; reflexivity).
    destruct Hfields as [-> Hexp]. rewrite Ho.
    unfold linkExpired, throwIf, projection. rewrite Hexp.
    destruct (linkExpiry now expiresIn) as [expiry|]; [|reflexivity].
    destruct (expiry <? later)%Z; reflexivity.
  - destruct Hnote as [-> | ->]; repeat split.
Qed.

(** A token stops resolving as soon as the owner revokes the link or
    issues a new one, with a token that no other note holds and an expiry
    that is a valid Date: getSharedNote answers 404 for the old token.
    The notes have distinct ids. *)
Theorem old_link_stops_resolving :
  forall now later id oldToken newToken expiresIn db note,
    NoDup (map Note._id (notes db)) ->
    NoteModel.lookup id db = Some note ->
    Note.validate note = true ->
    (forall m, In m (notes db) -> Note._id m <> id ->
               Note.shareToken m <> Some oldToken) ->
    (forall m, In m (notes db) -> Note._id m <> id ->
               Note.shareToken m <> Some newToken) ->
    newToken <> oldToken ->
    (forall expiry, linkExpiry now expiresIn = Some expiry ->
                    (Z.abs expiry <= 8640000000000000)%Z) ->
    (exists db',
       revokeShareLink now (Note.userId note) id db
       = (inr "Share link revoked", db')
       /\ getSharedNote later oldToken db'
          = (inl (mkError 404 "Shared note not found"), db'))
    /\
    (exists db',
       generateShareLink now (Note.userId note) id newToken expiresIn db
       = (inr (newToken, linkExpiry now expiresIn), db')
       /\ getSharedNote later oldToken db'
          = (inl (mkError 404 "Shared note not found"), db')).
Proof.
  intros now later id oldToken newToken expiresIn db note
         Hnd Hl Hv Hold Hnew Hne Hvalid.
  pose proof (lookup_id _ _ _ Hl) as Hid. split.
  - set (revoked := Note.set_shareTokenExpiry None
                      (Note.set_shareToken None note)).
    assert (Hrun : revokeShareLink now (Note.userId note) id db
                   = (NoteModel.save now revoked ;;; ret "Share link revoked") db).
    { unfold revokeShareLink. unfold bind at 1. unfold NoteModel.findById at 1.
      rewrite Hl. unfold bind at 1. rewrite Nat.eqb_refl. reflexivity. }
    assert (Hl0 : NoteModel.lookup (Note._id revoked) db = Some note)
      by (simpl; now rewrite Hid).
    rewrite Hrun. unfold bind.
    destruct (Note.eq_dec revoked note) as [E | E].
    + rewrite (save_unmodified now revoked db Hv) by (now rewrite Hl0, E).
      exists db. split; [reflexivity|].
      unfold getSharedNote, bind, NoteModel.findOneByShareToken.
      rewrite (find_holdsToken_none oldToken id db note Hnd Hl Hold);
        [reflexivity|].
      rewrite <- E. discriminate.
    + rewrite (save_valid now revoked db note Hv Hl0 E).
      eexists. split; [reflexivity|].
      unfold getSharedNote, bind, NoteModel.findOneByShareToken.
      unfold with_notes at 1. cbn [notes].
      rewrite find_holdsToken_replace_none; [reflexivity| |discriminate].
      intros m Hm Hd. apply Hold; [exact Hm|]. now rewrite <- Hid.
  - rewrite (generateShareLink_run now id newToken expiresIn db note Hl
               Hnew Hvalid).
    set (issued := Note.set_shareTokenExpiry _ _).
    assert (Hl0 : NoteModel.lookup (Note._id issued) db = Some note)
      by (simpl; now rewrite Hid).
    unfold bind.
    destruct (Note.eq_dec issued note) as [E | E].
    + rewrite (save_unmodified now issued db Hv) by (now rewrite Hl0, E).
      exists db. split; [reflexivity|].
      unfold getSharedNote, bind, NoteModel.findOneByShareToken.
      rewrite (find_holdsToken_none oldToken id db note Hnd Hl Hold);
        [reflexivity|].
      rewrite <- E. simpl. congruence.
    + rewrite (save_valid now issued db note Hv Hl0 E).
      eexists. split; [reflexivity|].
      unfold getSharedNote, bind, NoteModel.findOneByShareToken.
      unfold with_notes at 1. cbn [notes].
      rewrite find_holdsToken_replace_none; [reflexivity| |].
      * intros m Hm Hd. apply Hold; [exact Hm|]. now rewrite <- Hid.
      * simpl. congruence.
Qed.

Lemma issued_link_resolves_until_expiry_witness :
  (exists db' note',
     generateShareLink 5000%Z 1 0 "beef" (Some 2%Z) sharedDB
     = (inr ("beef", Some 7205000%Z), db')
     /\ NoteModel.lookup 0 db' = Some note'
     /\ getSharedNote 7205000%Z "beef" db' = (inr (projection note' alice), db')
     /\ getSharedNote 7205001%Z "beef" db'
        = (inl (mkError 410 "Share link has expired"), db'))
  /\ generateShareLink 5000%Z 1 0 "beef" (Some 2500000000%Z) sharedDB
     = (inl (mkError 500 "ValidationError"), sharedDB).
Proof.
  split.
  - destruct (issued_link_resolves_until_expiry 5000%Z 0 "beef" (Some 2%Z)
                sharedDB sharedNote alice eq_refl eq_refl) as [_ H].
    + intros m [<- | []] Hne. simpl in Hne. congruence.
    + reflexivity.
    + destruct H as (db' & note' & Hrun & Hl & Hres & _).
      { intros expiry [= <-]. simpl. lia. }
      exists db', note'. split; [exact Hrun|]. split; [exact Hl|].
      split; [exact (Hres 7205000%Z)|exact (Hres 7205001%Z)].
  - destruct (issued_link_resolves_until_expiry 5000%Z 0 "beef"
                (Some 2500000000%Z) sharedDB sharedNote alice eq_refl eq_refl)
      as [H _].
    + intros m [<- | []] Hne. simpl in Hne. congruence.
    + reflexivity.
    + apply (H 9000000000005000%Z); [reflexivity|simpl; lia].
Defined.

Lemma old_link_stops_resolving_witness :
  (exists db',
     revokeShareLink 5000%Z 1 0 linkDB = (inr "Share link revoked", db')
     /\ getSharedNote 6000%Z "c0ffee" db'
        = (inl (mkError 404 "Shared note not found"), db'))
  /\ (exists db',
        generateShareLink 5000%Z 1 0 "beef" None linkDB
        = (inr ("beef", None), db')
        /\ getSharedNote 6000%Z "c0ffee" db'
           = (inl (mkError 404 "Shared note not found"), db')).
Proof.
  apply (old_link_stops_resolving 5000%Z 6000%Z 0 "c0ffee" "beef" None linkDB
           linkNote).
  - simpl. repeat constructor. simpl. tauto.
  - reflexivity.
  - reflexivity.
  - intros m [<- | []] Hne. simpl in Hne. congruence.
  - intros m [<- | []]. discriminate.
  - discriminate.
  - discriminate.
Defined.

(** ** What a user who is not the owner cannot do *)

Section OwnerOnly.

Variable regexTest : string -> option (string -> bool).
Variable uploadToCloudinary : string -> string -> string -> option (string * string).

(** Every endpoint that changes a note, except the answer to a share
    request, refuses a caller who is not the owner of the note, whatever
    grant the caller holds, and leaves the database as it was: deleting,
    taking and restoring snapshots, sharing and unsharing, issuing and
    revoking the link, uploading an attachment. *)
Theorem non_owner_cannot_change_note :
  forall now caller id db note,
    NoteModel.lookup id db = Some note ->
    caller <> Note.userId note ->
    deleteNote caller id db
    = (inl (mkError 403 "Not authorized to delete this note"), db)
    /\ createVersion now caller id db = (inl (mkError 403 "Not authorized"), db)
    /\ (forall versionId,
          restoreVersion now caller id versionId db
          = (inl (mkError 403 "Only note owner can restore versions"), db))
    /\ (forall userId,
          removeShare now caller id userId db
          = (inl (mkError 403 "Not authorized"), db))
    /\ (forall token expiresIn,
          generateShareLink now caller id token expiresIn db
          = (inl (mkError 403 "Not authorized to share this note"), db))
    /\ revokeShareLink now caller id db = (inl (mkError 403 "Not authorized"), db)
    /\ (forall file,
          uploadAttachment uploadToCloudinary now caller id file db
          = (inl (mkError 403 "Not authorized to modify this note"), db))
    /\ (forall email permission,
          exists e,
            shareNote regexTest now caller id email permission db = (inl e, db)
            /\ (statusCode e = 400 \/ statusCode e = 403)).
Proof.
  intros now caller id db note Hl Hne.
  assert (E : (Note.userId note =? caller) = false)
    by (apply Nat.eqb_neq; congruence).
  do 7 (split; [intros;
    unfold deleteNote, createVersion, restoreVersion, removeShare,
      generateShareLink, revokeShareLink, uploadAttachment,
      bind, NoteModel.findById;
    rewrite Hl; cbn [throwIf]; rewrite E; reflexivity|]).
  intros email permission. unfold shareNote, bind.
  destruct (String.eqb (orElse email "") "") eqn:Ee; cbn [throwIf throw ret].
  { eexists. split; [reflexivity|]. now left. }
  destruct (parsePermission permission) as [p|].
  2: { eexists. split; [reflexivity|]. now left. }
  unfold NoteModel.findById. rewrite Hl. cbn [throwIf]. rewrite E.
  eexists. split; [reflexivity|]. now right.
Qed.

End OwnerOnly.

Lemma non_owner_cannot_change_note_witness :
  deleteNote 2 0 sharedDB
  = (inl (mkError 403 "Not authorized to delete this note"), sharedDB)
  /\ createVersion 4000%Z 2 0 sharedDB
     = (inl (mkError 403 "Not authorized"), sharedDB)
  /\ restoreVersion 4000%Z 2 0 7 sharedDB
     = (inl (mkError 403 "Only note owner can restore versions"), sharedDB)
  /\ removeShare 4000%Z 2 0 2 sharedDB
     = (inl (mkError 403 "Not authorized"), sharedDB).
Proof.
  destruct (non_owner_cannot_change_note exactMatch (fun _ _ _ => None)
              4000%Z 2 0 sharedDB sharedNote eq_refl)
    as (H1 & H2 & H3 & H4 & _).
  - simpl. lia.
  - split; [exact H1|]. split; [exact H2|].
    split; [exact (H3 7)|exact (H4 2)].
Defined.

(** ** Revoking a grant *)

Lemma find_filter_other {A} (p q : A -> bool) l :
  (forall x, p x = true -> q x = true) ->
  find p (filter q l) = find p l.
Proof.
  intros H. induction l as [|x l IH]; simpl; [reflexivity|].
  destruct (q x) eqn:Eq; simpl.
  - destruct (p x); [reflexivity|exact IH].
  - destruct (p x) eqn:Ep; [|exact IH]. apply H in Ep. congruence.
Qed.

Lemma find_filter_negb {A} (p : A -> bool) l :
  find p (filter (fun x => negb (p x)) l) = None.
Proof.
  induction l as [|x l IH]; simpl; [reflexivity|].
  destruct (p x) eqn:E; simpl; [exact IH|]. now rewrite E.
Qed.

Lemma filter_all {A} (p : A -> bool) l :
  (forall x, In x l -> p x = true) -> filter p l = l.
Proof.
  induction l as [|x l IH]; simpl; intros H; [reflexivity|].
  rewrite (H x (or_introl eq_refl)). f_equal. apply IH. auto.
Qed.

(** removeShare by the owner takes every grant of the named user out of
    sharedWith and keeps the grants of all other users, in their order;
    the user then has no access to the versions unless the user is the
    owner.  Removing a user who holds no grant succeeds and leaves
    sharedWith as it was. *)
Theorem removeShare_revokes :
  forall now id userId db note,
    NoteModel.lookup id db = Some note ->
    Note.validate note = true ->
    exists db' note',
      removeShare now (Note.userId note) id userId db
      = (inr "Share access removed", db')
      /\ NoteModel.lookup id db' = Some note'
      /\ grantOf userId note' = None
      /\ (userId <> Note.userId note -> hasAccess userId note' = false)
      /\ (forall other, other <> userId ->
            grantOf other note' = grantOf other note)
      /\ (grantOf userId note = None ->
          Note.sharedWith note' = Note.sharedWith note).
Proof.
  intros now id userId db note Hl Hv. pose proof (lookup_id _ _ _ Hl) as Hid.
  set (kept := filter (fun share => negb (Share.userId share =? userId))
                      (Note.sharedWith note)).
  set (removed := Note.set_sharedWith kept note).
  assert (Hrun : removeShare now (Note.userId note) id userId db
                 = (NoteModel.save now removed ;;; ret "Share access removed") db).
  { unfold removeShare. unfold bind at 1. unfold NoteModel.findById at 1.
    rewrite Hl. unfold bind at 1. rewrite Nat.eqb_refl. reflexivity. }
  assert (Hl0 : NoteModel.lookup (Note._id removed) db = Some note)
    by (simpl; now rewrite Hid).
  (* what holds of a note whose grants are the kept ones *)
  assert (Hfacts : forall note',
            Note.sharedWith note' = kept ->
            Note.userId note' = Note.userId note ->
            grantOf userId note' = None
            /\ (userId <> Note.userId note -> hasAccess userId note' = false)
            /\ (forall other, other <> userId ->
                  grantOf other note' = grantOf other note)
            /\ (grantOf userId note = None ->
                Note.sharedWith note' = Note.sharedWith note)).
  { intros note' Hs Hu.
    assert (Hnone : grantOf userId note' = None).
    { unfold grantOf. rewrite Hs. apply find_filter_negb. }
    split; [exact Hnone|]. split; [|split].
    - intros Hne. unfold hasAccess. rewrite Hu.
      assert (E : (Note.userId note =? userId) = false)
        by (apply Nat.eqb_neq; congruence).
      rewrite E. simpl. apply find_none_existsb. exact Hnone.
    - intros other Hne. unfold grantOf. rewrite Hs. apply find_filter_other.
      intros x Hx. apply Nat.eqb_eq in Hx. apply negb_true_iff.
      apply Nat.eqb_neq. congruence.
    - intros Hno. rewrite Hs. apply filter_all. intros x Hx.
      unfold grantOf in Hno. apply (find_none _ _ Hno) in Hx.
      now rewrite Hx. }
  rewrite Hrun. unfold bind.
  destruct (Note.eq_dec removed note) as [E | E].
  - (* the user held no grant: nothing is written *)
    exists db, note.
    rewrite (save_unmodified now removed db Hv) by (now rewrite Hl0, E).
    split; [reflexivity|]. split; [exact Hl|].
    apply Hfacts; [|reflexivity].
    apply (f_equal Note.sharedWith) in E. now symmetry.
  - exists (snd (NoteModel.save now removed db)), (Note.set_updatedAt now removed).
    rewrite (save_valid now removed db note Hv Hl0 E).
    split; [reflexivity|]. split.
    + unfold NoteModel.lookup. simpl. rewrite <- Hid.
      apply (find_replace (Note.set_updatedAt now removed) (notes db) note).
      unfold NoteModel.lookup in Hl. simpl. now rewrite Hid.
    + apply Hfacts; reflexivity.
Qed.

Lemma removeShare_revokes_witness :
  exists db' note',
    removeShare 4000%Z 1 0 2 sharedDB = (inr "Share access removed", db')
    /\ NoteModel.lookup 0 db' = Some note'
    /\ grantOf 2 note' = None
    /\ hasAccess 2 note' = false.
Proof.
  destruct (removeShare_revokes 4000%Z 0 2 sharedDB sharedNote eq_refl eq_refl)
    as (db' & note' & Hrun & Hl & Hg & Ha & _).
  exists db', note'. split; [exact Hrun|]. split; [exact Hl|].
  split; [exact Hg|]. apply Ha. simpl. lia.
Defined.

(** ** Reading the version archive *)

Lemma sortNewestFirst_sortBy vs : sortNewestFirst vs = sortBy newerFirst vs.
Proof.
  unfold sortNewestFirst, sortBy. induction vs as [|v vs IH]; simpl;
    [reflexivity|].
  rewrite IH. generalize (fold_right (insertBy newerFirst) [] vs).
  intros l. induction l as [|w l IHl]; simpl; [reflexivity|].
  unfold newerFirst at 1. now rewrite IHl.
Qed.

Lemma newerFirst_asym a b : newerFirst a b = true -> newerFirst b a = false.
Proof.
  unfold newerFirst. intros H. apply Z.ltb_lt in H. apply Z.ltb_ge. lia.
Qed.

Lemma newerFirst_trans a b c :
  inOrder newerFirst a b -> inOrder newerFirst b c -> inOrder newerFirst a c.
Proof.
  unfold inOrder, newerFirst. intros H1 H2.
  apply Z.ltb_ge in H1. apply Z.ltb_ge in H2. apply Z.ltb_ge. lia.
Qed.

Lemma nth_error_firstn_some {A} n (l : list A) i a :
  nth_error (firstn n l) i = Some a -> nth_error l i = Some a.
Proof.
  revert l i. induction n as [|n IH]; intros l i; simpl.
  - destruct i; discriminate.
  - destruct l as [|x l]; [destruct i; discriminate|].
    destruct i as [|i]; simpl; [auto|apply IH].
Qed.

Lemma In_firstn {A} n (l : list A) a : In a (firstn n l) -> In a l.
Proof.
  revert l. induction n as [|n IH]; intros l; simpl; [contradiction|].
  destruct l as [|x l]; [contradiction|]. intros [-> | H]; [now left|].
  right. now apply IH.
Qed.

(** getVersionHistory answers a caller who has access with summaries of
    versions of that note only, the newest first, at most 20 of them, and
    all of them when the note has no more than 20.  Nothing is
    written. *)
Theorem getVersionHistory_newest_first :
  forall caller id db note,
    NoteModel.lookup id db = Some note ->
    hasAccess caller note = true ->
    exists summaries,
      getVersionHistory caller id db = (inr summaries, db)
      /\ List.length summaries = Nat.min 20 (versionCount id db)
      /\ (forall s, In s summaries ->
            exists v, In v (versions db) /\ NoteVersion.noteId v = id
                      /\ s = summarize v)
      /\ (forall i j a b, i < j ->
            nth_error summaries i = Some a -> nth_error summaries j = Some b ->
            (summary_createdAt b <= summary_createdAt a)%Z)
      /\ (versionCount id db <= 20 ->
          Permutation summaries
            (map summarize (filter (ofNote id) (versions db)))).
Proof.
  intros caller id db note Hl Ha. pose proof (lookup_id _ _ _ Hl) as Hid.
  set (mine := filter (ofNote id) (versions db)).
  set (sorted := sortBy newerFirst mine).
  assert (Hperm : Permutation mine sorted) by apply sortBy_perm.
  assert (Hsorted : StronglySorted (inOrder newerFirst) sorted).
  { apply sortBy_sorted; [apply newerFirst_asym|apply newerFirst_trans]. }
  exists (map summarize (firstn 20 sorted)). split.
  - unfold getVersionHistory, bind, NoteModel.findById, findByNote.
    rewrite Hl. cbn [throwIf]. rewrite Ha. cbn [negb throwIf ret].
    rewrite Hid. fold mine. now rewrite sortNewestFirst_sortBy.
  - split.
    { rewrite length_map, length_firstn.
      rewrite <- (Permutation_length Hperm). reflexivity. }
    split.
    { intros s Hs. apply in_map_iff in Hs. destruct Hs as (v & <- & Hv).
      apply In_firstn in Hv.
      apply (Permutation_in _ (Permutation_sym Hperm)) in Hv.
      apply filter_In in Hv. destruct Hv as [Hin Hn].
      exists v. split; [exact Hin|]. split; [|reflexivity].
      now apply Nat.eqb_eq. }
    split.
    { intros i j a b Hij Hi Hj. rewrite nth_error_map in Hi, Hj.
      destruct (nth_error (firstn 20 sorted) i) as [v|] eqn:Ev; [|discriminate].
      destruct (nth_error (firstn 20 sorted) j) as [w|] eqn:Ew; [|discriminate].
      injection Hi as <-. injection Hj as <-.
      apply nth_error_firstn_some in Ev, Ew.
      pose proof (StronglySorted_nth _ _ Hsorted i j v w Hij Ev Ew) as Ho.
      unfold inOrder, newerFirst in Ho. apply Z.ltb_ge in Ho. exact Ho. }
    intros Hle. apply Permutation_map.
    rewrite firstn_all2; [now apply Permutation_sym|].
    rewrite <- (Permutation_length Hperm). exact Hle.
Qed.

Lemma getVersionHistory_newest_first_witness :
  exists summaries,
    getVersionHistory 1 0 fullDB = (inr summaries, fullDB)
    /\ List.length summaries = 20
    /\ map summary_createdAt (firstn 3 summaries) = [2020%Z; 2019%Z; 2018%Z].
Proof.
  assert (Hl : NoteModel.lookup 0 fullDB
               = Some (Note.mk 0 "Plan" "draft" 1 false false [] [] None
                         reminder_none [] None None 1000%Z 1000%Z))
    by reflexivity.
  destruct (getVersionHistory_newest_first 1 0 fullDB _ Hl eq_refl)
    as (summaries & Hrun & Hlen & _).
  exists summaries. split; [exact Hrun|]. split; [exact Hlen|].
  vm_compute in Hrun. injection Hrun as <-. reflexivity.
Defined.

(** getVersion and restoreVersion reach the versions of the note in the
    path and no other: what getVersion returns is a stored version with
    the asked id whose noteId is that note, and an id that belongs to a
    version of another note is answered 404 by both. *)
Theorem versions_are_read_through_their_note :
  forall now caller id versionId db note,
    NoteModel.lookup id db = Some note ->
    hasAccess caller note = true ->
    (forall v db',
       getVersion caller id versionId db = (inr v, db') ->
       db' = db /\ In v (versions db)
       /\ NoteVersion._id v = versionId /\ NoteVersion.noteId v = id)
    /\
    ((forall v, In v (versions db) -> NoteVersion._id v = versionId ->
                NoteVersion.noteId v <> id) ->
     getVersion caller id versionId db
     = (inl (mkError 404 "Version not found"), db)
     /\ restoreVersion now (Note.userId note) id versionId db
        = (inl (mkError 404 "Version not found"), db)).
Proof.
  intros now caller id versionId db note Hl Ha.
  pose proof (lookup_id _ _ _ Hl) as Hid.
  assert (Hrun : getVersion caller id versionId db
                 = match NoteVersionModel.lookup versionId id db with
                   | Some v => (inr v, db)
                   | None => (inl (mkError 404 "Version not found"), db)
                   end).
  { unfold getVersion, bind, NoteModel.findById, findOne. rewrite Hl.
    cbn [throwIf]. rewrite Ha. cbn [negb throwIf ret]. rewrite Hid.
    now destruct (NoteVersionModel.lookup versionId id db). }
  split.
  - intros v db' Hv. rewrite Hrun in Hv.
    destruct (NoteVersionModel.lookup versionId id db) as [w|] eqn:Hw;
      [|discriminate].
    injection Hv as <- <-. unfold lookup in Hw. apply find_some in Hw.
    destruct Hw as [Hin Hb]. apply andb_true_iff in Hb.
    destruct Hb as [H1 H2]. apply Nat.eqb_eq in H1, H2. auto.
  - intros Hother.
    assert (Hnone : NoteVersionModel.lookup versionId id db = None).
    { destruct (NoteVersionModel.lookup versionId id db) as [w|] eqn:Hw;
        [|reflexivity].
      unfold lookup in Hw. apply find_some in Hw. destruct Hw as [Hin Hb].
      apply andb_true_iff in Hb. destruct Hb as [H1 H2].
      apply Nat.eqb_eq in H1, H2. now apply Hother in Hin. }
    split; [now rewrite Hrun, Hnone|].
    now apply restoreVersion_no_version.
Qed.

Lemma versions_are_read_through_their_note_witness :
  getVersion 1 0 3 archiveDB = (inl (mkError 404 "Version not found"), archiveDB)
  /\ restoreVersion 3000%Z 1 0 3 archiveDB
     = (inl (mkError 404 "Version not found"), archiveDB)
  /\ NoteVersionModel.lookup 3 2 archiveDB
     = Some (NoteVersion.mk 3 2 "Diary" "private" [] 1 2 2500%Z).
Proof.
  assert (Hl : NoteModel.lookup 0 archiveDB
               = Some (Note.mk 0 "Plan" "draft" 1 false false [] [] None
                         reminder_none [] None None 1000%Z 1000%Z))
    by reflexivity.
  destruct (versions_are_read_through_their_note 3000%Z 1 0 3 archiveDB _ Hl
              eq_refl) as [_ H].
  assert (Hother : forall v, In v (versions archiveDB) ->
                     NoteVersion._id v = 3 -> NoteVersion.noteId v <> 0).
  { intros v [<- | [<- | []]]; simpl; intros; discriminate. }
  destruct (H Hother) as [H1 H2].
  split; [exact H1|]. split; [exact H2|reflexivity].
Defined.

(** ** Creating a note *)

Lemma wf_sharedDB : wf sharedDB.
Proof.
  apply (reachable_wf exactMatch (fun _ _ => true)).
  apply (reachable_run exactMatch (fun _ _ => true)
           [ CreateNote 1000%Z 1 (Some "Plan") (Some "draft") None;
             ShareNote 2000%Z 1 0 (Some "bob@example.com") (Some "edit");
             RespondToShareRequest 3000%Z 2 0 (Some "accepted") ] emptyDB).
  apply reachable_init.
Qed.

Lemma length_eqb_0 (s : text) : (List.length s =? 0) = isEmptyString s.
Proof. now destruct s. Qed.

Lemma isEmptyString_true (s : text) : isEmptyString s = true <-> s = "".
Proof. destruct s; simpl; split; intros H; try reflexivity; discriminate. Qed.

Lemma isEmptyString_false (s : text) : isEmptyString s = false <-> s <> "".
Proof.
  destruct s; simpl; split; intros H; try reflexivity; try discriminate.
  now contradiction H.
Qed.

Lemma find_app {A} (p : A -> bool) l l' :
  find p (l ++ l')
  = match find p l with Some a => Some a | None => find p l' end.
Proof.
  induction l as [|x l IH]; simpl; [reflexivity|]. now destruct (p x).
Qed.

Lemma lookup_fresh db :
  Forall (fun n => Note._id n < nextId db) (notes db) ->
  NoteModel.lookup (nextId db) db = None.
Proof.
  unfold NoteModel.lookup. intros H. induction H as [|n l Hn _ IH]; simpl;
    [reflexivity|].
  destruct (Nat.eqb_spec (Note._id n) (nextId db)) as [E|_]; [lia|exact IH].
Qed.

(** createNote answers 400 to a missing or empty title and 500 to a title
    that is blank once trimmed (of white space, U+00A0 included), longer
    than 200 code units, or sent with more than 10 tags; in both cases
    nothing is stored.  Otherwise it
    stores one note under a fresh id, with trimmed title and content,
    owned by the caller, unpinned, unarchived, unshared, without link or
    reminder; getNoteById then returns it to the caller and answers 403 to
    anyone else, and no other note or version has changed. *)
Theorem createNote_outcomes :
  forall now caller (title content : option text) tags db,
    wf db ->
    let t := trim (orElse title "") in
    let tg := ifDefined tags [] in
    (orElse title "" = "" ->
     createNote now caller title content tags db
     = (inl (mkError 400 "Please provide a title"), db))
    /\
    (orElse title "" <> "" ->
     t = "" \/ 200 < List.length t \/ 10 < List.length tg ->
     createNote now caller title content tags db
     = (inl (mkError 500 "ValidationError"), db))
    /\
    (t <> "" -> List.length t <= 200 -> List.length tg <= 10 ->
     exists db',
       let n := Note.mk (nextId db) t (trim (orElse content "")) caller
                        false false tg [] None reminder_none [] None None
                        now now in
       createNote now caller title content tags db = (inr n, db')
       /\ getNoteById caller (nextId db) db' = (inr n, db')
       /\ (forall other, other <> caller ->
             getNoteById other (nextId db) db'
             = (inl (mkError 403 "Not authorized to access this note"), db'))
       /\ (forall id, id <> nextId db ->
             NoteModel.lookup id db' = NoteModel.lookup id db)
       /\ versions db' = versions db).
Proof.
  intros now caller title content tags db (_ & Hlt & _ & _) t tg.
  assert (Hrun : orElse title "" <> "" ->
            createNote now caller title content tags db
            = NoteModel.create now caller (orElse title "") (orElse content "")
                               tg db).
  { intros Hne. apply isEmptyString_false in Hne.
    unfold createNote, bind. rewrite Hne. reflexivity. }
  split; [|split].
  - intros He. unfold createNote, bind. rewrite He. reflexivity.
  - intros Hne Hbad. rewrite (Hrun Hne).
    unfold NoteModel.create, fresh, Note.validate. cbn [Note.title Note.tags].
    fold t. rewrite length_eqb_0.
    destruct Hbad as [E | [E | E]].
    + rewrite E. reflexivity.
    + apply Nat.leb_gt in E. rewrite E. now rewrite andb_false_r.
    + apply Nat.leb_gt in E. rewrite E. now rewrite andb_false_r.
  - intros Hne Hlen Htags.
    assert (Htitle : orElse title "" <> "").
    { intros E. apply Hne. unfold t. now rewrite E. }
    set (n := Note.mk (nextId db) t (trim (orElse content "")) caller
                      false false tg [] None reminder_none [] None None
                      now now).
    exists (mkDB (notes db ++ [n]) (versions db) (users db) (S (nextId db))).
    assert (Hfind : NoteModel.lookup (nextId db)
                      (mkDB (notes db ++ [n]) (versions db) (users db)
                            (S (nextId db))) = Some n).
    { unfold NoteModel.lookup. cbn [notes]. apply find_app_last.
      - exact (lookup_fresh db Hlt).
      - cbn [Note._id n]. apply Nat.eqb_refl. }
    cbv zeta. fold n. split.
    { rewrite (Hrun Htitle). unfold NoteModel.create, fresh, Note.validate.
      cbn [Note.title Note.tags]. fold t. rewrite length_eqb_0.
      apply isEmptyString_false in Hne. rewrite Hne.
      apply Nat.leb_le in Hlen, Htags. rewrite Hlen, Htags. reflexivity. }
    split.
    { unfold getNoteById, bind, NoteModel.findById. rewrite Hfind.
      cbn [Note.userId n]. rewrite Nat.eqb_refl. reflexivity. }
    split.
    { intros other Ho. now apply getNoteById_not_owner with (note := n). }
    split; [|reflexivity].
    intros id Hid. unfold NoteModel.lookup. cbn [notes]. rewrite find_app.
    destruct (find _ (notes db)); [reflexivity|].
    simpl. destruct (Nat.eqb_spec (nextId db) id) as [E|_]; [congruence|].
    reflexivity.
Qed.

Lemma createNote_outcomes_witness :
  createNote 4000%Z 2 (Some "   ") (Some "x") None sharedDB
  = (inl (mkError 500 "ValidationError"), sharedDB)
  /\ createNote 4000%Z 2 (Some nbspOnly) (Some "x") None sharedDB
     = (inl (mkError 500 "ValidationError"), sharedDB)
  /\ (exists db',
        createNote 4000%Z 2 (Some seventyEuroSigns) None None sharedDB
        = (inr (Note.mk 1 seventyEuroSigns "" 2 false false [] [] None
                        reminder_none [] None None 4000%Z 4000%Z), db'))
  /\ exists db',
       createNote 4000%Z 2 (Some " Milk ") None None sharedDB
       = (inr (Note.mk 1 "Milk" "" 2 false false [] [] None reminder_none
                       [] None None 4000%Z 4000%Z), db')
       /\ getNoteById 1 1 db'
          = (inl (mkError 403 "Not authorized to access this note"), db').
Proof.
  pose proof wf_sharedDB as Hwf.
  split; [|split; [|split]].
  - apply (createNote_outcomes 4000%Z 2 (Some "   ") (Some "x") None sharedDB
             Hwf); [discriminate|left; reflexivity].
  - apply (createNote_outcomes 4000%Z 2 (Some nbspOnly) (Some "x") None
             sharedDB Hwf); [discriminate|left; reflexivity].
  - destruct (createNote_outcomes 4000%Z 2 (Some seventyEuroSigns) None None
                sharedDB Hwf) as (_ & _ & H).
    destruct (H ltac:(discriminate) ltac:(vm_compute; lia)
                ltac:(simpl; lia)) as (db' & Hc & _).
    exists db'. exact Hc.
  - destruct (createNote_outcomes 4000%Z 2 (Some " Milk ") None None sharedDB
                Hwf) as (_ & _ & H).
    destruct (H ltac:(discriminate) ltac:(vm_compute; lia)
                ltac:(simpl; lia)) as (db' & Hc & _ & Ho & _).
    exists db'. split; [exact Hc|]. apply (Ho 1). discriminate.
Defined.

(** ** Successive sweeps of the reminder scheduler *)









(** ** Attachments *)

Section Attachments.

Variable uploadToCloudinary : string -> string -> string -> option (string * string).

Lemma resourceType_upload file aid url pid :
  resourceType
    (Attachment.mk aid url pid
       (if String.prefix "image/" (file_mimetype file) then image else document)
       (file_originalname file) (file_size file))
  = uploadResourceType file.
Proof.
  unfold resourceType, uploadResourceType. cbn [Attachment.type].
  now destruct (String.prefix "image/" (file_mimetype file)).
Qed.

(** An upload by the owner of a valid note.  When the storage call throws
    the answer is 500 and nothing is written.  When it resolves, one
    attachment is appended to the note, under a fresh _id and of type
    image exactly when the
    mimetype starts with image/, and every other note is left alone; when
    the owner deletes the note afterwards, the storage deletion issued for
    that file names the public id and the resource type of the upload, and
    comes after those of the older attachments. *)
Theorem upload_then_delete :
  forall now caller id file db note,
    NoteModel.lookup id db = Some note ->
    Note.userId note = caller ->
    Note.validate note = true ->
    match uploadToCloudinary (file_path file) "notes-app"
                             (uploadResourceType file) with
    | None =>
        uploadAttachment uploadToCloudinary now caller id (Some file) db
        = (inl (mkError 500 "File upload failed"), db)
    | Some (url, pid) =>
        let a := Attachment.mk (nextId db) url pid
                   (if String.prefix "image/" (file_mimetype file)
                    then image else document)
                   (file_originalname file) (file_size file) in
        exists db' calls db'',
          uploadAttachment uploadToCloudinary now caller id (Some file) db
          = (inr a, db')
          /\ NoteModel.lookup id db'
             = Some (Note.set_updatedAt now (pushAttachment a note))
          /\ (forall other, other <> id ->
                NoteModel.lookup other db' = NoteModel.lookup other db)
          /\ versions db' = versions db
          /\ deleteNote caller id db' = (inr calls, db'')
          /\ calls
             = map (fun b => (Attachment.publicId b, resourceType b))
                   (Note.attachments note)
               ++ [(pid, uploadResourceType file)]
          /\ NoteModel.lookup id db'' = None
    end.
Proof.
  intros now caller id file db note Hl Ho Hv.
  pose proof (lookup_id _ _ _ Hl) as Hid.
  assert (E : (Note.userId note =? caller) = true) by now apply Nat.eqb_eq.
  destruct (uploadToCloudinary _ _ _) as [[url pid]|] eqn:Hup.
  2: { unfold uploadAttachment, bind, NoteModel.findById. rewrite Hl.
       cbn [throwIf]. rewrite E. cbn [negb]. now rewrite Hup. }
  cbv zeta.
  set (a := Attachment.mk (nextId db) url pid _ _ _).
  set (db1 := snd (fresh db)).
  assert (Hv' : Note.validate (pushAttachment a note) = true) by exact Hv.
  assert (Hid' : Note._id (pushAttachment a note) = id) by exact Hid.
  assert (Hl1 : NoteModel.lookup (Note._id (pushAttachment a note)) db1
                = Some note) by (rewrite Hid'; exact Hl).
  assert (Hmod : pushAttachment a note <> note).
  { intros Eq. apply (f_equal Note.attachments) in Eq. simpl in Eq.
    now apply app_cons_neq in Eq. }
  set (db' := snd (NoteModel.save now (pushAttachment a note) db1)).
  assert (Hl' : NoteModel.lookup id db'
                = Some (Note.set_updatedAt now (pushAttachment a note))).
  { unfold db'. rewrite <- Hid'. apply lookup_after_save with (old := note);
      [exact Hl1|exact Hv'|exact Hmod]. }
  exists db'. do 2 eexists. split.
  { unfold uploadAttachment, bind, NoteModel.findById. rewrite Hl.
    cbn [throwIf]. rewrite E. cbn [negb throwIf ret]. rewrite Hup.
    unfold newObjectId. cbn [fst fresh]. fold a. fold db1.
    unfold db'.
    rewrite (save_valid now (pushAttachment a note) db1 note Hv' Hl1 Hmod).
    reflexivity. }
  split; [exact Hl'|]. split.
  { intros other Hne. unfold db'. rewrite lookup_save_other; [reflexivity|].
    now rewrite Hid'. }
  split.
  { unfold db'. now rewrite save_versions. }
  split.
  { unfold deleteNote, bind, NoteModel.findById. rewrite Hl'.
    cbn [throwIf Note.userId Note.set_updatedAt pushAttachment].
    rewrite E. cbn [negb]. reflexivity. }
  split.
  { cbn [Note.attachments Note.set_updatedAt pushAttachment].
    rewrite map_app. cbn [map]. unfold a at 1. cbn [Attachment.publicId].
    unfold a. now rewrite resourceType_upload. }
  cbn [snd]. unfold NoteModel.deleteOne, NoteModel.lookup.
  cbn [Note._id Note.set_updatedAt pushAttachment].
  unfold with_notes. cbn [notes]. rewrite Hid. apply find_filter_out.
Qed.

End Attachments.

Lemma upload_then_delete_witness :
  exists db' db'',
    uploadAttachment storageAccepts 4000%Z 1 0 (Some catPicture) sharedDB
    = (inr (Attachment.mk 1 "https://cdn.example/notes-app/cat"
              "notes-app/cat" image "cat.png" 2048), db')
    /\ deleteNote 1 0 db' = (inr [("notes-app/cat", "image")], db'')
    /\ NoteModel.lookup 0 db'' = None.
Proof.
  destruct (upload_then_delete storageAccepts 4000%Z 1 0 catPicture sharedDB
              sharedNote eq_refl eq_refl eq_refl)
    as (db' & calls & db'' & Hup & _ & _ & _ & Hdel & Hcalls & Hgone).
  exists db', db''. split; [exact Hup|]. split; [|exact Hgone].
  rewrite Hdel, Hcalls. reflexivity.
Defined.

(** ** The scheduler switch *)

Lemma scheduler_jobs_monotone cs :
  forall s, scheduledJobs s <= scheduledJobs (fold_left schedulerCall cs s).
Proof.
  induction cs as [|c cs IH]; intros s; simpl; [lia|].
  etransitivity; [|apply IH].
  destruct c; simpl; [|lia].
  unfold startReminderScheduler. destruct (isSchedulerRunning s); simpl; lia.
Qed.

(** The jobs that startReminderScheduler schedules are never cancelled:
    over any sequence of start and stop calls their number does not
    decrease, a start while the flag is set schedules nothing, and every
    stop followed by a start schedules one more job next to the earlier
    ones. *)
Theorem stopped_scheduler_keeps_its_jobs :
  forall s,
    (forall cs, scheduledJobs s <= scheduledJobs (fold_left schedulerCall cs s))
    /\ startReminderScheduler (startReminderScheduler s)
       = startReminderScheduler s
    /\ (forall n,
          fold_left schedulerCall (List.concat (repeat [Stop; Start] n)) s
          = match n with
            | 0 => s
            | S _ => mkScheduler true (scheduledJobs s + n)
            end).
Proof.
  intros s. split; [intros cs; apply scheduler_jobs_monotone|]. split.
  - unfold startReminderScheduler.
    destruct (isSchedulerRunning s) eqn:E; [now rewrite E|reflexivity].
  - intros n. revert s. induction n as [|n IH]; intros s; [reflexivity|].
    cbn [repeat List.concat app fold_left schedulerCall].
    rewrite IH. unfold stopReminderScheduler, startReminderScheduler.
    cbn [isSchedulerRunning scheduledJobs].
    destruct n; f_equal; lia.
Qed.

(** ** One grant per user *)

Lemma userIds_updateFirst p q l :
  map Share.userId (updateFirst p (Share.set_permission q) l)
  = map Share.userId l.
Proof.
  induction l as [|s l IH]; simpl; [reflexivity|].
  destruct (p s); simpl; [reflexivity|now rewrite IH].
Qed.

Lemma userIds_acceptAt i l :
  map Share.userId (acceptAt i l) = map Share.userId l.
Proof.
  revert i. induction l as [|s l IH]; intros i; destruct i; simpl;
    try reflexivity.
  now rewrite IH.
Qed.

Lemma In_removeAt {A} i (l : list A) x : In x (removeAt i l) -> In x l.
Proof.
  revert i. induction l as [|y l IH]; intros i; destruct i; simpl; auto. intros [H | H]; [auto|]. right. now apply IH with i.
Qed.

Lemma userIds_removeAt i l u :
  In u (map Share.userId (removeAt i l)) -> In u (map Share.userId l).
Proof.
  intros H. apply in_map_iff in H. destruct H as (s & <- & Hs).
  apply in_map. now apply In_removeAt with i.
Qed.

Lemma NoDup_removeAt i l :
  NoDup (map Share.userId l) -> NoDup (map Share.userId (removeAt i l)).
Proof.
  revert i. induction l as [|s l IH]; intros i; destruct i; simpl; auto.
  - intros H. now inversion H.
  - intros H. inversion H as [|? ? Hs Hl]; subst.
    constructor; [|now apply IH].
  intros Hin. apply Hs. now apply userIds_removeAt with i.
Qed.

Lemma In_userIds_filter p l u :
  In u (map Share.userId (filter p l)) -> In u (map Share.userId l).
Proof.
  intros H. apply in_map_iff in H. destruct H as (s & <- & Hs).
  apply filter_In in Hs. apply in_map. tauto.
Qed.

Lemma find_none_userIds u l :
  find (fun s => Share.userId s =? u) l = None ->
  ~ In u (map Share.userId l).
Proof.
  intros Hf Hin. apply in_map_iff in Hin. destruct Hin as (s & Hs & Hin).
  apply (find_none _ _ Hf) in Hin. apply Nat.eqb_neq in Hin. congruence.
Qed.

Lemma save_grants now n :
  grantsOk n -> preserves allGrantsOk (NoteModel.save now n).
Proof.
  intros Hn db H.
  destruct (save_cases now n db) as [-> | [_ ->]]; [exact H|].
  unfold with_notes, allGrantsOk. cbn [notes].
  apply Forall_replace; [exact Hn|exact H].
Qed.

Lemma newObjectId_grants : preserves allGrantsOk newObjectId.
Proof. intros db H. exact H. Qed.

Lemma deleteOne_grants n : preserves allGrantsOk (NoteModel.deleteOne n).
Proof.
  intros db H. unfold NoteModel.deleteOne, allGrantsOk, with_notes.
  cbn [snd notes]. apply Forall_forall. intros m Hm. apply filter_In in Hm.
  unfold allGrantsOk in H. rewrite Forall_forall in H. now apply H.
Qed.

Lemma NoteModel_create_grants now owner title content tags :
  preserves allGrantsOk (NoteModel.create now owner title content tags).
Proof.
  intros db H. unfold NoteModel.create, fresh.
  destruct (Note.validate _); [|exact H].
  cbn [snd]. unfold with_notes, allGrantsOk. cbn [notes].
  apply Forall_app. split; [exact H|].
  constructor; [|constructor]. split; simpl; [constructor|tauto].
Qed.

Lemma create_notes now nid title content tags num by_ db :
  notes (snd (create now nid title content tags num by_ db)) = notes db.
Proof.
  destruct (NoteVersion.validate
              (NoteVersion.mk (nextId db) nid title content tags num by_ now))
    eqn:E.
  - destruct (create_valid now nid title content tags num by_ db E)
      as (vs' & Hrun & _).
    now rewrite Hrun.
  - now rewrite (create_invalid _ _ _ _ _ _ _ _ E).
Qed.

Lemma create_grants now nid title content tags num by_ :
  preserves allGrantsOk (create now nid title content tags num by_).
Proof. intros db H. unfold allGrantsOk. now rewrite create_notes. Qed.

Lemma preserves_load_grants {A} id (k : option Note.t -> M A) :
  (forall note, grantsOk note -> preserves allGrantsOk (k (Some note))) ->
  preserves allGrantsOk (k None) ->
  preserves allGrantsOk (bind (NoteModel.findById id) k).
Proof.
  intros Hsome Hnone db H. unfold bind, NoteModel.findById.
  destruct (NoteModel.lookup id db) as [note|] eqn:Hl.
  - apply Hsome; [|exact H].
    unfold allGrantsOk in H. rewrite Forall_forall in H.
    apply H. now apply lookup_In in Hl.
  - now apply Hnone.
Qed.

Lemma preserves_guard {A} I c code msg (k : unit -> M A) :
  (c = false -> preserves I (k tt)) ->
  preserves I (bind (throwIf c code msg) k).
Proof.
  intros Hk db H. unfold bind, throwIf. destruct c; [exact H|].
  now apply Hk.
Qed.

Ltac granted :=
  unfold grantsOk, applyUpdate, pushAttachment in *;
  cbn [Note.userId Note.sharedWith Note.set_title Note.set_content
       Note.set_tags Note.set_isPinned Note.set_isArchived Note.set_reminderAt
       Note.set_reminderStatus Note.set_sharedWith Note.set_shareToken
       Note.set_shareTokenExpiry Note.set_updatedAt Note.set_attachments] in *.

Ltac grants_step :=
  lazymatch goal with
  | |- preserves _ (ret _) => wf_read
  | |- preserves _ (throw _ _) => wf_read
  | |- preserves _ (serverError _) => wf_read
  | |- preserves _ (NoteModel.save _ _) => apply save_grants; granted
  | |- preserves _ (NoteModel.deleteOne _) => apply deleteOne_grants
  | |- preserves _ (NoteModel.create _ _ _ _ _) => apply NoteModel_create_grants
  | |- preserves _ (create _ _ _ _ _ _ _) => apply create_grants
  | |- preserves _ (countDocuments _) => wf_read
  | |- preserves _ (findOne _ _) => wf_read
  | |- preserves _ (findByNote _) => wf_read
  | |- preserves _ (populateOwner _) => wf_read
  | |- preserves _ (findUserByEmail _ _) => apply findUserByEmail_read
  | |- preserves _ newObjectId => apply newObjectId_grants
  | |- preserves _ (NoteModel.findOneByShareToken _) => wf_read
  | |- preserves _ (bind (NoteModel.findById _) _) =>
      apply preserves_load_grants;
        [ let note := fresh "note" in
          let Hn := fresh "Hn" in
          intros note Hn
        | ]
  | |- preserves _ (bind (throwIf _ _ _) _) =>
      apply preserves_guard; intros ?
  | |- preserves _ (bind get _) => apply preserves_get; intros ?
  | |- preserves _ (bind _ _) => apply preserves_bind; [|intros ?]
  | |- preserves _ (match ?x with _ => _ end) => destruct x eqn:?
  | |- preserves _ (let _ := _ in _) => cbv zeta
  end.

Ltac grants_steps := repeat grants_step.

Lemma processReminders_grants send now dueNotes :
  Forall grantsOk dueNotes ->
  forall log, preserves allGrantsOk (processReminders send now dueNotes log).
Proof.
  induction 1 as [|note rest Hn _ IH]; intros log db H; simpl; [exact H|].
  unfold populateOwner.
  destruct (find _ (users db)) as [owner|]; [|now apply IH].
  destruct (send _ _); apply IH; [|exact H].
  apply save_grants; [exact Hn|exact H].
Qed.

Lemma exec_grants regexTest send r :
  forall db, allGrantsOk db -> allGrantsOk (exec regexTest send r db).
Proof.
  destruct r; simpl.
  - change (preserves allGrantsOk (createNote now caller title content tags)).
    unfold createNote. grants_steps.
  - change (preserves allGrantsOk (getNoteById caller id)).
    unfold getNoteById. grants_steps.
  - change (preserves allGrantsOk (updateNote now caller id body)).
    unfold updateNote. grants_steps; assumption.
  - change (preserves allGrantsOk (deleteNote caller id)).
    unfold deleteNote. grants_steps.
  - change (preserves allGrantsOk (createVersion now caller id)).
    unfold createVersion. grants_steps.
  - change (preserves allGrantsOk (getVersionHistory caller id)).
    unfold getVersionHistory. grants_steps.
  - change (preserves allGrantsOk (getVersion caller id versionId)).
    unfold getVersion. grants_steps.
  - change (preserves allGrantsOk (restoreVersion now caller id versionId)).
    unfold restoreVersion. grants_steps; assumption.
  - change (preserves allGrantsOk
              (shareNote regexTest now caller id email permission)).
    unfold shareNote. grants_steps.
    + rewrite userIds_updateFirst. assumption.
    + destruct Hn as [Hnd Hown]. rewrite map_app. cbn [map Share.userId].
      match goal with
      | Hf : find _ (Note.sharedWith _) = None |- _ =>
          apply find_none_userIds in Hf
      end.
      split; [now apply NoDup_snoc|].
      intros Hin. apply in_app_or in Hin. destruct Hin as [Hin | [Hin | []]];
        [contradiction|].
      match goal with
      | Ho : negb (Note.userId _ =? caller) = false,
        Hs : (User._id _ =? caller) = false |- _ =>
          apply negb_false_iff, Nat.eqb_eq in Ho;
          apply Nat.eqb_neq in Hs; congruence
      end.
  - change (preserves allGrantsOk (respondToShareRequest now caller id status)).
    unfold respondToShareRequest. grants_steps.
    + destruct Hn as [Hnd Hown]. split; [now apply NoDup_removeAt|].
      intros Hin. apply Hown. eapply userIds_removeAt, Hin.
    + rewrite userIds_acceptAt. assumption.
  - change (preserves allGrantsOk (removeShare now caller id userId)).
    unfold removeShare. grants_steps.
    destruct Hn as [Hnd Hown]. split; [now apply NoDup_map_filter|].
    intros Hin. apply Hown. eapply In_userIds_filter, Hin.
  - change (preserves allGrantsOk
              (generateShareLink now caller id token expiresIn)).
    unfold generateShareLink. grants_steps; assumption.
  - change (preserves allGrantsOk (revokeShareLink now caller id)).
    unfold revokeShareLink. grants_steps; assumption.
  - change (preserves allGrantsOk (getSharedNote now token)).
    unfold getSharedNote. grants_steps.
  - change (preserves allGrantsOk
              (uploadAttachment (fun _ _ _ => stored) now caller id file)).
    unfold uploadAttachment. grants_steps; assumption.
  - change (preserves allGrantsOk (deleteAttachment now caller id attachmentId)).
    unfold deleteAttachment. grants_steps; assumption.
  - intros db H. apply processReminders_grants; [|exact H].
    unfold allGrantsOk in H. rewrite Forall_forall in *.
    intros n Hin. apply filter_In in Hin. now apply H.
  - intros db H. exact H.
Qed.

Lemma reachable_grants regexTest send db :
  reachable regexTest send db -> allGrantsOk db.
Proof.
  induction 1 as [us next | r db _ IH].
  - constructor.
  - now apply exec_grants.
Qed.

(** In every database the application reaches by serving requests one
    after another (the endpoints of the note, version and share
    controllers, the two attachment endpoints among them, and the reminder
    sweep), a user holds at most one grant on a note, and the owner of a
    note holds none on it: shareNote updates the grant that exists instead
    of adding one and refuses the owner's own address, and no other
    endpoint adds a grant. *)
Theorem one_grant_per_user :
  forall regexTest send db,
    reachable regexTest send db ->
    forall n, In n (notes db) ->
      (forall s s', In s (Note.sharedWith n) -> In s' (Note.sharedWith n) ->
                    Share.userId s = Share.userId s' -> s = s')
      /\ (forall s, In s (Note.sharedWith n) ->
                    Share.userId s <> Note.userId n).
Proof.
  intros regexTest send db Hr n Hin.
  pose proof (reachable_grants _ _ _ Hr) as H.
  unfold allGrantsOk in H. rewrite Forall_forall in H.
  destruct (H n Hin) as [Hnd Hown]. split.
  - intros s s' Hs Hs' E.
    now apply (NoDup_map_inj Share.userId (Note.sharedWith n)).
  - intros s Hs E. apply Hown. rewrite <- E. now apply in_map.
Qed.

Lemma reachable_sharedDB : reachable exactMatch (fun _ _ => true) sharedDB.
Proof.
  apply (reachable_run exactMatch (fun _ _ => true)
           [ CreateNote 1000%Z 1 (Some "Plan") (Some "draft") None;
             ShareNote 2000%Z 1 0 (Some "bob@example.com") (Some "edit");
             RespondToShareRequest 3000%Z 2 0 (Some "accepted") ] emptyDB).
  apply reachable_init.
Qed.

Lemma reachable_attachedDB :
  reachable exactMatch (fun _ _ => true) attachedDB.
Proof.
  apply (reachable_run exactMatch (fun _ _ => true) attachedRequests emptyDB).
  apply reachable_init.
Qed.

Lemma one_grant_per_user_witness :
  notes attachedDB = [attachedNote]
  /\ Share.userId (Share.mk 2 edit 2000%Z accepted) <> Note.userId attachedNote.
Proof.
  split; [reflexivity|].
  destruct (one_grant_per_user exactMatch (fun _ _ => true) attachedDB
              reachable_attachedDB attachedNote) as [_ H].
  - left. reflexivity.
  - apply H. left. reflexivity.
Defined.

(** In every database the application reaches by serving requests one
    after another (uploads and deletions of attachments among them), the
    notes have distinct ids below the next fresh id; each note has a title
    of 1 to 200 code units and at most 10 tags, and its title and content
    carry no white space (U+00A0 included) at either end; each version has
    a title and a content that are not empty.  The content of a note may
    be empty, that of a version never is. *)
Theorem stored_documents_are_valid :
  forall regexTest send db,
    reachable regexTest send db ->
    NoDup (map Note._id (notes db))
    /\ (forall n, In n (notes db) ->
          Note._id n < nextId db
          /\ Note.title n <> ""
          /\ List.length (Note.title n) <= 200
          /\ List.length (Note.tags n) <= 10
          /\ trim (Note.title n) = Note.title n
          /\ trim (Note.content n) = Note.content n)
    /\ (forall v, In v (versions db) ->
          NoteVersion.title v <> "" /\ NoteVersion.content v <> ""
          /\ List.length (NoteVersion.title v) <= 200
          /\ List.length (NoteVersion.tags v) <= 10).
Proof.
  intros regexTest send db Hr.
  destruct (reachable_wf _ _ _ Hr) as (Hnd & Hb & Hn & Hv).
  rewrite Forall_forall in Hb, Hn, Hv.
  split; [exact Hnd|]. split.
  - intros n Hin. split; [now apply Hb|].
    pose proof (Hn n Hin) as Hw.
    destruct (wfNote_fields n Hw) as [Hlen Htags].
    destruct Hw as (Hval & Ht & Hc).
    split; [|tauto].
    intros E. unfold Note.validate in Hval. rewrite E in Hval. discriminate.
  - intros v Hin. destruct (Hv v Hin) as (Hval & Hlen & Htags & _).
    unfold NoteVersion.validate in Hval. apply andb_true_iff in Hval.
    destruct Hval as [H1 H2].
    split; [intros E; rewrite E in H1; discriminate|].
    split; [intros E; rewrite E in H2; discriminate|]. tauto.
Qed.

Lemma stored_documents_are_valid_witness :
  NoDup (map Note._id (notes attachedDB))
  /\ List.length (Note.attachments attachedNote) = 1
  /\ trim (Note.title attachedNote) = Note.title attachedNote.
Proof.
  destruct (stored_documents_are_valid exactMatch (fun _ _ => true) attachedDB
              reachable_attachedDB) as (Hnd & Hn & _).
  split; [exact Hnd|]. split; [reflexivity|].
  destruct (Hn attachedNote) as (_ & _ & _ & _ & Ht & _); [|exact Ht].
  left. reflexivity.
Defined.

(** ** Undoing a restore *)

Lemma issued_of_same db db' :
  versions db' = versions db -> nextId db <= nextId db' ->
  versionIdsIssued db -> versionIdsIssued db'.
Proof.
  unfold versionIdsIssued. intros -> Hle H.
  eapply Forall_impl; [|exact H]. intros v Hv. simpl in Hv. lia.
Qed.

Lemma save_issued now n : preserves versionIdsIssued (NoteModel.save now n).
Proof.
  intros db.
  destruct (save_cases now n db) as [-> | [_ ->]]; [auto|].
  now apply issued_of_same.
Qed.

Lemma newObjectId_issued : preserves versionIdsIssued newObjectId.
Proof.
  intros db. unfold newObjectId, fresh.
  apply issued_of_same; simpl; [reflexivity|lia].
Qed.

Lemma deleteOne_issued n : preserves versionIdsIssued (NoteModel.deleteOne n).
Proof. intros db. now apply issued_of_same. Qed.

Lemma NoteModel_create_issued now owner title content tags :
  preserves versionIdsIssued (NoteModel.create now owner title content tags).
Proof.
  intros db. unfold NoteModel.create, fresh.
  destruct (Note.validate _); [|auto].
  apply issued_of_same; simpl; [reflexivity|lia].
Qed.

(** What a successful [create] leaves in the collection: versions that
    were there, followed by the new one. *)
Lemma create_kept now nid title content tags num by_ db v db1 :
  create now nid title content tags num by_ db = (inr v, db1) ->
  v = NoteVersion.mk (nextId db) nid title content tags num by_ now
  /\ nextId db1 = S (nextId db)
  /\ notes db1 = notes db
  /\ exists vs', versions db1 = vs' ++ [v]
                 /\ forall w, In w vs' -> In w (versions db).
Proof.
  intros Hc.
  destruct (NoteVersion.validate
              (NoteVersion.mk (nextId db) nid title content tags num by_ now))
    eqn:E.
  - destruct (create_valid now nid title content tags num by_ db E)
      as (vs' & Hrun & Hcases).
    rewrite Hrun in Hc. injection Hc as <- <-.
    split; [reflexivity|]. split; [reflexivity|]. split; [reflexivity|].
    exists vs'. split; [reflexivity|].
    destruct Hcases as [[_ ->] | (_ & before & old & after & Hs & _ & _ & ->)];
      [auto|].
    intros w Hw. rewrite Hs. apply in_app_or in Hw. apply in_or_app.
    destruct Hw; [now left|right; now right].
  - rewrite (create_invalid _ _ _ _ _ _ _ _ E) in Hc. discriminate.
Qed.

Lemma create_issued now nid title content tags num by_ :
  preserves versionIdsIssued (create now nid title content tags num by_).
Proof.
  intros db H.
  destruct (create now nid title content tags num by_ db) as [[e|v] db1] eqn:Hc.
  - apply create_versions_on_error in Hc. now subst.
  - destruct (create_kept _ _ _ _ _ _ _ _ _ _ Hc)
      as (-> & Hnext & _ & vs' & Hvs & Hsub).
    cbn [snd]. unfold versionIdsIssued in *. rewrite Hvs, Hnext.
    rewrite Forall_forall in H. apply Forall_app. split.
    + apply Forall_forall. intros w Hw. specialize (H w (Hsub w Hw)). lia.
    + constructor; [simpl; lia|constructor].
Qed.

Ltac issued_step :=
  lazymatch goal with
  | |- preserves _ (ret _) => wf_read
  | |- preserves _ (throw _ _) => wf_read
  | |- preserves _ (serverError _) => wf_read
  | |- preserves _ (throwIf _ _ _) => apply preserves_throwIf
  | |- preserves _ (NoteModel.save _ _) => apply save_issued
  | |- preserves _ (NoteModel.deleteOne _) => apply deleteOne_issued
  | |- preserves _ (NoteModel.create _ _ _ _ _) => apply NoteModel_create_issued
  | |- preserves _ (create _ _ _ _ _ _ _) => apply create_issued
  | |- preserves _ (NoteModel.findById _) => wf_read
  | |- preserves _ (countDocuments _) => wf_read
  | |- preserves _ (findOne _ _) => wf_read
  | |- preserves _ (findByNote _) => wf_read
  | |- preserves _ (populateOwner _) => wf_read
  | |- preserves _ (findUserByEmail _ _) => apply findUserByEmail_read
  | |- preserves _ newObjectId => apply newObjectId_issued
  | |- preserves _ (NoteModel.findOneByShareToken _) => wf_read
  | |- preserves _ (bind get _) => apply preserves_get; intros ?
  | |- preserves _ (bind _ _) => apply preserves_bind; [|intros ?]
  | |- preserves _ (match ?x with _ => _ end) => destruct x
  | |- preserves _ (let _ := _ in _) => cbv zeta
  end.

Lemma processReminders_issued send now dueNotes :
  forall log, preserves versionIdsIssued (processReminders send now dueNotes log).
Proof.
  induction dueNotes as [|note rest IH]; intros log db H; simpl; [exact H|].
  unfold populateOwner.
  destruct (find _ (users db)) as [owner|]; [|now apply IH].
  destruct (send _ _); apply IH; [|exact H].
  now apply save_issued.
Qed.

Lemma exec_issued regexTest send r :
  forall db, versionIdsIssued db -> versionIdsIssued (exec regexTest send r db).
Proof.
  destruct r; simpl.
  - change (preserves versionIdsIssued (createNote now caller title content tags)).
    unfold createNote. repeat issued_step.
  - change (preserves versionIdsIssued (getNoteById caller id)).
    unfold getNoteById. repeat issued_step.
  - change (preserves versionIdsIssued (updateNote now caller id body)).
    unfold updateNote. repeat issued_step.
  - change (preserves versionIdsIssued (deleteNote caller id)).
    unfold deleteNote. repeat issued_step.
  - change (preserves versionIdsIssued (createVersion now caller id)).
    unfold createVersion. repeat issued_step.
  - change (preserves versionIdsIssued (getVersionHistory caller id)).
    unfold getVersionHistory. repeat issued_step.
  - change (preserves versionIdsIssued (getVersion caller id versionId)).
    unfold getVersion. repeat issued_step.
  - change (preserves versionIdsIssued (restoreVersion now caller id versionId)).
    unfold restoreVersion. repeat issued_step.
  - change (preserves versionIdsIssued
              (shareNote regexTest now caller id email permission)).
    unfold shareNote. repeat issued_step.
  - change (preserves versionIdsIssued
              (respondToShareRequest now caller id status)).
    unfold respondToShareRequest. repeat issued_step.
  - change (preserves versionIdsIssued (removeShare now caller id userId)).
    unfold removeShare. repeat issued_step.
  - change (preserves versionIdsIssued
              (generateShareLink now caller id token expiresIn)).
    unfold generateShareLink. repeat issued_step.
  - change (preserves versionIdsIssued (revokeShareLink now caller id)).
    unfold revokeShareLink. repeat issued_step.
  - change (preserves versionIdsIssued (getSharedNote now token)).
    unfold getSharedNote. repeat issued_step.
  - change (preserves versionIdsIssued
              (uploadAttachment (fun _ _ _ => stored) now caller id file)).
    unfold uploadAttachment. repeat issued_step.
  - change (preserves versionIdsIssued
              (deleteAttachment now caller id attachmentId)).
    unfold deleteAttachment. repeat issued_step.
  - intros db H. now apply processReminders_issued.
  - intros db H. exact H.
Qed.

Lemma reachable_issued regexTest send db :
  reachable regexTest send db -> versionIdsIssued db.
Proof.
  induction 1 as [us next | r db _ IH].
  - constructor.
  - now apply exec_issued.
Qed.





(** ** Listed, but not to be opened *)

Section ListedNotes.

Variable regexSearch : string -> option (text -> bool).
Variable regexTest : string -> option (string -> bool).
Variable sendReminderEmail : nat -> Dispatch -> bool.

(** In a database the application reaches by serving requests one after
    another, getNotes lists the notes shared with the caller and accepted
    next to the caller's own, but getNoteById and updateNote serve the
    owner alone: a note that the listing marks as not owned by the caller,
    whatever permission it shows, is answered 403 when the caller opens
    it by id or sends an update for it. *)
Theorem listed_shared_note_cannot_be_opened :
  forall now caller q body db listing e,
    reachable regexTest sendReminderEmail db ->
    getNotes regexSearch caller q db = (inr listing, db) ->
    In e listing ->
    listed_isOwner e = false ->
    (exists p, holdsGrant caller p accepted (listed_note e)
               /\ listed_permission e = p)
    /\ getNoteById caller (Note._id (listed_note e)) db
       = (inl (mkError 403 "Not authorized to access this note"), db)
    /\ updateNote now caller (Note._id (listed_note e)) body db
       = (inl (mkError 403 "Not authorized to update this note"), db).
Proof.
  intros now caller q body db listing e Hr Hrun He Hown.
  destruct (reachable_wf _ _ _ Hr) as (Hnd & _).
  pose proof (reachable_grants _ _ _ Hr) as Hgr.
  unfold allGrantsOk in Hgr. rewrite Forall_forall in Hgr.
  unfold getNotes in Hrun.
  destruct (searchFilter regexSearch (query_search q)) as [sel|];
    [|discriminate].
  set (matching := filter (notesQuery caller q sel) (notes db)) in *.
  assert (Hrun' : mapM (annotate caller) (sortBy pinnedThenNewest matching) db
                  = (inr listing, db)) by exact Hrun.
  destruct (proj2 (mapM_annotate caller _ db) listing db Hrun') as [Hmap Hall].
  destruct (Hall e He) as (d' & Ha).
  destruct (proj2 (annotate_spec caller (listed_note e) db) e d' Ha)
    as (_ & Hisown & _ & Hperm).
  rewrite Hown in Hisown. symmetry in Hisown. apply Nat.eqb_neq in Hisown.
  assert (Hin : In (listed_note e) matching).
  { apply (Permutation_in _ (Permutation_sym (sortBy_perm pinnedThenNewest matching))).
    rewrite <- Hmap. now apply in_map. }
  apply filter_In in Hin. destruct Hin as [Hin Hq].
  pose proof (lookup_NoDup db _ Hnd Hin) as Hl.
  split; [|split].
  - unfold notesQuery in Hq. repeat (apply andb_true_iff in Hq; destruct Hq as [Hq _]).
    apply orb_true_iff in Hq. destruct Hq as [Hq | Hq];
      [apply Nat.eqb_eq in Hq; contradiction|].
    unfold hasGrantWithStatus in Hq. apply existsb_exists in Hq.
    destruct Hq as (s & Hs & Hb). apply andb_true_iff in Hb.
    destruct Hb as [Hu Hst]. apply Nat.eqb_eq in Hu.
    apply ShareStatus_eqb_eq in Hst.
    destruct (grantOf caller (listed_note e)) as [g|] eqn:Hg.
    + exists (Share.permission g). split; [|now apply Hperm].
      unfold grantOf in Hg. pose proof (find_some _ _ Hg) as [Hgin Hgu].
      apply Nat.eqb_eq in Hgu.
      exists g. split; [exact Hgin|]. split; [exact Hgu|]. split; [reflexivity|].
      apply (grant_status_unique caller accepted (listed_note e) g);
        [| |exact Hg].
      * apply (Hgr _ Hin).
      * unfold hasGrantWithStatus. apply existsb_exists. exists s.
        split; [exact Hs|]. rewrite Hu, Nat.eqb_refl. simpl.
        now apply ShareStatus_eqb_eq.
    + unfold grantOf in Hg. apply (find_none _ _ Hg) in Hs.
      apply Nat.eqb_neq in Hs. contradiction.
  - apply getNoteById_not_owner with (note := listed_note e); [exact Hl|congruence].
  - apply (updateNote_not_owner now caller _ body db (listed_note e));
      [exact Hl|congruence].
Qed.

End ListedNotes.

Lemma reachable_listingDB : reachable exactMatch (fun _ _ => true) listingDB.
Proof.
  apply (reachable_run exactMatch (fun _ _ => true)
           [ CreateNote 1000%Z 1 (Some "Plan") (Some "draft") None;
             CreateNote 1100%Z 2 (Some "Groceries") (Some "milk") None;
             CreateNote 1200%Z 2 (Some "Old") (Some "done") None;
             CreateNote 1300%Z 1 (Some "Secret") (Some "hidden") None;
             CreateNote 1400%Z 2 (Some "Ideas") (Some "many") None;
             UpdateNote 1500%Z 2 1
               (UpdateBody.mk None None None (Some true) None None None);
             UpdateNote 1600%Z 2 2
               (UpdateBody.mk None None None None (Some true) None None);
             ShareNote 1700%Z 1 0 (Some "bob@example.com") (Some "edit");
             RespondToShareRequest 1800%Z 2 0 (Some "accepted");
             ShareNote 1900%Z 1 3 (Some "bob@example.com") (Some "view") ]
           emptyDB).
  apply reachable_init.
Qed.

Lemma listed_shared_note_cannot_be_opened_witness :
  getNoteById 2 0 listingDB
  = (inl (mkError 403 "Not authorized to access this note"), listingDB)
  /\ updateNote 5000%Z 2 0 blankingBody listingDB
     = (inl (mkError 403 "Not authorized to update this note"), listingDB).
Proof.
  assert (Hrun : getNotes matchAll 2 noQuery listingDB
                 = (inr bobListing, listingDB)) by (vm_compute; reflexivity).
  assert (Hin : In (mkListedNote
                      (Note.mk 0 "Plan" "draft" 1 false false [] [] None
                         reminder_none [Share.mk 2 edit 1700%Z accepted]
                         None None 1000%Z 1800%Z)
                      false edit "Alice") bobListing).
  { right. right. left. reflexivity. }
  destruct (listed_shared_note_cannot_be_opened matchAll exactMatch
              (fun _ _ => true) 5000%Z 2 noQuery blankingBody listingDB
              bobListing _ reachable_listingDB Hrun Hin eq_refl)
    as (_ & H1 & H2).
  split; [exact H1|exact H2].
Defined.

(** ** Reading a snapshot back *)

Lemma lookup_new_version db db1 v nid vs' :
  versionIdsIssued db ->
  versions db1 = vs' ++ [v] ->
  (forall w, In w vs' -> In w (versions db)) ->
  NoteVersion._id v = nextId db -> NoteVersion.noteId v = nid ->
  NoteVersionModel.lookup (nextId db) nid db1 = Some v.
Proof.
  intros Hiss Hvs Hsub Hid Hn. unfold lookup. rewrite Hvs.
  apply find_app_last.
  - destruct (find _ vs') as [w|] eqn:Hw; [|reflexivity].
    apply find_some in Hw. destruct Hw as [Hin Hb].
    apply andb_true_iff in Hb. destruct Hb as [Hb _]. apply Nat.eqb_eq in Hb.
    unfold versionIdsIssued in Hiss. rewrite Forall_forall in Hiss.
    specialize (Hiss w (Hsub w Hin)). lia.
  - unfold ofNote. rewrite Hid, Hn. now rewrite !Nat.eqb_refl.
Qed.

(** createVersion by the owner, in a database the application reaches by
    serving requests one after another.
    A note with an empty content cannot be snapshotted: the answer is 500
    and nothing is stored.  Otherwise the snapshot holds the title,
    content and tags of the note as they are, is numbered by the count of
    the note's versions plus one, and leaves the note as it was; getVersion
    then returns this snapshot, under the id that was issued, to every
    user who has access to the note. *)
Theorem snapshot_can_be_read_back :
  forall regexTest send now id db note,
    reachable regexTest send db ->
    NoteModel.lookup id db = Some note ->
    (Note.content note = "" ->
     createVersion now (Note.userId note) id db
     = (inl (mkError 500 "ValidationError"), db))
    /\
    (Note.content note <> "" ->
     exists db',
       let v := NoteVersion.mk (nextId db) id (Note.title note)
                  (Note.content note) (Note.tags note)
                  (versionCount id db + 1) (Note.userId note) now in
       createVersion now (Note.userId note) id db = (inr v, db')
       /\ NoteModel.lookup id db' = Some note
       /\ forall reader, hasAccess reader note = true ->
            getVersion reader id (nextId db) db' = (inr v, db')).
Proof.
  intros regexTest send now id db note Hr Hl.
  pose proof (reachable_wf _ _ _ Hr) as Hwf.
  pose proof (reachable_issued _ _ _ Hr) as Hiss.
  pose proof (lookup_id _ _ _ Hl) as Hid.
  destruct (wf_lookup _ _ _ Hwf Hl) as (Hv & _ & _).
  assert (Ht : Note.title note <> "").
  { intros E. unfold Note.validate in Hv. rewrite E in Hv. discriminate. }
  assert (Hrun : createVersion now (Note.userId note) id db
                 = create now id (Note.title note) (Note.content note)
                     (Note.tags note) (versionCount id db + 1)
                     (Note.userId note) db).
  { unfold createVersion, bind, NoteModel.findById, countDocuments.
    rewrite Hl. cbn [throwIf]. rewrite Nat.eqb_refl. cbn [negb throwIf ret].
    now rewrite Hid. }
  split.
  - intros Hc. rewrite Hrun. apply create_invalid.
    unfold NoteVersion.validate. cbn [NoteVersion.title NoteVersion.content].
    rewrite Hc. now rewrite andb_false_r.
  - intros Hc.
    destruct (create_succeeds now db id (Note.title note) (Note.content note)
                (Note.tags note) (versionCount id db + 1) (Note.userId note)
                Ht Hc) as (v & db' & Hcreate).
    destruct (create_kept _ _ _ _ _ _ _ _ _ _ Hcreate)
      as (Hsnap & _ & Hnotes & vs' & Hvs & Hsub).
    exists db'. cbv zeta. rewrite <- Hsnap.
    assert (Hl' : NoteModel.lookup id db' = Some note).
    { unfold NoteModel.lookup. rewrite Hnotes. exact Hl. }
    split; [now rewrite Hrun|]. split; [exact Hl'|].
    intros reader Ha. unfold getVersion, bind, NoteModel.findById, findOne.
    rewrite Hl'. cbn [throwIf]. rewrite Ha. cbn [negb throwIf ret].
    rewrite Hid.
    rewrite (lookup_new_version db db' v id vs' Hiss Hvs Hsub);
      [reflexivity| |]; now rewrite Hsnap.
Qed.

Lemma snapshot_can_be_read_back_witness :
  exists v db',
    createVersion 4000%Z 1 0 sharedDB = (inr v, db')
    /\ NoteVersion.content v = "draft"
    /\ getVersion 2 0 1 db' = (inr v, db').
Proof.
  destruct (snapshot_can_be_read_back exactMatch (fun _ _ => true) 4000%Z 0
              sharedDB sharedNote reachable_sharedDB eq_refl) as [_ H].
  destruct (H ltac:(discriminate)) as (db' & Hc & _ & Hg).
  eexists. exists db'. split; [exact Hc|]. split; [reflexivity|].
  apply (Hg 2). reflexivity.
Defined.
